(** * Duplicate-function detector and consolidation staging

    A shallow embedding of [scripts/dedupe.py], [scripts/apply_consolidation.py]
    and [scripts/auto_consolidate.py], with the properties of the scan, the
    planner and the stub generator that the specification states.

    Conventions of the embedding:
    - a Python [str] is a [string]; a character is a code point below U+0100
      (the [ascii] type read as Latin-1), which covers every character the
      patterns of the scripts name explicitly;
    - a Python [int] that counts lines is a [nat];
    - a function that returns [None] or raises where Python does returns
      [option];
    - [print] appends a line to an output list;
    - the directory of stub files is a finite map from file names to
      contents. *)

From Stdlib Require Import String Ascii List NArith ZArith Lia Bool Arith.
From Stdlib Require Import DecimalString DecimalNat Sorting.Sorted Permutation.
From stdpp Require Import gmap strings.
Import ListNotations.

Local Open Scope string_scope.
Local Open Scope list_scope.

(** ** Characters and the classes the scripts use *)

Module Chars.

Definition code (c : ascii) : N := N_of_ascii c.

Definition between (lo hi : N) (c : ascii) : bool :=
  ((lo <=? code c) && (code c <=? hi))%N.

(** [[0-9]], which is also [\d] and [str.isdecimal] below U+0100. *)
Definition isdigit (c : ascii) : bool := between 48 57 c.

Definition isupper_ascii (c : ascii) : bool := between 65 90 c.
Definition islower_ascii (c : ascii) : bool := between 97 122 c.

(** [[a-zA-Z0-9_]] of the header patterns. *)
Definition isword (c : ascii) : bool :=
  isdigit c || isupper_ascii c || islower_ascii c || (code c =? 95)%N.

(** [str.isalnum] on one character: letters and numeric characters.  Below
    U+0100 these are the ASCII letters and digits, the ordinal indicators,
    the micro sign, the superscript digits, the vulgar fractions and the
    Latin-1 letters (all of U+00C0..U+00FF but the two operators). *)
Definition isalnum (c : ascii) : bool :=
  isdigit c || isupper_ascii c || islower_ascii c
  || (code c =? 170)%N || (code c =? 178)%N || (code c =? 179)%N
  || (code c =? 181)%N || (code c =? 185)%N || (code c =? 186)%N
  || between 188 190 c || between 192 214 c || between 216 246 c
  || between 248 255 c.

(** [str.isspace] on one character, which is also [\s] of [re] and what
    [str.strip()] removes. *)
Definition isspace (c : ascii) : bool :=
  between 9 13 c || between 28 32 c || (code c =? 133)%N || (code c =? 160)%N.

(** [.] of [re]: anything but a line feed. *)
Definition isdot (c : ascii) : bool := negb (code c =? 10)%N.

(** The line boundaries of [str.splitlines] below U+0100: line feed, vertical
    tab, form feed, carriage return, the three separators and next line. *)
Definition islinebreak (c : ascii) : bool :=
  between 10 13 c || between 28 30 c || (code c =? 133)%N.

(** [str.lower] on one character. *)
Definition lower_char (c : ascii) : ascii :=
  if isupper_ascii c || between 192 214 c || between 216 222 c
  then ascii_of_N (code c + 32) else c.

End Chars.

(** ** Strings *)

Module Str.

Fixpoint lower (s : string) : string :=
  match s with
  | EmptyString => EmptyString
  | String c s' => String (Chars.lower_char c) (lower s')
  end.

(** [s.startswith(p)] *)
Fixpoint startswith (p s : string) : bool :=
  match p, s with
  | EmptyString, _ => true
  | String a p', String b s' => Ascii.eqb a b && startswith p' s'
  | String _ _, EmptyString => false
  end.

(** [p in s] *)
Fixpoint contains (p s : string) : bool :=
  startswith p s ||
  match s with
  | EmptyString => false
  | String _ s' => contains p s'
  end.

Fixpoint rev_acc (s acc : string) : string :=
  match s with
  | EmptyString => acc
  | String c s' => rev_acc s' (String c acc)
  end.

Definition rev (s : string) : string := rev_acc s EmptyString.

(** [s.endswith(p)] *)
Definition endswith (p s : string) : bool := startswith (rev p) (rev s).

(** [s.lstrip()] and [s.strip()] *)
Fixpoint lstrip (s : string) : string :=
  match s with
  | EmptyString => EmptyString
  | String c s' => if Chars.isspace c then lstrip s' else s
  end.

Definition strip (s : string) : string := rev (lstrip (rev (lstrip s))).

(** [s.count(c)] for a one-character [c] *)
Fixpoint count (c : ascii) (s : string) : nat :=
  match s with
  | EmptyString => 0
  | String a s' => (if Ascii.eqb a c then 1 else 0) + count c s'
  end.

(** [''.join(l)] *)
Fixpoint concat (l : list string) : string :=
  match l with
  | [] => EmptyString
  | s :: l' => String.append s (concat l')
  end.

Fixpoint forallb (p : ascii -> bool) (s : string) : bool :=
  match s with
  | EmptyString => true
  | String c s' => p c && forallb p s'
  end.

(** [str(n)] for a non-negative [int] *)
Definition of_nat (n : nat) : string := NilEmpty.string_of_uint (Nat.to_uint n).

(** [int(s)] on a string of decimal digits; [None] where Python raises. *)
Definition to_nat (s : string) : option nat :=
  match s with
  | EmptyString => None
  | _ => option_map Nat.of_uint (NilEmpty.uint_of_string s)
  end.

(** [s.lstrip(chars)] *)
Fixpoint lstrip_chars (chars : string) (s : string) : string :=
  match s with
  | EmptyString => EmptyString
  | String c s' =>
      if contains (String c EmptyString) chars then lstrip_chars chars s' else s
  end.

(** [s.split(sep, 1)] for a one-character separator: one part when [sep]
    does not occur, else what is before and what is after its first
    occurrence. *)
Fixpoint split_once (sep : ascii) (s : string) : list string :=
  match s with
  | EmptyString => [EmptyString]
  | String c s' =>
      if Ascii.eqb c sep then [EmptyString; s']
      else match split_once sep s' with
           | part :: parts => String c part :: parts
           | [] => []
           end
  end.

(** [s.splitlines()]: [cur] is the line being read, [after_cr] says that the
    previous character was a carriage return, which makes one boundary with
    a line feed that follows it.  A last line without boundary counts when
    it is not empty. *)
Fixpoint splitlines_from (after_cr : bool) (cur : string) (s : string) : list string :=
  match s with
  | EmptyString =>
      match cur with EmptyString => [] | _ => [cur] end
  | String c s' =>
      if after_cr && (Chars.code c =? 10)%N then splitlines_from false cur s'
      else if Chars.islinebreak c then
        cur :: splitlines_from (Chars.code c =? 13)%N EmptyString s'
      else splitlines_from false (String.append cur (String c EmptyString)) s'
  end.

Definition splitlines (s : string) : list string :=
  splitlines_from false EmptyString s.

End Str.

(** ** The fragment of [re] the scripts use

    Every pattern of the three scripts is a sequence of literal characters
    and greedy repetitions of a character class ([\s+], [\s*], [.+], [.*],
    [\d+], [[a-zA-Z0-9_]+]), some of them captured.  [re.match] anchors the
    pattern at the start of the string only, tries the longest repetition
    first and backtracks. *)

Module Re.

Inductive item : Type :=
  | Lit (c : ascii)
  | Rep (cls : ascii -> bool) (plus : bool) (cap : bool).

Definition pattern := list item.

(** Literal text as a pattern. *)
Fixpoint lits (s : string) : pattern :=
  match s with
  | EmptyString => []
  | String c s' => Lit c :: lits s'
  end.

(** A greedy repetition of [cls] followed by the continuation [k]: [taken]
    is what the repetition has consumed, [need] says that one more character
    is required before the repetition may stop. *)
Fixpoint rep (cls : ascii -> bool) (cap : bool)
    (k : string -> option (list string))
    (need : bool) (s : string) (taken : string) : option (list string) :=
  let stop :=
    if need then None
    else match k s with
         | Some gs => Some (if cap then taken :: gs else gs)
         | None => None
         end in
  match s with
  | String c s' =>
      if cls c then
        match rep cls cap k false s' (String.append taken (String c EmptyString)) with
        | Some r => Some r
        | None => stop
        end
      else stop
  | EmptyString => stop
  end.

(** [re.match(p, s)]: the captured groups, in order, when [p] matches a
    prefix of [s]. *)
Fixpoint pmatch (p : pattern) (s : string) : option (list string) :=
  match p with
  | [] => Some []
  | Lit c :: p' =>
      match s with
      | String c' s' => if Ascii.eqb c c' then pmatch p' s' else None
      | EmptyString => None
      end
  | Rep cls plus cap :: p' => rep cls cap (pmatch p') plus s EmptyString
  end.

Definition matches (p : pattern) (s : string) : bool :=
  match pmatch p s with Some _ => true | None => false end.

End Re.

(** ** [apply_consolidation.py]: occurrences *)

(** [f"{path}:{start}-{end}"], the occurrence string that [dedupe.py] prints. *)
Definition format_occurrence (path : string) (start end_ : nat) : string :=
  String.append path
    (String.append ":" (String.append (Str.of_nat start)
       (String.append "-" (Str.of_nat end_)))).

(** [r'(.+):(\d+)-(\d+)'] *)
Definition occurrence_re : Re.pattern :=
  [Re.Rep Chars.isdot true true; Re.Lit ":";
   Re.Rep Chars.isdigit true true; Re.Lit "-";
   Re.Rep Chars.isdigit true true].

(** [parse_occurrence]; [None] stands for the triple [(None, None, None)]. *)
Definition parse_occurrence (occurrence : string) : option (string * nat * nat) :=
  match Re.pmatch occurrence_re occurrence with
  | Some [filepath; g2; g3] =>
      match Str.to_nat g2, Str.to_nat g3 with
      | Some start, Some end_ => Some (filepath, start, end_)
      | _, _ => None
      end
  | _ => None
  end.

(** ** [hashlib.sha256] (FIPS 180-4)

    Words are numbers below [2^32]; bytes are numbers below [2^8]. *)

Module Sha256.

Local Open Scope N_scope.

Definition w32 (x : N) : N := N.land x 0xffffffff.
Definition add32 (x y : N) : N := w32 (x + y).
Definition rotr (n x : N) : N := N.lor (N.shiftr x n) (w32 (N.shiftl x (32 - n))).
Definition not32 (x : N) : N := N.lxor x 0xffffffff.

Definition Ch (x y z : N) : N := N.lxor (N.land x y) (N.land (not32 x) z).
Definition Maj (x y z : N) : N :=
  N.lxor (N.lxor (N.land x y) (N.land x z)) (N.land y z).
Definition Sigma0 (x : N) : N := N.lxor (N.lxor (rotr 2 x) (rotr 13 x)) (rotr 22 x).
Definition Sigma1 (x : N) : N := N.lxor (N.lxor (rotr 6 x) (rotr 11 x)) (rotr 25 x).
Definition sigma0 (x : N) : N := N.lxor (N.lxor (rotr 7 x) (rotr 18 x)) (N.shiftr x 3).
Definition sigma1 (x : N) : N := N.lxor (N.lxor (rotr 17 x) (rotr 19 x)) (N.shiftr x 10).

(** The constants of FIPS 180-4, sections 4.2.2 and 5.3.3: the first 32 bits
    of the fractional parts of the cube roots of the first 64 primes, and of
    the square roots of the first 8 primes. *)
Definition is_prime (n : nat) : bool :=
  forallb (fun d => negb (Nat.eqb (n mod d) 0)) (seq 2 (n - 2)).

Definition primes : list N :=
  map N.of_nat (List.filter is_prime (seq 2 310)).

(** The floor of the [k]-th root of [x], found bit by bit from bit [bits]
    downwards. *)
Fixpoint floor_root (k x : N) (bits : nat) (r : N) : N :=
  match bits with
  | O => r
  | S b =>
      let c := N.lor r (N.shiftl 1 (N.of_nat b)) in
      floor_root k x b (if c ^ k <=? x then c else r)
  end.

Definition frac_root (k p : N) : N :=
  w32 (floor_root k (p * 2 ^ (32 * k)) 36 0).

Definition K : list N := Eval vm_compute in map (frac_root 3) primes.

Definition H0 : list N := Eval vm_compute in map (frac_root 2) (firstn 8 primes).

(** Padding: the byte 0x80, zero bytes up to 56 modulo 64, then the length
    in bits as eight big-endian bytes. *)
Definition be_bytes (width : nat) (x : N) : list N :=
  map (fun i => N.land (N.shiftr x (8 * N.of_nat i)) 0xff) (rev (seq 0 width)).

Definition pad (msg : list N) : list N :=
  let len := N.of_nat (length msg) in
  let zeros := N.to_nat ((119 - len mod 64) mod 64) in
  msg ++ [0x80] ++ repeat 0 zeros ++ be_bytes 8 (8 * len).

Fixpoint be_words (bytes : list N) : list N :=
  match bytes with
  | a :: b :: c :: d :: rest =>
      N.lor (N.shiftl a 24) (N.lor (N.shiftl b 16) (N.lor (N.shiftl c 8) d))
      :: be_words rest
  | _ => []
  end.

(** The message schedule, kept newest word first while it grows. *)
Fixpoint extend (n : nat) (w : list N) : list N :=
  match n with
  | O => w
  | S n' =>
      let wt := add32 (add32 (sigma1 (nth 1 w 0)) (nth 6 w 0))
                      (add32 (sigma0 (nth 14 w 0)) (nth 15 w 0)) in
      extend n' (wt :: w)
  end.

Definition schedule (block : list N) : list N := rev (extend 48 (rev block)).

Record state : Type := State { sa : N; sb : N; sc : N; sd : N;
                               se : N; sf : N; sg : N; sh : N }.

Definition round (s : state) (kw : N * N) : state :=
  let t1 := add32 (add32 (add32 (sh s) (Sigma1 (se s)))
                         (add32 (Ch (se s) (sf s) (sg s)) (fst kw))) (snd kw) in
  let t2 := add32 (Sigma0 (sa s)) (Maj (sa s) (sb s) (sc s)) in
  State (add32 t1 t2) (sa s) (sb s) (sc s) (add32 (sd s) t1) (se s) (sf s) (sg s).

Definition compress (h : state) (block : list N) : state :=
  let s := fold_left round (combine K (schedule block)) h in
  State (add32 (sa h) (sa s)) (add32 (sb h) (sb s)) (add32 (sc h) (sc s))
        (add32 (sd h) (sd s)) (add32 (se h) (se s)) (add32 (sf h) (sf s))
        (add32 (sg h) (sg s)) (add32 (sh h) (sh s)).

Fixpoint blocks (fuel : nat) (ws : list N) : list (list N) :=
  match fuel, ws with
  | S fuel', _ :: _ => firstn 16 ws :: blocks fuel' (skipn 16 ws)
  | _, _ => []
  end.

Definition initial : state :=
  State (nth 0 H0 0) (nth 1 H0 0) (nth 2 H0 0) (nth 3 H0 0)
        (nth 4 H0 0) (nth 5 H0 0) (nth 6 H0 0) (nth 7 H0 0).

Definition digest_words (msg : list N) : list N :=
  let ws := be_words (pad msg) in
  let s := fold_left compress (blocks (length ws) ws) initial in
  [sa s; sb s; sc s; sd s; se s; sf s; sg s; sh s].

Definition hex_digit (x : N) : ascii :=
  if x <? 10 then ascii_of_N (48 + x) else ascii_of_N (87 + x).

Definition hex_word (x : N) : string :=
  fold_right (fun i acc => String (hex_digit (N.land (N.shiftr x (4 * N.of_nat i)) 0xf)) acc)
             EmptyString (rev (seq 0 8)).

(** [hashlib.sha256(msg).hexdigest()] *)
Definition hexdigest (msg : list N) : string :=
  Str.concat (map hex_word (digest_words msg)).

End Sha256.

(** [str.encode("utf-8")] for code points below U+0100. *)
Fixpoint encode_utf8 (s : string) : list N :=
  match s with
  | EmptyString => []
  | String c s' =>
      let n := Chars.code c in
      if (n <? 128)%N then n :: encode_utf8 s'
      else N.lor 192 (N.shiftr n 6) :: N.lor 128 (N.land n 63) :: encode_utf8 s'
  end.


(** ** Python built-ins shared by the scripts *)

Module Py.

Section SortedByKey.
Context {A : Type} (key : A -> nat).

(** [sorted(l, key=key)] is a stable sort: elements with equal keys keep
    their order.  Insertion from the right, before the first element whose
    key is not smaller, is such a sort. *)
Fixpoint insert_by (x : A) (l : list A) : list A :=
  match l with
  | [] => [x]
  | y :: l' => if (key x <=? key y)%nat then x :: l else y :: insert_by x l'
  end.

Definition sorted (l : list A) : list A := fold_right insert_by [] l.
End SortedByKey.

Section Dict.
Context {K V : Type} `{EqDecision K}.

(** A [dict] whose values are lists, in insertion order of its keys:
    [d.setdefault(k, []).append(v)], which is what
    [defaultdict(list)[k].append(v)] and
    [if k not in d: d[k] = []] followed by [d[k].append(v)] do. *)
Fixpoint dict_append (k : K) (v : V) (d : list (K * list V)) : list (K * list V) :=
  match d with
  | [] => [(k, [v])]
  | (k', vs) :: d' =>
      if decide (k' = k) then (k', vs ++ [v]) :: d'
      else (k', vs) :: dict_append k v d'
  end.

Fixpoint dict_get (k : K) (d : list (K * list V)) : option (list V) :=
  match d with
  | [] => None
  | (k', vs) :: d' => if decide (k' = k) then Some vs else dict_get k d'
  end.
End Dict.


(** The exit status of the interpreter: [exit(v)] with [v] an [int] or
    [None], and a script that runs to its last statement. *)
Inductive value : Type := PyNone | PyInt (n : nat).

Definition exit_status (v : value) : nat :=
  match v with PyNone => 0 | PyInt n => n end.

Definition ran_to_end : nat := 0.

End Py.

Definition nl : string := String (ascii_of_N 10) EmptyString.
Definition dquote : string := String (ascii_of_N 34) EmptyString.

(** ** [apply_consolidation.py] *)

Module Planner.


(** [determine_canonical_path]; [None] where [sorted_occs[0]] raises. *)
Definition determine_canonical_path (occurrences : list string) : option string :=
  hd_error (Py.sorted (Str.count "/") occurrences).

(** One record of the report, [{'function': ..., 'occurrences': [...]}]. *)
Record candidate : Type := Candidate {
  function : string;
  occurrences : list string
}.

(** One entry of the plan,
    [{'function': ..., 'canonical': ..., 'occurrences': [...]}]. *)
Record entry : Type := Entry {
  e_function : string;
  e_canonical : string;
  e_occurrences : list string
}.

(** [s.split(sep)] for a one-character separator. *)
Fixpoint split (sep : ascii) (s : string) : list string :=
  match s with
  | EmptyString => [EmptyString]
  | String c s' =>
      match split sep s' with
      | [] => []
      | part :: parts =>
          if Ascii.eqb c sep then EmptyString :: part :: parts
          else String c part :: parts
      end
  end.

(** [s.rfind(c)], [None] for -1. *)
Fixpoint rfind (c : ascii) (s : string) : option nat :=
  match s with
  | EmptyString => None
  | String a s' =>
      match rfind c s' with
      | Some i => Some (S i)
      | None => if Ascii.eqb a c then Some 0 else None
      end
  end.

(** [Path(p).name]: the last component, where empty components and [.] do
    not count. *)
Definition path_name (p : string) : string :=
  List.last (List.filter (fun part => negb (String.eqb part "" || String.eqb part "."))
               (split "/" p)) "".

(** [Path(p).suffix]: from the last dot of the name, unless that dot is the
    first or the last character of the name. *)
Definition suffix (p : string) : string :=
  let name := path_name p in
  match rfind "." name with
  | Some i =>
      if ((0 <? i) && (i <? String.length name - 1))%nat
      then substring i (String.length name - i) name
      else ""
  | None => ""
  end.

(** The target package of a canonical file (lines 64 to 70 of [main]). *)
Definition target_pkg_of (filepath : string) : string :=
  let ext := suffix filepath in
  if existsb (String.eqb ext) [".ts"; ".tsx"; ".js"; ".jsx"] then
    if Str.contains "component" (Str.lower filepath) then "shared-ui"
    else "shared-utils"
  else if existsb (String.eqb ext) [".py"] then "shared-python"
  else "shared-utils".

(** What [main] prints, one constructor per [print] call. *)
Inductive line : Type :=
  | Reading (report_path : string)
  | FoundGroups (n : nat)
  | Warning (canonical : string)
  | PlanTitle
  | Package (pkg : string)
  | FromCanonical (func canonical : string)
  | FoundIn (n : nat)
  | Complete (n : nat)
  | CreatesPlan
  | ManualRecommended.

Definition check_mark : string :=
  String (ascii_of_N 226) (String (ascii_of_N 156) (String (ascii_of_N 147) EmptyString)).

(** The text of each [print]; the check mark of the last message is written
    as the three bytes of its UTF-8 form. *)
Definition render (l : line) : string :=
  match l with
  | Reading p => String.append "Reading dedupe report from " p
  | FoundGroups n =>
      Str.concat ["Found "; Str.of_nat n; " duplicate function groups"]
  | Warning c => String.append "Warning: Could not parse occurrence " c
  | PlanTitle => String.append nl "=== Consolidation Plan ==="
  | Package pkg => Str.concat [nl; pkg; ":"]
  | FromCanonical f c => Str.concat ["  - "; f; " from "; c]
  | FoundIn n => Str.concat ["    Found in "; Str.of_nat n; " locations"]
  | Complete n =>
      Str.concat [nl; check_mark; " Analysis complete. Found "; Str.of_nat n;
                  " functions to consolidate."]
  | CreatesPlan => "  This script creates a consolidation plan."
  | ManualRecommended =>
      "  Manual consolidation recommended for complex TypeScript/React components."
  end.

Definition plan : Type := list (string * list entry).

(** One iteration of the loop over the candidates (lines 48 to 79).  The
    state is the plan and what has been printed so far.  [parse_occurrence]
    never returns an empty file path, so [not filepath] is the failure of the
    match. *)
Definition step (st : plan * list line) (c : candidate) : plan * list line :=
  let '(consolidation_plan, out) := st in
  if (length (occurrences c) <? 2)%nat then st
  else
    match determine_canonical_path (occurrences c) with
    | None => st
    | Some canonical =>
        match parse_occurrence canonical with
        | None => (consolidation_plan, out ++ [Warning canonical])
        | Some (filepath, _, _) =>
            (Py.dict_append (target_pkg_of filepath)
               (Entry (function c) canonical (occurrences c)) consolidation_plan,
             out)
        end
    end.

Definition print_plan (consolidation_plan : plan) : list line :=
  flat_map (fun '(pkg, funcs) =>
              Package pkg ::
              flat_map (fun func =>
                          [FromCanonical (e_function func) (e_canonical func);
                           FoundIn (length (e_occurrences func))]) funcs)
           consolidation_plan.

(** [main], given the path of the report and the records loaded from it:
    the plan, the printed lines and the returned value. *)
Definition main (report_path : string) (candidates : list candidate)
  : plan * list line * Py.value :=
  let out0 := [Reading report_path; FoundGroups (length candidates)] in
  let '(consolidation_plan, out1) := fold_left step candidates ([], out0) in
  let total := list_sum (map (fun '(_, v) => length v) consolidation_plan) in
  (consolidation_plan,
   out1 ++ [PlanTitle] ++ print_plan consolidation_plan
        ++ [Complete total; CreatesPlan; ManualRecommended],
   Py.PyInt 0).

(** [exit(main())] *)
Definition script_exit_status (report_path : string) (candidates : list candidate) : nat :=
  Py.exit_status (snd (main report_path candidates)).

End Planner.

(** ** [auto_consolidate.py]: the stub generator *)

Module Stubs.

Fixpoint map_chars (f : ascii -> ascii) (s : string) : string :=
  match s with
  | EmptyString => EmptyString
  | String c s' => String (f c) (map_chars f s')
  end.

(** [ch if ch.isalnum() or ch=='_' else '_'] *)
Definition safe_char (ch : ascii) : ascii :=
  if Chars.isalnum ch || Ascii.eqb ch "_" then ch else "_"%char.

(** [''.join(... for ch in name) or 'fn'] *)
Definition safe_name (name : string) : string :=
  match map_chars safe_char name with
  | EmptyString => "fn"
  | s => s
  end.

(** The sanitization in the words of the specification: keep only the
    alphanumeric characters and the underscores of the name. *)
Fixpoint keep_safe_chars (name : string) : string :=
  match name with
  | EmptyString => EmptyString
  | String ch name' =>
      if Chars.isalnum ch || Ascii.eqb ch "_" then String ch (keep_safe_chars name')
      else keep_safe_chars name'
  end.

(** Characters a stub identifier may hold. *)
Definition safe (ch : ascii) : bool := Chars.isalnum ch || Ascii.eqb ch "_".

(** The name of the stub file inside the staging directory. *)
Definition stub_file (name : string) : string :=
  String.append (safe_name name) ".py".

(** What the [f.write] calls of lines 64 to 71 put in a new stub. *)
Definition stub_text (name : string) (occurrences : list string) : string :=
  Str.concat
    ([Str.concat ["# Auto-generated consolidation stub for function: "; name; nl];
      "# Review occurrences:"]
     ++ map (fun occ => Str.concat ["#   "; occ; nl]) occurrences
     ++ [nl;
         Str.concat ["def "; safe_name name; "(*args, **kwargs):"; nl];
         Str.concat ["    "; dquote; dquote; dquote;
                     "IMPLEMENTATION: merge canonical behavior from occurrences listed above.";
                     dquote; dquote; dquote; nl];
         Str.concat ["    raise NotImplementedError("; dquote;
                     "Consolidate and implement this function based on occurrences";
                     dquote; ")"; nl]]).

(** The staging directory: the content of each file in it, by file name. *)
Abbreviation directory := (gmap string string).

(** One iteration of the loop of [create_stubs]: the directory and the names
    of the stubs reported as created. *)
Definition create_stub (st : directory * list string) (c : Planner.candidate)
  : directory * list string :=
  let '(dir, created) := st in
  let stub_py := stub_file (Planner.function c) in
  match dir !! stub_py with
  | Some _ => st
  | None =>
      (<[stub_py := stub_text (Planner.function c) (Planner.occurrences c)]> dir,
       created ++ [stub_py])
  end.

(** [create_stubs(candidates)] run on the staging directory [dir]. *)
Definition create_stubs (candidates : list Planner.candidate) (dir : directory)
  : directory * list string :=
  fold_left create_stub candidates (dir, []).

End Stubs.

(** ** [dedupe.py] *)

Module Dedupe.

(** *** The header patterns *)

Definition sp_plus : Re.item := Re.Rep Chars.isspace true false.
Definition sp_star : Re.item := Re.Rep Chars.isspace false false.
Definition name_group : Re.item := Re.Rep Chars.isword true true.
Definition any_star : Re.item := Re.Rep Chars.isdot false false.

(** [^def\s+([a-zA-Z0-9_]+)\s*\(.*\):] *)
Definition python : Re.pattern :=
  Re.lits "def" ++ [sp_plus; name_group; sp_star; Re.Lit "("; any_star;
                    Re.Lit ")"; Re.Lit ":"].

(** [^export\s+function\s+([a-zA-Z0-9_]+)\s*\(] *)
Definition ts_fn : Re.pattern :=
  Re.lits "export" ++ [sp_plus] ++ Re.lits "function"
    ++ [sp_plus; name_group; sp_star; Re.Lit "("].

(** [^const\s+([a-zA-Z0-9_]+)\s*=\s*\(] *)
Definition ts_const_fn : Re.pattern :=
  Re.lits "const" ++ [sp_plus; name_group; sp_star; Re.Lit "="; sp_star; Re.Lit "("].

(** [^function\s+([a-zA-Z0-9_]+)\s*\(] *)
Definition js_fn : Re.pattern :=
  Re.lits "function" ++ [sp_plus; name_group; sp_star; Re.Lit "("].

(** [m.group(1)] of a match of one of the patterns above. *)
Definition group1 (p : Re.pattern) (s : string) : option string :=
  match Re.pmatch p s with
  | Some (g :: _) => Some g
  | _ => None
  end.

(** [a or b] on match objects. *)
Definition or_else (a b : option string) : option string :=
  match a with Some _ => a | None => b end.

Definition structured_exts : list string := [".ts"; ".js"; ".tsx"; ".jsx"].

(** Lines 40 to 46 of [scan_file]: the declared name when the stripped line
    is a header for the language of [ext]. *)
Definition header_name (ext : string) (stripped : string) : option string :=
  if String.eqb ext ".py" then group1 python stripped
  else if existsb (String.eqb ext) structured_exts then
    or_else (group1 ts_fn stripped)
            (or_else (group1 ts_const_fn stripped) (group1 js_fn stripped))
  else None.

(** Lines 52 to 57: the stripped line starts the next construct.
    [^def\s+|^class\s+] for Python, otherwise
    [^(export\s+)?function\s+|^const\s+.*=\s*\(|^class\s+]. *)
Definition next_construct (ext : string) (stripped : string) : bool :=
  if String.eqb ext ".py" then
    Re.matches (Re.lits "def" ++ [sp_plus]) stripped
    || Re.matches (Re.lits "class" ++ [sp_plus]) stripped
  else
    Re.matches (Re.lits "export" ++ [sp_plus] ++ Re.lits "function" ++ [sp_plus]) stripped
    || Re.matches (Re.lits "function" ++ [sp_plus]) stripped
    || Re.matches (Re.lits "const" ++ [sp_plus; any_star; Re.Lit "="; sp_star; Re.Lit "("]) stripped
    || Re.matches (Re.lits "class" ++ [sp_plus]) stripped.

(** *** Hashing *)

(** [hash_block]: feeding the encoded lines one by one to the hash object is
    hashing their concatenation. *)
Definition hash_block (lines : list string) : string :=
  Sha256.hexdigest (flat_map encode_utf8 lines).

(** *** The per-file extractor *)

(** [os.path.splitext(p)[1]] *)
Definition splitext_ext (p : string) : string :=
  match Planner.rfind "." p with
  | None => ""
  | Some dotIndex =>
      let filenameIndex :=
        match Planner.rfind "/" p with Some sepIndex => S sepIndex | None => 0 end in
      if (filenameIndex <=? dotIndex)%nat
         && existsb (fun i => match String.get i p with
                              | Some c => negb (Ascii.eqb c ".")
                              | None => false
                              end)
                    (seq filenameIndex (dotIndex - filenameIndex))
      then substring dotIndex (String.length p - dotIndex) p
      else ""
  end.

(** A block as the extractor holds it before hashing: the declared name, the
    raw lines, the first and the last line number (from 1). *)
Record block : Type := Block {
  b_name : string;
  b_lines : list string;
  b_start : nat;
  b_end : nat
}.

(** The inner loop (lines 50 to 59): the lines after the header that are
    appended to the block. *)
Fixpoint gather (ext : string) (rest : list string) : list string :=
  match rest with
  | [] => []
  | nxt :: rest' =>
      if next_construct ext (Str.strip nxt) then []
      else nxt :: gather ext rest'
  end.

(** The outer loop (lines 38 to 63) from index [i].  Every iteration
    advances [i], so [length lines] iterations are enough from 0. *)
Fixpoint extract (fuel : nat) (ext : string) (lines : list string) (i : nat)
  : list block :=
  match fuel with
  | O => []
  | S fuel' =>
      match nth_error lines i with
      | None => []
      | Some line =>
          match header_name ext (Str.strip line) with
          | Some name =>
              let blk := line :: gather ext (skipn (i + 1) lines) in
              let j := i + length blk in
              Block name blk (i + 1) j :: extract fuel' ext lines j
          | None => extract fuel' ext lines (i + 1)
          end
      end
  end.

Definition blocks_of (path : string) (lines : list string) : list block :=
  extract (length lines) (Str.lower (splitext_ext path)) lines 0.

(** One element of the result of [scan_file]:
    [(name, hash_block(block), i+1, j, path)]. *)
Definition found : Type := string * string * nat * nat * string.

(** [scan_file(path)], where [lines] is what [file_lines(path)] returns. *)
Definition scan_file (path : string) (lines : list string) : list found :=
  map (fun b => (b_name b, hash_block (b_lines b), b_start b, b_end b, path))
      (blocks_of path lines).

(** *** The walk *)

(** A directory: its files, each with the lines read from it, and its
    subdirectories, in the order [os.walk] lists them. *)
Local Unset Elimination Schemes.
Inductive tree : Type :=
  | Dir (files : list (string * list string)) (subdirs : list (string * tree)).
Local Set Elimination Schemes.

(** [os.path.join(a, b)] *)
Definition join (a b : string) : string :=
  if Str.startswith "/" b then b
  else if String.eqb a "" || Str.endswith "/" a then String.append a b
  else String.append a (String.append "/" b).

(** [os.walk(top)], top down: [(dirpath, filenames)] of every directory. *)
Fixpoint walk (dirpath : string) (t : tree)
  : list (string * list (string * list string)) :=
  match t with
  | Dir files subdirs =>
      (dirpath, files)
      :: flat_map (fun sub => walk (join dirpath (fst sub)) (snd sub)) subdirs
  end.

Definition skip_names : list string :=
  ["/.git"; "/node_modules"; "/venv"; "/__pycache__"].

(** [any(skip in dirpath for skip in [...])] of line 70 *)
Definition skipped (dirpath : string) : bool :=
  existsb (fun skip => Str.contains skip dirpath) skip_names.

(** [fn.endswith((".py", ".ts", ".js", ".tsx", ".jsx"))] *)
Definition supported (fn : string) : bool :=
  existsb (fun e => Str.endswith e fn) [".py"; ".ts"; ".js"; ".tsx"; ".jsx"].

(** The files that reach [scan_file], as [(p, lines)], in order
    (lines 68 to 74). *)
Definition scanned_files (root : string) (t : tree) : list (string * list string) :=
  flat_map (fun '(dirpath, filenames) =>
              if skipped dirpath then []
              else flat_map (fun '(fn, lines) =>
                               if supported fn then [(join dirpath fn, lines)] else [])
                            filenames)
           (walk root t).

Definition occurrence : Type := string * nat * nat.
Definition key : Type := string * string.
Definition table : Type := list (key * list occurrence).

(** Lines 75 to 77 *)
Definition record_found (candidates : table) (r : found) : table :=
  let '(name, h, start, end_, path) := r in
  Py.dict_append (name, h) (path, start, end_) candidates.

(** Every block found in the tree, in discovery order. *)
Definition all_found (root : string) (t : tree) : list found :=
  flat_map (fun '(p, lines) => scan_file p lines) (scanned_files root t).

(** [candidates] after the walk (lines 67 to 77). *)
Definition collect (root : string) (t : tree) : table :=
  fold_left record_found (all_found root t) [].

(** What [main] prints, one constructor per [print] call. *)
Inductive line : Type :=
  | DuplicateCandidate (name h : string)
  | FoundAt (path : string) (start end_ : nat)
  | Blank
  | NoDuplicates
  | FoundCount (dup_count : nat).

Definition render (l : line) : string :=
  match l with
  | DuplicateCandidate name h =>
      Str.concat ["Duplicate candidate: "; name; " (hash "; h; ") found in:"]
  | FoundAt path start end_ =>
      String.append "  - " (format_occurrence path start end_)
  | Blank => ""
  | NoDuplicates => "No obvious duplicates found by conservative scan."
  | FoundCount n =>
      Str.concat ["Found "; Str.of_nat n;
                  " candidate duplicated functions. Review manually before merging."]
  end.

(** One iteration of the printing loop (lines 80 to 86). *)
Definition report (st : nat * list line) (g : key * list occurrence)
  : nat * list line :=
  let '(dup_count, out) := st in
  let '((name, h), occurrences) := g in
  if (1 <? length occurrences)%nat then
    (dup_count + 1,
     out ++ [DuplicateCandidate name h]
         ++ map (fun '(path, start, end_) => FoundAt path start end_) occurrences
         ++ [Blank])
  else st.

(** Lines 79 to 90, on the table the walk built. *)
Definition print_duplicates (candidates : table) : nat * list line :=
  let '(dup_count, out) := fold_left report candidates (0, []) in
  (dup_count,
   out ++ [if (dup_count =? 0)%nat then NoDuplicates else FoundCount dup_count]).

(** [main()]: what is printed and the returned value. *)
Definition main (root : string) (t : tree) : list line * Py.value :=
  (snd (print_duplicates (collect root t)), Py.PyNone).

(** The exit status of [python3 dedupe.py]: the last statement of the script
    is the call [main()], whose value is dropped. *)
Definition script_exit_status (root : string) (t : tree) : nat :=
  let _ := main root t in Py.ran_to_end.

End Dedupe.

(** ** [auto_consolidate.py]: reading the output of the scan *)

Module Consolidate.

(** What a sequence of [print] calls writes to standard output. *)
Definition stdout_text (out : list string) : string :=
  Str.concat (map (fun l => String.append l nl) out).

(** The inner loop of [parse_dedupe_output] (lines 41 to 43): the lines
    that follow a header and start, once stripped, with a dash. *)
Fixpoint files_after (rest : list string) : list string :=
  match rest with
  | [] => []
  | l :: rest' =>
      if Str.startswith "-" (Str.strip l) then l :: files_after rest' else []
  end.

(** Line 42: [lines[i].strip().lstrip('- ').strip()] *)
Definition occurrence_text (l : string) : string :=
  Str.strip (Str.lstrip_chars "- " (Str.strip l)).

(** Lines 37 and 38 *)
Definition function_name (l : string) : string :=
  match Str.split_once ":" l with
  | _ :: after :: _ => Str.strip (hd EmptyString (Planner.split "(" after))
  | _ => "unknown"
  end.

(** The outer loop (lines 34 to 46) on the lines from index [i] on.  Every
    iteration advances [i], so as many iterations as there are lines are
    enough. *)
Fixpoint parse_lines (fuel : nat) (lines : list string) : list Planner.candidate :=
  match fuel, lines with
  | S fuel', line :: rest =>
      let l := Str.strip line in
      if Str.startswith "Duplicate candidate:" l then
        let files := files_after rest in
        Planner.Candidate (function_name l) (map occurrence_text files)
        :: parse_lines fuel' (skipn (length files) rest)
      else parse_lines fuel' rest
  | _, _ => []
  end.

(** [parse_dedupe_output(text)] *)
Definition parse_dedupe_output (text : string) : list Planner.candidate :=
  let lines := Str.splitlines text in
  parse_lines (length lines) lines.

(** [run_dedupe()]: the text that [dedupe.py] writes when it scans [t]. *)
Definition run_dedupe (root : string) (t : Dedupe.tree) : string :=
  stdout_text (map Dedupe.render (fst (Dedupe.main root t))).

(** [main()]: the records written to the report and the stubs created in the
    staging directory [dir]. *)
Definition main (root : string) (t : Dedupe.tree) (dir : Stubs.directory)
  : list Planner.candidate * (Stubs.directory * list string) :=
  let text := run_dedupe root t in
  let candidates := parse_dedupe_output text in
  (candidates, Stubs.create_stubs candidates dir).

End Consolidate.
(** * Properties

    ** Executions on concrete inputs *)

Example parse_occurrence_ex1 :
  parse_occurrence "/path/file.ts:10-20" = Some ("/path/file.ts", 10, 20).
Proof. vm_compute. reflexivity. Qed.

Example parse_occurrence_ex2 :
  parse_occurrence "a:1-2:30-4x" = Some ("a:1-2", 30, 4).
Proof. vm_compute. reflexivity. Qed.

Example parse_occurrence_ex3 : parse_occurrence ":1-2" = None.
Proof. vm_compute. reflexivity. Qed.

Example format_occurrence_ex : format_occurrence "a.py" 1 5 = "a.py:1-5".
Proof. vm_compute. reflexivity. Qed.

(** The digests of the empty message, of "abc" and of the two-block message
    of FIPS 180-4. *)
Example sha256_empty :
  Sha256.hexdigest [] =
  "e3b0c44298fc1c149afbf4c8996fb92427ae41e4649b934ca495991b7852b855".
Proof. vm_compute. reflexivity. Qed.

Example sha256_abc :
  Sha256.hexdigest (encode_utf8 "abc") =
  "ba7816bf8f01cfea414140de5dae2223b00361a396177a9cb410ff61f20015ad".
Proof. vm_compute. reflexivity. Qed.

Example sha256_two_blocks :
  Sha256.hexdigest
    (encode_utf8 "abcdbcdecdefdefgefghfghighijhijkijkljklmklmnlmnomnopnopq") =
  "248d6a61d20638b8e5c026930c3e6039a33ce45964ff2167f6ecedd419db06c1".
Proof. vm_compute. reflexivity. Qed.

(** The constant tables have the sizes and the end points of the standard. *)
Example sha256_constants :
  length Sha256.K = 64%nat /\ length Sha256.H0 = 8%nat
  /\ hd 0%N Sha256.K = 0x428a2f98%N /\ List.last Sha256.K 0%N = 0xc67178f2%N
  /\ hd 0%N Sha256.H0 = 0x6a09e667%N /\ List.last Sha256.H0 0%N = 0x5be0cd19%N.
Proof. vm_compute. repeat split. Qed.

(** ** Stub identifiers *)

Lemma safe_char_safe ch : Stubs.safe (Stubs.safe_char ch) = true.
Proof.
  unfold Stubs.safe_char, Stubs.safe.
  destruct (Chars.isalnum ch || Ascii.eqb ch "_") eqn:E; [exact E|].
  reflexivity.
Qed.

Lemma map_safe_char_safe name :
  Str.forallb Stubs.safe (Stubs.map_chars Stubs.safe_char name) = true.
Proof.
  induction name as [|ch name IH]; [reflexivity|].
  cbn [Stubs.map_chars Str.forallb].
  rewrite safe_char_safe. exact IH.
Qed.

Lemma map_chars_length f s :
  String.length (Stubs.map_chars f s) = String.length s.
Proof. induction s as [|c s IH]; simpl; congruence. Qed.

Lemma safe_name_unfold name :
  Stubs.safe_name name =
  if String.eqb name "" then "fn" else Stubs.map_chars Stubs.safe_char name.
Proof. destruct name; reflexivity. Qed.

(** C5, as stated, fails: keeping only the alphanumeric characters and the
    underscores of ["+++"] leaves nothing, yet the identifier of the stub is
    ["___"], not the placeholder. *)
Lemma symbols_do_not_reach_placeholder :
  Stubs.keep_safe_chars "+++" = ""
  /\ Stubs.safe_name "+++" = "___"
  /\ Stubs.safe_name "+++" <> "fn".
Proof. repeat split; vm_compute; congruence. Qed.

(** C5, amended: every character of the declared name that is neither
    alphanumeric nor an underscore is replaced by an underscore, and the
    placeholder [fn] is used exactly for the empty name; so every stub
    identifier is non-empty, made of alphanumeric characters and underscores
    only, and as long as a non-empty name. *)
Theorem safe_name_replaces_and_is_safe (name : string) :
  Stubs.safe_name name =
    (if String.eqb name "" then "fn" else Stubs.map_chars Stubs.safe_char name)
  /\ Stubs.safe_name name <> ""
  /\ Str.forallb Stubs.safe (Stubs.safe_name name) = true
  /\ (Stubs.safe_name name = "fn" \/
      String.length (Stubs.safe_name name) = String.length name).
Proof.
  split; [apply safe_name_unfold|].
  destruct name as [|ch name].
  - repeat split; try (vm_compute; congruence). left; reflexivity.
  - change (Stubs.safe_name (String ch name))
      with (Stubs.map_chars Stubs.safe_char (String ch name)).
    repeat split.
    + cbn [Stubs.map_chars]; congruence.
    + apply map_safe_char_safe.
    + right. apply map_chars_length.
Qed.

(** ** Exit status of the scan *)

(** C4, as stated, fails: two files with the same function make a duplicate
    group, it is printed, and the exit status is still 0. *)
Lemma scan_with_duplicates_exits_zero :
  let t := Dedupe.Dir [("a.py", ["def helper(): return 1"]);
                       ("b.py", ["def helper(): return 1"])] [] in
  (exists g, In g (Dedupe.collect "/repo" t) /\ 2 <= length (snd g))
  /\ In (Dedupe.FoundCount 1) (fst (Dedupe.main "/repo" t))
  /\ Dedupe.script_exit_status "/repo" t = 0.
Proof.
  cbv zeta. split; [|split].
  - eexists. split; [vm_compute; left; reflexivity|]. simpl. lia.
  - vm_compute. tauto.
  - reflexivity.
Qed.

(** C4, amended: the scan returns nothing and the script never calls
    [exit], so the exit status of a scan that runs to its end is 0 whether or
    not duplicate groups were found. *)
Theorem scan_exit_status_zero (root : string) (t : Dedupe.tree) :
  snd (Dedupe.main root t) = Py.PyNone
  /\ Dedupe.script_exit_status root t = 0.
Proof. split; reflexivity. Qed.

(** ** The planner: a canonical occurrence that does not parse *)

Section PlannerLoop.

Import Planner.

(** Nothing that was printed is lost by a later iteration. *)
Lemma step_keeps_output st c l :
  In l (snd st) -> In l (snd (step st c)).
Proof.
  destruct st as [pl out]. unfold step. simpl. intros Hin.
  destruct (length (occurrences c) <? 2)%nat; [exact Hin|].
  destruct (determine_canonical_path (occurrences c)) as [canonical|];
    [|exact Hin].
  destruct (parse_occurrence canonical) as [[[fp s] e]|]; simpl.
  - exact Hin.
  - apply in_or_app. left. exact Hin.
Qed.

Lemma loop_keeps_output cs st l :
  In l (snd st) -> In l (snd (fold_left step cs st)).
Proof.
  revert st. induction cs as [|c cs IH]; intros st Hin; simpl; [exact Hin|].
  apply IH. apply step_keeps_output. exact Hin.
Qed.

(** The iteration on a record whose canonical occurrence does not parse
    prints the warning. *)
Lemma step_warns st c canonical :
  2 <= length (occurrences c) ->
  determine_canonical_path (occurrences c) = Some canonical ->
  parse_occurrence canonical = None ->
  step st c = (fst st, snd st ++ [Warning canonical]).
Proof.
  intros Hlen Hcan Hparse. destruct st as [pl out]. unfold step.
  destruct (Nat.ltb_spec (length (occurrences c)) 2) as [Hlt|_]; [lia|].
  rewrite Hcan, Hparse. reflexivity.
Qed.

Lemma loop_warns cs st c canonical :
  In c cs ->
  2 <= length (occurrences c) ->
  determine_canonical_path (occurrences c) = Some canonical ->
  parse_occurrence canonical = None ->
  In (Warning canonical) (snd (fold_left step cs st)).
Proof.
  revert st. induction cs as [|c' cs IH]; intros st Hin Hlen Hcan Hparse;
    simpl in *; [contradiction|].
  destruct Hin as [->|Hin].
  - apply loop_keeps_output.
    rewrite (step_warns st c canonical Hlen Hcan Hparse). simpl.
    apply in_or_app. right. left. reflexivity.
  - apply IH; assumption.
Qed.

(** Every entry of the plan has a canonical occurrence that parses. *)
Definition parsed_plan (pl : plan) : Prop :=
  forall pkg es e, In (pkg, es) pl -> In e es ->
                   parse_occurrence (e_canonical e) <> None.

Lemma dict_append_parsed pkg e (pl : plan) :
  parsed_plan pl ->
  parse_occurrence (e_canonical e) <> None ->
  parsed_plan (Py.dict_append pkg e pl).
Proof.
  intros Hpl He. induction pl as [|[k vs] pl IH]; simpl.
  - intros pkg' es e' [Heq|[]] Hin. inversion Heq; subst.
    destruct Hin as [->|[]]. exact He.
  - destruct (decide (k = pkg)) as [->|Hne].
    + intros pkg' es e' [Heq|Hin'] Hin.
      * inversion Heq; subst. apply in_app_or in Hin as [Hin|[->|[]]].
        -- eapply Hpl; [left; reflexivity|exact Hin].
        -- exact He.
      * eapply Hpl; [right; exact Hin'|exact Hin].
    + intros pkg' es e' [Heq|Hin'] Hin.
      * inversion Heq; subst. eapply Hpl; [left; reflexivity|exact Hin].
      * eapply IH; [|exact Hin'|exact Hin].
        intros p1 es1 e1 H1 H2. eapply Hpl; [right; exact H1|exact H2].
Qed.

Lemma step_parsed st c : parsed_plan (fst st) -> parsed_plan (fst (step st c)).
Proof.
  destruct st as [pl out]. unfold step. simpl. intros Hpl.
  destruct (length (occurrences c) <? 2)%nat; [exact Hpl|].
  destruct (determine_canonical_path (occurrences c)) as [canonical|];
    [|exact Hpl].
  destruct (parse_occurrence canonical) as [[[fp s] e]|] eqn:Hparse; simpl.
  - apply dict_append_parsed; [exact Hpl|]. simpl. rewrite Hparse. discriminate.
  - exact Hpl.
Qed.

Lemma loop_parsed cs st :
  parsed_plan (fst st) -> parsed_plan (fst (fold_left step cs st)).
Proof.
  revert st. induction cs as [|c cs IH]; intros st H; simpl; [exact H|].
  apply IH. apply step_parsed. exact H.
Qed.

Lemma main_unfold report_path candidates :
  let st := fold_left step candidates
              ([], [Reading report_path; FoundGroups (length candidates)]) in
  main report_path candidates =
    (fst st,
     snd st ++ [PlanTitle] ++ print_plan (fst st)
         ++ [Complete (list_sum (map (fun '(_, v) => length v) (fst st)));
             CreatesPlan; ManualRecommended],
     Py.PyInt 0).
Proof.
  cbv zeta. unfold main.
  destruct (fold_left step candidates _) as [pl out]. reflexivity.
Qed.

End PlannerLoop.

(** C9, as stated, fails: the canonical occurrence of the record is ["bad"],
    which does not parse; the warning is printed and the record is left out
    of the plan, but the exit status is 0. *)
Lemma malformed_canonical_exits_zero :
  let report := [Planner.Candidate "g" ["bad"; "x/y.ts:1-2"]] in
  Planner.determine_canonical_path ["bad"; "x/y.ts:1-2"] = Some "bad"
  /\ parse_occurrence "bad" = None
  /\ In (Planner.Warning "bad") (snd (fst (Planner.main "report.json" report)))
  /\ fst (fst (Planner.main "report.json" report)) = []
  /\ Planner.script_exit_status "report.json" report = 0.
Proof. cbv zeta. repeat split; vm_compute; tauto. Qed.

(** C9, amended: for every report and every record of it with at least two
    occurrences whose canonical occurrence does not match the pattern, the
    Planner prints the warning that names that occurrence string, puts no
    entry with an unparsed canonical occurrence in the plan, and the run
    still ends with exit status 0. *)
Theorem malformed_canonical_warned_and_skipped
    (report_path : string) (candidates : list Planner.candidate)
    (c : Planner.candidate) (canonical : string) :
  In c candidates ->
  2 <= length (Planner.occurrences c) ->
  Planner.determine_canonical_path (Planner.occurrences c) = Some canonical ->
  parse_occurrence canonical = None ->
  In (Planner.Warning canonical) (snd (fst (Planner.main report_path candidates)))
  /\ Planner.render (Planner.Warning canonical)
     = String.append "Warning: Could not parse occurrence " canonical
  /\ (forall pkg es e,
         In (pkg, es) (fst (fst (Planner.main report_path candidates))) ->
         In e es -> parse_occurrence (Planner.e_canonical e) <> None)
  /\ Planner.script_exit_status report_path candidates = 0.
Proof.
  intros Hin Hlen Hcan Hparse.
  pose proof (main_unfold report_path candidates) as Hmain. cbv zeta in Hmain.
  unfold Planner.script_exit_status. rewrite Hmain. simpl fst. simpl snd.
  repeat split.
  - apply in_or_app. left. eapply loop_warns; eassumption.
  - apply loop_parsed. intros pkg es e [].
Qed.

Lemma malformed_canonical_warned_and_skipped_witness :
  In (Planner.Warning "bad")
     (snd (fst (Planner.main "report.json"
                  [Planner.Candidate "g" ["bad"; "x/y.ts:1-2"]])))
  /\ Planner.script_exit_status "report.json"
       [Planner.Candidate "g" ["bad"; "x/y.ts:1-2"]] = 0.
Proof.
  pose proof (malformed_canonical_warned_and_skipped "report.json"
                [Planner.Candidate "g" ["bad"; "x/y.ts:1-2"]]
                (Planner.Candidate "g" ["bad"; "x/y.ts:1-2"]) "bad") as H.
  destruct H as (Hw & _ & _ & He).
  - left; reflexivity.
  - simpl; lia.
  - vm_compute; reflexivity.
  - vm_compute; reflexivity.
  - split; [exact Hw|exact He].
Defined.

(** ** The planner: the canonical occurrence *)

Section SortedByKeyProps.

Context {A : Type} (key : A -> nat).

Local Abbreviation by_key := (fun a b : A => key a <= key b).

Lemma insert_by_perm x l : Permutation (x :: l) (Py.insert_by key x l).
Proof.
  induction l as [|y l IH]; simpl; [reflexivity|].
  destruct (key x <=? key y)%nat; [reflexivity|].
  rewrite perm_swap. apply perm_skip. exact IH.
Qed.

Lemma sorted_perm l : Permutation l (Py.sorted key l).
Proof.
  induction l as [|x l IH]; simpl; [constructor|].
  rewrite <- insert_by_perm. apply perm_skip. exact IH.
Qed.

Lemma insert_by_sorted x l :
  StronglySorted by_key l -> StronglySorted by_key (Py.insert_by key x l).
Proof.
  induction 1 as [|y l Hs IH Hall]; simpl.
  - constructor; constructor.
  - destruct (Nat.leb_spec (key x) (key y)) as [Hle|Hlt].
    + constructor; [constructor; assumption|].
      constructor; [exact Hle|].
      eapply List.Forall_impl; [|exact Hall]. simpl. intros; lia.
    + constructor; [exact IH|].
      apply (Permutation_Forall (insert_by_perm x l)).
      constructor; [lia|exact Hall].
Qed.

Lemma sorted_sorted l : StronglySorted by_key (Py.sorted key l).
Proof.
  induction l as [|x l IH]; simpl; [constructor|].
  apply insert_by_sorted. exact IH.
Qed.

(** Stability: elements with the same key keep their order. *)
Lemma insert_by_stable n x l :
  List.filter (fun a => key a =? n)%nat (Py.insert_by key x l)
  = List.filter (fun a => key a =? n)%nat (x :: l).
Proof.
  induction l as [|y l IH]; [reflexivity|].
  cbn [Py.insert_by].
  destruct (Nat.leb_spec (key x) (key y)) as [Hle|Hlt]; [reflexivity|].
  cbn [List.filter] in *. rewrite IH.
  destruct (Nat.eqb_spec (key y) n) as [Hy|Hy];
    destruct (Nat.eqb_spec (key x) n) as [Hx|Hx]; try reflexivity.
  lia.
Qed.

Lemma sorted_stable n l :
  List.filter (fun a => key a =? n)%nat (Py.sorted key l)
  = List.filter (fun a => key a =? n)%nat l.
Proof.
  induction l as [|x l IH]; [reflexivity|].
  cbn [Py.sorted fold_right]. fold (Py.sorted key l).
  rewrite insert_by_stable. cbn [List.filter]. rewrite IH. reflexivity.
Qed.

Lemma hd_insert_by x l :
  hd_error (Py.insert_by key x l) =
  match hd_error l with
  | None => Some x
  | Some y => if (key x <=? key y)%nat then Some x else Some y
  end.
Proof.
  destruct l as [|y l]; simpl; [reflexivity|].
  destruct (key x <=? key y)%nat; reflexivity.
Qed.

(** The head of the sorted list is the first element, in the original
    order, whose key is minimal. *)
Lemma hd_sorted_first_min l c :
  hd_error (Py.sorted key l) = Some c ->
  exists before after,
    l = before ++ c :: after
    /\ Forall (fun o => key c < key o) before
    /\ Forall (fun o => key c <= key o) after.
Proof.
  revert c. induction l as [|x l IH]; intros c; [discriminate|].
  cbn [Py.sorted fold_right]. fold (Py.sorted key l).
  rewrite hd_insert_by.
  destruct (hd_error (Py.sorted key l)) as [y|] eqn:Hhd.
  - destruct (IH y eq_refl) as (b & a & Hl & Hb & Ha).
    destruct (Nat.leb_spec (key x) (key y)) as [Hle|Hlt]; intros [= <-].
    + exists [], l. split; [reflexivity|]. split; [constructor|].
      rewrite Hl. apply Forall_app. split.
      * eapply List.Forall_impl; [|exact Hb]. simpl; intros; lia.
      * constructor; [exact Hle|].
        eapply List.Forall_impl; [|exact Ha]. simpl; intros; lia.
    + exists (x :: b), a. split; [rewrite Hl; reflexivity|].
      split; [constructor; assumption|exact Ha].
  - intros [= <-]. destruct l as [|z l].
    + exists [], []. repeat split; constructor.
    + exfalso. cbn [Py.sorted fold_right] in Hhd.
      fold (Py.sorted key l) in Hhd. rewrite hd_insert_by in Hhd.
      destruct (hd_error (Py.sorted key l)) as [w|]; [|discriminate].
      destruct (key z <=? key w)%nat; discriminate.
Qed.

Lemma hd_sorted_some x l : exists c, hd_error (Py.sorted key (x :: l)) = Some c.
Proof.
  cbn [Py.sorted fold_right]. fold (Py.sorted key l). rewrite hd_insert_by.
  destruct (hd_error (Py.sorted key l)) as [y|]; [|eauto].
  destruct (key x <=? key y)%nat; eauto.
Qed.

End SortedByKeyProps.

(** C3: for a record with at least two occurrences, the canonical occurrence
    is the first element of the occurrences sorted by their number of ['/'],
    ascending; that sort is a stable sort (a sorted permutation in which
    occurrences with the same count keep their order), so the canonical
    occurrence is the first occurrence, in discovery order, whose count is
    the smallest. *)
Theorem canonical_is_first_shallowest (occs : list string) :
  2 <= length occs ->
  exists c,
    Planner.determine_canonical_path occs = Some c
    /\ hd_error (Py.sorted (Str.count "/") occs) = Some c
    /\ Permutation occs (Py.sorted (Str.count "/") occs)
    /\ StronglySorted (fun a b => Str.count "/" a <= Str.count "/" b)
                      (Py.sorted (Str.count "/") occs)
    /\ (forall n,
           List.filter (fun o => Str.count "/" o =? n)%nat
                       (Py.sorted (Str.count "/") occs)
           = List.filter (fun o => Str.count "/" o =? n)%nat occs)
    /\ exists before after,
         occs = before ++ c :: after
         /\ Forall (fun o => Str.count "/" c < Str.count "/" o) before
         /\ Forall (fun o => Str.count "/" c <= Str.count "/" o) after.
Proof.
  intros Hlen. destruct occs as [|x occs]; [simpl in Hlen; lia|].
  destruct (hd_sorted_some (Str.count "/") x occs) as [c Hc].
  exists c. unfold Planner.determine_canonical_path.
  split; [exact Hc|]. split; [exact Hc|].
  split; [apply sorted_perm|]. split; [apply sorted_sorted|].
  split; [intros n; apply sorted_stable|].
  apply hd_sorted_first_min. exact Hc.
Qed.

Lemma canonical_is_first_shallowest_witness :
  exists c,
    Planner.determine_canonical_path
      ["apps/x/a.py:1-5"; "packages/y/a.py:1-5"; "a.py:1-5"] = Some c
    /\ c = "a.py:1-5".
Proof.
  destruct (canonical_is_first_shallowest
              ["apps/x/a.py:1-5"; "packages/y/a.py:1-5"; "a.py:1-5"])
    as (c & Hc & _).
  - simpl; lia.
  - exists c. split; [exact Hc|].
    vm_compute in Hc. injection Hc as <-. reflexivity.
Defined.

(** The example of the specification, and two ties. *)
Example canonical_example :
  Planner.determine_canonical_path
    ["apps/x/a.py:1-5"; "packages/y/a.py:1-5"; "a.py:1-5"] = Some "a.py:1-5".
Proof. vm_compute. reflexivity. Qed.

Example canonical_tie_keeps_discovery_order :
  Planner.determine_canonical_path ["b/x.py:1-2"; "a/x.py:1-2"] = Some "b/x.py:1-2"
  /\ Py.sorted (Str.count "/") ["a/b/c"; "x/y"; "q"; "z/w"; "r"; "d/e/f"]
     = ["q"; "r"; "x/y"; "z/w"; "a/b/c"; "d/e/f"].
Proof. split; vm_compute; reflexivity. Qed.

(** ** The stub generator: existing stubs are kept *)

Section StubRuns.

Import Stubs.

Implicit Types (dir : gmap string string) (c : Planner.candidate).

Lemma create_stub_dir dir created c :
  fst (create_stub (dir, created) c) =
  match dir !! stub_file (Planner.function c) with
  | Some _ => dir
  | None => <[stub_file (Planner.function c) :=
                stub_text (Planner.function c) (Planner.occurrences c)]> dir
  end.
Proof.
  unfold create_stub.
  destruct (dir !! stub_file (Planner.function c)); reflexivity.
Qed.

(** One iteration never changes a file that is there. *)
Lemma create_stub_keeps st c f text :
  fst st !! f = Some text -> fst (create_stub st c) !! f = Some text.
Proof.
  destruct st as [dir created]. rewrite create_stub_dir. simpl.
  intros Hf.
  destruct (dir !! stub_file (Planner.function c)) eqn:Hs; [exact Hf|].
  rewrite lookup_insert_ne; [exact Hf|]. congruence.
Qed.

Lemma loop_keeps cs st f text :
  fst st !! f = Some text ->
  fst (fold_left create_stub cs st) !! f = Some text.
Proof.
  revert st. induction cs as [|c cs IH]; intros st Hf; simpl; [exact Hf|].
  apply IH. apply create_stub_keeps. exact Hf.
Qed.

(** After one iteration the stub of the record exists. *)
Lemma create_stub_exists st c :
  is_Some (fst (create_stub st c) !! stub_file (Planner.function c)).
Proof.
  destruct st as [dir created]. rewrite create_stub_dir.
  destruct (dir !! stub_file (Planner.function c)) eqn:Hs.
  - rewrite Hs. eauto.
  - rewrite lookup_insert_eq. eauto.
Qed.

Lemma loop_exists cs st c :
  In c cs ->
  is_Some (fst (fold_left create_stub cs st) !! stub_file (Planner.function c)).
Proof.
  revert st. induction cs as [|c' cs IH]; intros st Hin; simpl in *;
    [contradiction|].
  destruct Hin as [->|Hin]; [|apply IH; exact Hin].
  destruct (create_stub_exists st c) as [text Ht].
  exists text. apply loop_keeps. exact Ht.
Qed.

(** The files of the directory after a run: those that were there and one
    per sanitized identifier of the records. *)
Lemma loop_dom cs st :
  dom (fst (fold_left create_stub cs st))
  = dom (fst st)
    ∪ list_to_set (map (fun c => stub_file (Planner.function c)) cs).
Proof.
  revert st. induction cs as [|c cs IH]; intros st; simpl.
  - set_solver.
  - rewrite IH. destruct st as [dir created]. rewrite create_stub_dir. simpl.
    destruct (dir !! stub_file (Planner.function c)) eqn:Hs.
    + assert (stub_file (Planner.function c) ∈ dom dir)
        by (apply elem_of_dom; eauto).
      set_solver.
    + rewrite dom_insert_L. set_solver.
Qed.

(** A run in which every record has its stub already changes nothing and
    reports nothing. *)
Lemma loop_noop cs st :
  (forall c, In c cs -> is_Some (fst st !! stub_file (Planner.function c))) ->
  fold_left create_stub cs st = st.
Proof.
  revert st. induction cs as [|c cs IH]; intros st Hall; simpl; [reflexivity|].
  assert (create_stub st c = st) as ->.
  { destruct st as [dir created]. unfold create_stub.
    destruct (Hall c (or_introl eq_refl)) as [text Ht]. simpl in Ht.
    rewrite Ht. reflexivity. }
  apply IH. intros c' Hin. apply Hall. right. exact Hin.
Qed.

(** The names reported as created are new, distinct, and each of them is
    the stub of a record. *)
Lemma loop_created cs st :
  NoDup (snd st) ->
  (forall f, In f (snd st) -> is_Some (fst st !! f)) ->
  NoDup (snd (fold_left create_stub cs st))
  /\ (forall f, In f (snd (fold_left create_stub cs st)) ->
                is_Some (fst (fold_left create_stub cs st) !! f)).
Proof.
  revert st. induction cs as [|c cs IH]; intros st Hnd Hin; simpl;
    [split; assumption|].
  apply IH.
  - destruct st as [dir created]. unfold create_stub. simpl in *.
    destruct (dir !! stub_file (Planner.function c)) eqn:Hs; simpl;
      [exact Hnd|].
    apply NoDup_app. split; [exact Hnd|]. split; [|apply NoDup_singleton].
    intros f Hf Hf'. apply list_elem_of_In in Hf.
    apply list_elem_of_In in Hf'. destruct Hf' as [<-|[]].
    destruct (Hin _ Hf) as [t Ht]. congruence.
  - intros f Hf. destruct st as [dir created]. unfold create_stub in *.
    simpl in *.
    destruct (dir !! stub_file (Planner.function c)) eqn:Hs; simpl in *.
    + apply Hin. exact Hf.
    + apply in_app_or in Hf as [Hf|[<-|[]]].
      * destruct (Hin _ Hf) as [t Ht]. exists t.
        rewrite lookup_insert_ne; [exact Ht|]. congruence.
      * rewrite lookup_insert_eq. eauto.
Qed.

End StubRuns.

(** C7: a stub file that exists before a run of the generator has the same
    content after it, whatever the records are; after a run the directory
    holds the files it held and exactly one file per sanitized identifier of
    the records; every file name reported as created is reported once; and a
    second run on records with the same declared names, whatever their
    occurrence lists have become, creates nothing and leaves every file as
    the first run left it. *)
Theorem create_stubs_idempotent
    (candidates candidates' : list Planner.candidate) (dir : gmap string string) :
  map Planner.function candidates' = map Planner.function candidates ->
  let first := Stubs.create_stubs candidates dir in
  let second := Stubs.create_stubs candidates' (fst first) in
  (forall f text, dir !! f = Some text -> fst first !! f = Some text)
  /\ dom (fst first)
     = dom dir ∪ list_to_set
                   (map (fun c => Stubs.stub_file (Planner.function c)) candidates)
  /\ NoDup (snd first)
  /\ second = (fst first, []).
Proof.
  intros Hnames. cbv zeta. unfold Stubs.create_stubs. repeat split.
  - intros f text Hf. apply loop_keeps. exact Hf.
  - apply (loop_dom candidates (dir, [])).
  - apply (loop_created candidates (dir, [])); [constructor|].
    intros f [].
  - apply loop_noop. intros c' Hin. simpl.
    assert (In (Planner.function c') (map Planner.function candidates)) as Hc.
    { rewrite <- Hnames. apply in_map. exact Hin. }
    apply in_map_iff in Hc as (c & Hfn & Hc). rewrite <- Hfn.
    apply loop_exists. exact Hc.
Qed.

Lemma create_stubs_idempotent_witness :
  let cs := [Planner.Candidate "helper" ["a.py:1-2"; "b.py:1-2"]] in
  let cs' := [Planner.Candidate "helper" ["a.py:1-2"; "b.py:1-2"; "c.py:4-5"]] in
  Stubs.create_stubs cs' (fst (Stubs.create_stubs cs {["helper.py" := "edited"]}))
  = (fst (Stubs.create_stubs cs {["helper.py" := "edited"]}), [])
  /\ fst (Stubs.create_stubs cs {["helper.py" := "edited"]}) !! "helper.py"
     = Some "edited".
Proof.
  cbv zeta.
  destruct (create_stubs_idempotent
              [Planner.Candidate "helper" ["a.py:1-2"; "b.py:1-2"]]
              [Planner.Candidate "helper" ["a.py:1-2"; "b.py:1-2"; "c.py:4-5"]]
              {["helper.py" := "edited"]} eq_refl) as (Hkeep & _ & _ & Hsecond).
  split; [exact Hsecond|].
  apply Hkeep. apply lookup_singleton_eq.
Defined.

(** Two runs from an empty directory: one stub per identifier, and the
    second record with the same identifier does not overwrite the first. *)
Example create_stubs_two_records_one_identifier :
  let cs := [Planner.Candidate "a+b" ["x.py:1-2"]; Planner.Candidate "a-b" ["y.py:3-4"]] in
  snd (Stubs.create_stubs cs ∅) = ["a_b.py"]
  /\ fst (Stubs.create_stubs cs ∅) !! "a_b.py"
     = Some (Stubs.stub_text "a+b" ["x.py:1-2"]).
Proof. cbv zeta. split; vm_compute; reflexivity. Qed.

(** ** The table of candidates and what the scan prints *)

Section DictProps.

Context {K V : Type} `{EqDecision K}.

Implicit Types (d : list (K * list V)) (k : K) (v : V).

Lemma dict_get_append k' k v d :
  Py.dict_get k' (Py.dict_append k v d) =
  if decide (k' = k)
  then Some (match Py.dict_get k d with Some vs => vs ++ [v] | None => [v] end)
  else Py.dict_get k' d.
Proof.
  induction d as [|[k0 vs] d IH]; cbn [Py.dict_append Py.dict_get].
  - destruct (decide (k = k')) as [->|Hne].
    + rewrite decide_True by reflexivity. reflexivity.
    + rewrite decide_False by congruence. reflexivity.
  - destruct (decide (k0 = k)) as [->|Hne]; cbn [Py.dict_get].
    + destruct (decide (k = k')) as [->|Hne'].
      * rewrite decide_True by reflexivity. reflexivity.
      * rewrite decide_False by congruence. reflexivity.
    + rewrite IH. destruct (decide (k0 = k')) as [->|Hne'].
      * rewrite decide_False by congruence. reflexivity.
      * reflexivity.
Qed.

Lemma dict_append_keys k v d :
  map fst (Py.dict_append k v d) =
  match Py.dict_get k d with
  | Some _ => map fst d
  | None => map fst d ++ [k]
  end.
Proof.
  induction d as [|[k0 vs] d IH]; cbn [Py.dict_append Py.dict_get]; [reflexivity|].
  destruct (decide (k0 = k)) as [->|Hne]; [reflexivity|].
  cbn [map fst]. rewrite IH. destruct (Py.dict_get k d); reflexivity.
Qed.

Lemma dict_get_None k d : Py.dict_get k d = None -> ~ In k (map fst d).
Proof.
  induction d as [|[k0 vs] d IH]; cbn [Py.dict_get map fst]; [tauto|].
  destruct (decide (k0 = k)); [discriminate|]. intros Hd [Heq|Hin]; tauto.
Qed.

(** A key occurs once in the table. *)
Lemma dict_append_nodup k v d :
  List.NoDup (map fst d) -> List.NoDup (map fst (Py.dict_append k v d)).
Proof.
  intros Hnd. rewrite dict_append_keys.
  destruct (Py.dict_get k d) eqn:Hget; [exact Hnd|].
  apply NoDup_ListNoDup. apply NoDup_app. split; [apply NoDup_ListNoDup; exact Hnd|].
  split; [|apply NoDup_singleton].
  intros x Hx Hx'. apply list_elem_of_In in Hx, Hx'.
  destruct Hx' as [<-|[]]. exact (dict_get_None _ _ Hget Hx).
Qed.

Lemma dict_In_get k vs d :
  List.NoDup (map fst d) -> (In (k, vs) d <-> Py.dict_get k d = Some vs).
Proof.
  induction d as [|[k0 vs0] d IH]; cbn [Py.dict_get map fst]; intros Hnd.
  - split; [intros []|discriminate].
  - inversion Hnd as [|? ? Hnotin Hnd']; subst.
    destruct (decide (k0 = k)) as [->|Hne].
    + split.
      * intros [Heq|Hin]; [congruence|].
        exfalso. apply Hnotin. change k with (fst (k, vs)). apply in_map. exact Hin.
      * intros [= ->]. left. reflexivity.
    + rewrite <- (IH Hnd'). split.
      * intros [Heq|Hin]; [congruence|exact Hin].
      * intros Hin. right. exact Hin.
Qed.

(** No group of the table is empty. *)
Lemma dict_append_nonempty k v d :
  Forall (fun g => snd g <> []) d ->
  Forall (fun g => snd g <> []) (Py.dict_append k v d).
Proof.
  induction 1 as [|[k0 vs] d Hg Hd IH]; cbn [Py.dict_append].
  - constructor; [discriminate|constructor].
  - destruct (decide (k0 = k)); constructor; try assumption.
    cbn [snd]. destruct vs; discriminate.
Qed.

End DictProps.

Section ScanReport.

Import Dedupe.

Definition key_of (r : found) : key :=
  let '(name, h, _, _, _) := r in (name, h).

Definition occurrence_of (r : found) : occurrence :=
  let '(_, _, start, end_, path) := r in (path, start, end_).

(** The group with at least two occurrences, as the loop tests it. *)
Definition duplicated (g : key * list occurrence) : bool :=
  (1 <? length (snd g))%nat.

(** What the loop prints for one such group. *)
Definition group_lines (g : key * list occurrence) : list line :=
  DuplicateCandidate (fst (fst g)) (snd (fst g))
  :: map (fun '(path, start, end_) => FoundAt path start end_) (snd g) ++ [Blank].

Lemma record_found_unfold tbl r :
  record_found tbl r = Py.dict_append (key_of r) (occurrence_of r) tbl.
Proof. destruct r as [[[[name h] s] e] p]. reflexivity. Qed.

Lemma collect_keys_nodup_from rs tbl :
  List.NoDup (map fst tbl) -> List.NoDup (map fst (fold_left record_found rs tbl)).
Proof.
  revert tbl. induction rs as [|r rs IH]; intros tbl Hnd; cbn [fold_left];
    [exact Hnd|].
  apply IH. rewrite record_found_unfold. apply dict_append_nodup. exact Hnd.
Qed.

Lemma collect_keys_nodup root t : List.NoDup (map fst (collect root t)).
Proof. apply collect_keys_nodup_from. constructor. Qed.

(** The occurrences recorded under a key are those of the blocks found with
    that name and digest, in discovery order. *)
Lemma collect_get_from k rs tbl :
  Py.dict_get k (fold_left record_found rs tbl) =
  match Py.dict_get k tbl,
        map occurrence_of (List.filter (fun r => bool_decide (key_of r = k)) rs) with
  | None, [] => None
  | None, l => Some l
  | Some vs, l => Some (vs ++ l)
  end.
Proof.
  revert tbl. induction rs as [|r rs IH]; intros tbl; cbn [fold_left List.filter map].
  - destruct (Py.dict_get k tbl) as [vs|]; [rewrite app_nil_r|]; reflexivity.
  - rewrite IH, record_found_unfold, dict_get_append.
    destruct (decide (k = key_of r)) as [->|Hne].
    + rewrite bool_decide_eq_true_2 by reflexivity. cbn [map].
      destruct (Py.dict_get (key_of r) tbl) as [vs|].
      * rewrite <- app_assoc. reflexivity.
      * reflexivity.
    + rewrite bool_decide_eq_false_2 by congruence. reflexivity.
Qed.

Lemma collect_get root t k :
  Py.dict_get k (collect root t) =
  match map occurrence_of
            (List.filter (fun r => bool_decide (key_of r = k)) (all_found root t)) with
  | [] => None
  | l => Some l
  end.
Proof. unfold collect. rewrite collect_get_from. reflexivity. Qed.

Lemma report_unfold n out g :
  report (n, out) g =
  if duplicated g then (n + 1, out ++ group_lines g) else (n, out).
Proof.
  destruct g as [[name h] occs]. unfold report, duplicated, group_lines.
  cbn [fst snd]. destruct (1 <? length occs)%nat; reflexivity.
Qed.

(** The printing loop prints the groups with at least two occurrences, in
    the order of the table, and counts them. *)
Lemma report_loop tbl n out :
  fold_left report tbl (n, out) =
  (n + length (List.filter duplicated tbl),
   out ++ flat_map group_lines (List.filter duplicated tbl)).
Proof.
  revert n out. induction tbl as [|g tbl IH]; intros n out.
  - cbn [fold_left List.filter flat_map length].
    rewrite Nat.add_0_r, app_nil_r. reflexivity.
  - cbn [fold_left List.filter]. rewrite report_unfold.
    destruct (duplicated g); rewrite IH; [|reflexivity].
    cbn [flat_map length]. f_equal; [lia|].
    rewrite app_assoc. reflexivity.
Qed.

Lemma print_duplicates_unfold tbl :
  print_duplicates tbl =
  (length (List.filter duplicated tbl),
   flat_map group_lines (List.filter duplicated tbl)
   ++ [if (length (List.filter duplicated tbl) =? 0)%nat
       then NoDuplicates else FoundCount (length (List.filter duplicated tbl))]).
Proof. unfold print_duplicates. rewrite report_loop. reflexivity. Qed.

Lemma in_group_lines l g :
  In l (group_lines g) ->
  l = DuplicateCandidate (fst (fst g)) (snd (fst g))
  \/ l = Blank
  \/ exists path start end_, l = FoundAt path start end_ /\ In (path, start, end_) (snd g).
Proof.
  unfold group_lines. intros [<-|Hin]; [left; reflexivity|].
  apply in_app_or in Hin as [Hin|[<-|[]]]; [|right; left; reflexivity].
  apply in_map_iff in Hin as ([[p s] e] & <- & Hin). right. right. eauto.
Qed.

End ScanReport.

(** C2: in the output of a scan, a candidate header is printed for a key
    exactly when the group of that key has at least two occurrences, so a
    group with exactly one occurrence never appears; every occurrence line
    printed belongs to such a group; and when no group has two occurrences
    the whole output is the one line that says no duplicates were found. *)
Theorem single_occurrence_groups_not_reported (root : string) (t : Dedupe.tree) :
  let candidates := Dedupe.collect root t in
  let out := fst (Dedupe.main root t) in
  (forall name h occs,
      In ((name, h), occs) candidates ->
      (In (Dedupe.DuplicateCandidate name h) out <-> 2 <= length occs))
  /\ (forall name h occs,
         In ((name, h), occs) candidates -> length occs = 1 ->
         ~ In (Dedupe.DuplicateCandidate name h) out)
  /\ (forall path start end_,
         In (Dedupe.FoundAt path start end_) out ->
         exists k occs, In (k, occs) candidates
                        /\ In (path, start, end_) occs /\ 2 <= length occs)
  /\ ((forall g, In g candidates -> length (snd g) < 2) -> out = [Dedupe.NoDuplicates])
  /\ (In Dedupe.NoDuplicates out <-> forall g, In g candidates -> length (snd g) < 2).
Proof.
  cbv zeta. unfold Dedupe.main. cbn [fst].
  rewrite print_duplicates_unfold. cbn [snd].
  set (tbl := Dedupe.collect root t).
  pose proof (collect_keys_nodup root t) as Hnd. fold tbl in Hnd.
  assert (Hhdr : forall name h occs, In ((name, h), occs) tbl ->
            (In (Dedupe.DuplicateCandidate name h)
                (flat_map group_lines (List.filter duplicated tbl)
                 ++ [if (length (List.filter duplicated tbl) =? 0)%nat
                     then Dedupe.NoDuplicates
                     else Dedupe.FoundCount (length (List.filter duplicated tbl))])
             <-> 2 <= length occs)).
  { intros name h occs Hin. split.
    - intros Hout. apply in_app_or in Hout as [Hout|Hout].
      + apply in_flat_map in Hout as (g & Hg & Hl).
        apply filter_In in Hg as [Hg Hdup].
        apply in_group_lines in Hl as [Heq|[Heq|(p & s & e & Heq & _)]];
          try discriminate.
        injection Heq as Hn Hh. destruct g as [[gn gh] gocc]. cbn [fst snd] in *.
        subst gn gh.
        apply (dict_In_get _ _ _ Hnd) in Hin, Hg.
        rewrite Hin in Hg. injection Hg as <-.
        unfold duplicated in Hdup. cbn [snd] in Hdup.
        apply Nat.ltb_lt in Hdup. lia.
      + destruct Hout as [Heq|[]].
        destruct (length (List.filter duplicated tbl) =? 0)%nat; discriminate.
    - intros Hlen. apply in_or_app. left. apply in_flat_map.
      exists ((name, h), occs). split.
      + apply filter_In. split; [exact Hin|].
        unfold duplicated. cbn [snd]. apply Nat.ltb_lt. lia.
      + left. reflexivity. }
  assert (Hnone : (forall g, In g tbl -> length (snd g) < 2) ->
                  List.filter duplicated tbl = []).
  { intros Hall. destruct (List.filter duplicated tbl) as [|g l] eqn:Hf;
      [reflexivity|].
    assert (In g (List.filter duplicated tbl)) as Hg by (rewrite Hf; left; reflexivity).
    apply filter_In in Hg as [Hg Hdup]. specialize (Hall g Hg).
    unfold duplicated in Hdup. apply Nat.ltb_lt in Hdup. lia. }
  split; [exact Hhdr|]. split; [|split; [|split]].
  - intros name h occs Hin Hone Hout. apply (Hhdr name h occs Hin) in Hout. lia.
  - intros path start end_ Hout. apply in_app_or in Hout as [Hout|Hout].
    + apply in_flat_map in Hout as (g & Hg & Hl).
      apply filter_In in Hg as [Hg Hdup].
      apply in_group_lines in Hl as [Heq|[Heq|(p & s & e & Heq & Hocc)]];
        try discriminate.
      injection Heq as <- <- <-. destruct g as [k occs]. exists k, occs.
      cbn [snd] in *. split; [exact Hg|]. split; [exact Hocc|].
      unfold duplicated in Hdup. cbn [snd] in Hdup. apply Nat.ltb_lt in Hdup. lia.
    + destruct Hout as [Heq|[]].
      destruct (length (List.filter duplicated tbl) =? 0)%nat; discriminate.
  - intros Hall. rewrite (Hnone Hall). reflexivity.
  - split.
    + intros Hout g Hg. apply in_app_or in Hout as [Hout|Hout].
      * apply in_flat_map in Hout as (g' & _ & Hl).
        apply in_group_lines in Hl as [Heq|[Heq|(p & s & e & Heq & _)]];
          discriminate.
      * destruct Hout as [Heq|[]].
        destruct (length (List.filter duplicated tbl)) eqn:Hlen;
          cbn [Nat.eqb] in Heq; [|discriminate].
        apply length_zero_iff_nil in Hlen.
        destruct (Nat.lt_ge_cases (length (snd g)) 2) as [Hlt|Hge]; [exact Hlt|].
        exfalso.
        assert (In g (List.filter duplicated tbl)) as Hin.
        { apply filter_In. split; [exact Hg|].
          unfold duplicated. apply Nat.ltb_lt. lia. }
        rewrite Hlen in Hin. exact Hin.
    + intros Hall. rewrite (Hnone Hall). left. reflexivity.
Qed.

(** A tree with one function: nothing but the message. *)
Example scan_one_unique_function :
  fst (Dedupe.main "/repo" (Dedupe.Dir [("a.py", ["def helper(): return 1"])] []))
  = [Dedupe.NoDuplicates]
  /\ Dedupe.render Dedupe.NoDuplicates
     = "No obvious duplicates found by conservative scan.".
Proof. split; vm_compute; reflexivity. Qed.

(** The end-to-end scenario of the specification: [a.py] and [b.py] define
    the same [helper], [c.py] another one. *)
Example scan_three_files :
  map (fun g => (fst (fst g), snd g))
      (Dedupe.collect "/repo"
         (Dedupe.Dir [("a.py", ["def helper(): return 1"]);
                      ("b.py", ["def helper(): return 1"]);
                      ("c.py", ["def helper(): return 2"])] []))
  = [("helper", [("/repo/a.py", 1, 1); ("/repo/b.py", 1, 1)]);
     ("helper", [("/repo/c.py", 1, 1)])].
Proof. vm_compute. reflexivity. Qed.

(** ** Matching with the fragment of [re] *)

Section RepProps.

Context (cls : ascii -> bool) (cap : bool) (k : string -> option (list string)).

(** [k] fails on [s] and on every suffix of it. *)
Fixpoint fails_everywhere (s : string) : Prop :=
  k s = None /\
  match s with
  | EmptyString => True
  | String _ s' => fails_everywhere s'
  end.

Lemma rep_unfold need s taken :
  Re.rep cls cap k need s taken =
  let stop :=
    if need then None
    else match k s with
         | Some gs => Some (if cap then taken :: gs else gs)
         | None => None
         end in
  match s with
  | String c s' =>
      if cls c then
        match Re.rep cls cap k false s' (String.append taken (String c EmptyString)) with
        | Some r => Some r
        | None => stop
        end
      else stop
  | EmptyString => stop
  end.
Proof. destruct s; reflexivity. Qed.

(** Where the continuation fails at every position, so does the repetition. *)
Lemma rep_fails need s taken :
  fails_everywhere s -> Re.rep cls cap k need s taken = None.
Proof.
  revert need taken. induction s as [|c s IH]; intros need taken [Hk Hrest];
    rewrite rep_unfold; cbv zeta; rewrite Hk.
  - destruct need; reflexivity.
  - rewrite (IH false _ Hrest). destruct (cls c), need; reflexivity.
Qed.

Lemma append_String a s t :
  String.append (String a s) t = String a (String.append s t).
Proof. reflexivity. Qed.

Lemma append_cons_assoc taken c d :
  String.append (String.append taken (String c EmptyString)) d
  = String.append taken (String c d).
Proof.
  induction taken as [|a taken IH]; [reflexivity|].
  rewrite !append_String. f_equal. exact IH.
Qed.

Lemma append_empty_r s : String.append s EmptyString = s.
Proof.
  induction s as [|a s IH]; [reflexivity|].
  rewrite append_String. f_equal. exact IH.
Qed.

(** A repetition that succeeds after [d] also succeeds from before [d], with
    the same result, when [d] is made of characters of the class: the longest
    match is tried first. *)
Lemma rep_through need d rest taken r :
  Str.forallb cls d = true ->
  (need = true -> d <> EmptyString) ->
  Re.rep cls cap k false rest (String.append taken d) = Some r ->
  Re.rep cls cap k need (String.append d rest) taken = Some r.
Proof.
  revert need taken. induction d as [|c d IH]; intros need taken Hcls Hneed Hr.
  - destruct need; [exfalso; apply Hneed; reflexivity|].
    rewrite append_empty_r in Hr. exact Hr.
  - cbn [Str.forallb] in Hcls. apply andb_true_iff in Hcls as [Hc Hd].
    rewrite append_String, rep_unfold. cbv zeta. rewrite Hc.
    rewrite (IH false (String.append taken (String c EmptyString)) Hd); [reflexivity| |].
    + discriminate.
    + rewrite append_cons_assoc. exact Hr.
Qed.

(** Where the repetition cannot go on, it hands over to the continuation. *)
Lemma rep_stops s taken :
  match s with
  | EmptyString => True
  | String c s' => cls c = false \/ fails_everywhere s'
  end ->
  Re.rep cls cap k false s taken =
  match k s with
  | Some gs => Some (if cap then taken :: gs else gs)
  | None => None
  end.
Proof.
  intros Hs. rewrite rep_unfold. cbv zeta. destruct s as [|c s']; [reflexivity|].
  destruct Hs as [Hc|Hf].
  - rewrite Hc. reflexivity.
  - rewrite (rep_fails false s' _ Hf). destruct (cls c); reflexivity.
Qed.

End RepProps.

(** ** Decimal numbers *)

Lemma of_nat_digits n : Str.forallb Chars.isdigit (Str.of_nat n) = true.
Proof.
  unfold Str.of_nat. generalize (Nat.to_uint n). intros d.
  induction d as [|d IH|d IH|d IH|d IH|d IH|d IH|d IH|d IH|d IH|d IH];
    cbn [NilEmpty.string_of_uint Str.forallb]; try reflexivity;
    rewrite IH; reflexivity.
Qed.

Lemma to_uint_nonnil n : Nat.to_uint n <> Decimal.Nil.
Proof.
  rewrite <- (DecimalNat.Unsigned.of_to n) at 1.
  rewrite DecimalNat.Unsigned.to_of. apply DecimalFacts.unorm_nonnil.
Qed.

Lemma of_nat_nonempty n : Str.of_nat n <> EmptyString.
Proof.
  unfold Str.of_nat. pose proof (to_uint_nonnil n) as Hn.
  destruct (Nat.to_uint n); cbn [NilEmpty.string_of_uint];
    [congruence|discriminate..].
Qed.

(** [int(str(n)) == n] *)
Lemma to_nat_of_nat n : Str.to_nat (Str.of_nat n) = Some n.
Proof.
  pose proof (of_nat_nonempty n) as Hne. unfold Str.to_nat.
  destruct (Str.of_nat n) as [|c s] eqn:Hs; [congruence|].
  rewrite <- Hs. unfold Str.of_nat. rewrite NilEmpty.usu.
  cbn [option_map]. rewrite DecimalNat.Unsigned.of_to. reflexivity.
Qed.

Lemma digit_is_not_colon c : Chars.isdigit c = true -> Ascii.eqb ":" c = false.
Proof.
  intros Hd. destruct (Ascii.eqb_spec ":" c) as [<-|]; [|reflexivity].
  vm_compute in Hd. discriminate.
Qed.

Lemma pmatch_rep cls plus cap p s :
  Re.pmatch (Re.Rep cls plus cap :: p) s
  = Re.rep cls cap (Re.pmatch p) plus s EmptyString.
Proof. reflexivity. Qed.

Lemma pmatch_lit c p c' s :
  Re.pmatch (Re.Lit c :: p) (String c' s)
  = if Ascii.eqb c c' then Re.pmatch p s else None.
Proof. reflexivity. Qed.

(** ** Occurrence strings *)

Section OccurrenceRoundTrip.

(** What follows the colon of the pattern. *)
Definition after_path : Re.pattern :=
  [Re.Lit ":"; Re.Rep Chars.isdigit true true; Re.Lit "-";
   Re.Rep Chars.isdigit true true].

Lemma no_colon_fails t :
  Str.forallb (fun c => negb (Ascii.eqb ":" c)) t = true ->
  fails_everywhere (Re.pmatch after_path) t.
Proof.
  induction t as [|c t IH]; cbn [Str.forallb fails_everywhere]; intros Ht.
  - split; reflexivity.
  - apply andb_true_iff in Ht as [Hc Ht]. split; [|apply IH; exact Ht].
    apply negb_true_iff in Hc. unfold after_path.
    rewrite pmatch_lit, Hc. reflexivity.
Qed.

Lemma forallb_append p a b :
  Str.forallb p (String.append a b) = Str.forallb p a && Str.forallb p b.
Proof.
  induction a as [|c a IH]; [reflexivity|].
  rewrite append_String. cbn [Str.forallb]. rewrite IH. apply andb_assoc.
Qed.

Lemma forallb_impl (p q : ascii -> bool) s :
  (forall c, p c = true -> q c = true) ->
  Str.forallb p s = true -> Str.forallb q s = true.
Proof.
  intros Hpq. induction s as [|c s IH]; cbn [Str.forallb]; [reflexivity|].
  intros H. apply andb_true_iff in H as [Hc Hs].
  rewrite (Hpq c Hc), (IH Hs). reflexivity.
Qed.

Lemma digits_then_end (e : string) :
  Str.forallb Chars.isdigit e = true -> e <> EmptyString ->
  Re.rep Chars.isdigit true (Re.pmatch []) true e EmptyString = Some [e].
Proof.
  intros He Hne.
  rewrite <- (append_empty_r e) at 1.
  apply rep_through; [exact He|intros _; exact Hne|].
  rewrite rep_stops by exact I. reflexivity.
Qed.

Lemma number_dash_number (s e : string) :
  Str.forallb Chars.isdigit s = true -> s <> EmptyString ->
  Str.forallb Chars.isdigit e = true -> e <> EmptyString ->
  Re.pmatch after_path (String ":" (String.append s (String "-" e)))
  = Some [s; e].
Proof.
  intros Hs Hsne He Hene. unfold after_path.
  rewrite pmatch_lit, Ascii.eqb_refl, pmatch_rep.
  apply rep_through; [exact Hs|intros _; exact Hsne|].
  rewrite rep_stops by (left; reflexivity).
  rewrite pmatch_lit, Ascii.eqb_refl, pmatch_rep.
  rewrite (digits_then_end e He Hene). reflexivity.
Qed.

Lemma occurrence_groups (path s e : string) :
  path <> EmptyString ->
  Str.forallb Chars.isdot path = true ->
  Str.forallb Chars.isdigit s = true -> s <> EmptyString ->
  Str.forallb Chars.isdigit e = true -> e <> EmptyString ->
  Re.pmatch occurrence_re
    (String.append path (String ":" (String.append s (String "-" e))))
  = Some [path; s; e].
Proof.
  intros Hpne Hdot Hs Hsne He Hene.
  unfold occurrence_re. rewrite pmatch_rep. fold after_path.
  apply rep_through; [exact Hdot|intros _; exact Hpne|].
  rewrite rep_stops.
  - rewrite (number_dash_number s e Hs Hsne He Hene). reflexivity.
  - right. apply no_colon_fails. rewrite forallb_append.
    apply andb_true_iff. split.
    + eapply forallb_impl; [|exact Hs]. intros c Hc.
      rewrite (digit_is_not_colon c Hc). reflexivity.
    + cbn [Str.forallb]. apply andb_true_iff. split; [reflexivity|].
      eapply forallb_impl; [|exact He]. intros c Hc.
      rewrite (digit_is_not_colon c Hc). reflexivity.
Qed.

End OccurrenceRoundTrip.

(** C8: for every file path that is not empty and holds no line feed, and
    every start and end line number, parsing the occurrence string
    [<path>:<start>-<end>] gives back the path, the start and the end. *)
Theorem occurrence_round_trip (path : string) (start end_ : nat) :
  path <> EmptyString ->
  Str.forallb Chars.isdot path = true ->
  parse_occurrence (format_occurrence path start end_) = Some (path, start, end_).
Proof.
  intros Hne Hdot. unfold parse_occurrence, format_occurrence.
  change (String.append ":" ?x) with (String ":" x).
  change (String.append "-" ?x) with (String "-" x).
  rewrite (occurrence_groups path (Str.of_nat start) (Str.of_nat end_) Hne Hdot
             (of_nat_digits start) (of_nat_nonempty start)
             (of_nat_digits end_) (of_nat_nonempty end_)).
  rewrite !to_nat_of_nat. reflexivity.
Qed.

Lemma occurrence_round_trip_witness :
  parse_occurrence (format_occurrence "/repo/apps/a:1-2/x.py" 10 207)
  = Some ("/repo/apps/a:1-2/x.py", 10, 207).
Proof.
  apply (occurrence_round_trip "/repo/apps/a:1-2/x.py" 10 207).
  - discriminate.
  - vm_compute. reflexivity.
Defined.

(** The pattern needs one character of path: nothing parses without one. *)
Example occurrence_empty_path :
  parse_occurrence (format_occurrence "" 1 2) = None.
Proof. vm_compute. reflexivity. Qed.

(** ** The per-file extractor *)

Section Extractor.

Import Dedupe.

Variable ext : string.
Variable lines : list string.

Lemma gather_length rest : length (gather ext rest) <= length rest.
Proof.
  induction rest as [|nxt rest IH]; cbn [gather length]; [lia|].
  destruct (next_construct ext (Str.strip nxt)); cbn [length]; lia.
Qed.

(** The gathered lines are the lines that follow, up to the first one that
    starts the next construct. *)
Lemma gather_prefix rest :
  gather ext rest = firstn (length (gather ext rest)) rest.
Proof.
  induction rest as [|nxt rest IH]; cbn [gather]; [reflexivity|].
  destruct (next_construct ext (Str.strip nxt)); [reflexivity|].
  cbn [length firstn]. rewrite <- IH. reflexivity.
Qed.

Lemma gather_none_inside rest :
  Forall (fun l => next_construct ext (Str.strip l) = false) (gather ext rest).
Proof.
  induction rest as [|nxt rest IH]; cbn [gather]; [constructor|].
  destruct (next_construct ext (Str.strip nxt)) eqn:E; constructor; assumption.
Qed.

Lemma gather_stops_at_next rest :
  match skipn (length (gather ext rest)) rest with
  | [] => True
  | nxt :: _ => next_construct ext (Str.strip nxt) = true
  end.
Proof.
  induction rest as [|nxt rest IH]; cbn [gather]; [exact I|].
  destruct (next_construct ext (Str.strip nxt)) eqn:E; [exact E|exact IH].
Qed.

Lemma skipn_nth_error (i : nat) (line : string) :
  nth_error lines i = Some line -> skipn i lines = line :: skipn (i + 1) lines.
Proof.
  revert i. induction lines as [|l ls IH]; intros [|i]; cbn; try discriminate.
  - intros [= ->]. reflexivity.
  - intros H. exact (IH i H).
Qed.

(** What holds of a block found at or after index [i]. *)
Definition well_formed_from (i : nat) (b : block) : Prop :=
  i + 1 <= b_start b
  /\ b_start b <= b_end b
  /\ b_end b <= length lines
  /\ b_lines b = firstn (b_end b - b_start b + 1) (skipn (b_start b - 1) lines)
  /\ exists header,
       nth_error lines (b_start b - 1) = Some header
       /\ hd_error (b_lines b) = Some header
       /\ header_name ext (Str.strip header) = Some (b_name b).

Lemma well_formed_from_le i j b :
  i <= j -> well_formed_from j b -> well_formed_from i b.
Proof. unfold well_formed_from. intros Hij (H1 & H2); split; [lia|exact H2]. Qed.

Lemma extract_well_formed fuel i :
  Forall (well_formed_from i) (extract fuel ext lines i)
  /\ StronglySorted (fun b1 b2 => b_end b1 < b_start b2) (extract fuel ext lines i).
Proof.
  revert i. induction fuel as [|fuel IH]; intros i; cbn [extract].
  - split; constructor.
  - destruct (nth_error lines i) as [line|] eqn:Hline; [|split; constructor].
    assert (i < length lines) as Hi by (apply nth_error_Some; congruence).
    destruct (header_name ext (Str.strip line)) as [name|] eqn:Hname.
    + cbv zeta. cbn [length].
      set (rest := skipn (i + 1) lines).
      pose proof (gather_length rest) as Hlen.
      assert (length rest = length lines - (i + 1)) as Hrest
        by (unfold rest; apply length_skipn).
      destruct (IH (i + S (length (gather ext rest)))) as [Hall Hsorted].
      split.
      * constructor.
        -- unfold well_formed_from. cbn [b_start b_end b_lines b_name].
           split; [lia|]. split; [lia|]. split; [lia|]. split.
           ++ replace (i + 1 - 1) with i by lia.
              rewrite (skipn_nth_error i line Hline). fold rest.
              replace (i + S (length (gather ext rest)) - (i + 1) + 1)
                with (S (length (gather ext rest))) by lia.
              cbn [firstn]. rewrite <- gather_prefix. reflexivity.
           ++ exists line. replace (i + 1 - 1) with i by lia.
              split; [exact Hline|]. split; [reflexivity|exact Hname].
        -- eapply List.Forall_impl; [|exact Hall].
           intros b. apply well_formed_from_le. lia.
      * constructor; [exact Hsorted|].
        eapply List.Forall_impl; [|exact Hall].
        intros b (Hstart & _). cbn [b_end]. lia.
    + destruct (IH (i + 1)) as [Hall Hsorted]. split; [|exact Hsorted].
      eapply List.Forall_impl; [|exact Hall].
      intros b. apply well_formed_from_le. lia.
Qed.

(** The loop ends by itself: more iterations than lines are left change
    nothing. *)
Lemma extract_fuel_enough fuel fuel' i :
  length lines - i <= fuel -> length lines - i <= fuel' ->
  extract fuel ext lines i = extract fuel' ext lines i.
Proof.
  revert fuel' i. induction fuel as [|fuel IH]; intros fuel' i Hf Hf'.
  - assert (nth_error lines i = None) as Hnone by (apply nth_error_None; lia).
    destruct fuel'; cbn [extract]; [reflexivity|]. rewrite Hnone. reflexivity.
  - destruct fuel' as [|fuel'].
    + assert (nth_error lines i = None) as Hnone by (apply nth_error_None; lia).
      cbn [extract]. rewrite Hnone. reflexivity.
    + cbn [extract].
      destruct (nth_error lines i) as [line|] eqn:Hline; [|reflexivity].
      assert (i < length lines) as Hi by (apply nth_error_Some; congruence).
      destruct (header_name ext (Str.strip line)); cbv zeta.
      * f_equal. apply IH; cbn [length]; lia.
      * apply IH; lia.
Qed.

End Extractor.

(** C10: the blocks the extractor returns for a file are well formed: every
    block has [1 <= start <= end <= number of lines]; its raw lines are the
    lines of the file from [start] to [end], the first of them the header
    line at [start], which matches a header pattern with the declared name;
    and the blocks come in increasing order with disjoint ranges (the end of
    a block is below the start of every later block).  [scan_file] reports
    these blocks with their digests.  Running the loop for more iterations
    than the file has lines gives the same blocks. *)
Theorem blocks_well_formed (path : string) (lines : list string) :
  let ext := Str.lower (Dedupe.splitext_ext path) in
  let bs := Dedupe.blocks_of path lines in
  Forall (fun b =>
            1 <= Dedupe.b_start b
            /\ Dedupe.b_start b <= Dedupe.b_end b
            /\ Dedupe.b_end b <= length lines
            /\ Dedupe.b_lines b
               = firstn (Dedupe.b_end b - Dedupe.b_start b + 1)
                        (skipn (Dedupe.b_start b - 1) lines)
            /\ exists header,
                 nth_error lines (Dedupe.b_start b - 1) = Some header
                 /\ hd_error (Dedupe.b_lines b) = Some header
                 /\ Dedupe.header_name ext (Str.strip header)
                    = Some (Dedupe.b_name b)) bs
  /\ StronglySorted (fun b1 b2 => Dedupe.b_end b1 < Dedupe.b_start b2) bs
  /\ StronglySorted (fun b1 b2 => Dedupe.b_start b1 < Dedupe.b_start b2) bs
  /\ Dedupe.scan_file path lines
     = map (fun b => (Dedupe.b_name b, Dedupe.hash_block (Dedupe.b_lines b),
                      Dedupe.b_start b, Dedupe.b_end b, path)) bs
  /\ forall fuel, length lines <= fuel ->
                  Dedupe.extract fuel ext lines 0 = bs.
Proof.
  cbv zeta. unfold Dedupe.blocks_of.
  destruct (extract_well_formed (Str.lower (Dedupe.splitext_ext path)) lines
              (length lines) 0) as [Hall Hsorted].
  split; [|split; [exact Hsorted|split; [|split]]].
  - eapply List.Forall_impl; [|exact Hall].
    intros b (H1 & H2 & H3 & H4 & H5). repeat split; try assumption; lia.
  - clear Hall.
    assert (Hwf := proj1 (extract_well_formed
                            (Str.lower (Dedupe.splitext_ext path)) lines
                            (length lines) 0)).
    induction Hsorted as [|b bs Hs IH Hb]; [constructor|].
    inversion Hwf as [|? ? Hbwf Hwf']; subst.
    constructor; [apply IH; exact Hwf'|].
    eapply List.Forall_impl; [|exact Hb]. cbn beta.
    intros b2 Hlt. destruct Hbwf as (_ & Hse & _). lia.
  - reflexivity.
  - intros fuel Hfuel. apply extract_fuel_enough; lia.
Qed.

(** A Python file: the block of [helper] takes the blank line after it, the
    block of [other] stops before the class, and each indented [def] of the
    class is a block of one line. *)
Example blocks_python :
  map (fun b => (Dedupe.b_name b, Dedupe.b_start b, Dedupe.b_end b))
      (Dedupe.blocks_of "/r/a.py"
         ["import os"; "def helper():"; "    return 1"; "";
          "def  other (x, y):  "; "  pass"; "class A:"; "  def m(self): pass";
          "    def inner(): pass"])
  = [("helper", 2, 4); ("other", 5, 6); ("m", 8, 8); ("inner", 9, 9)].
Proof. vm_compute. reflexivity. Qed.

Example blocks_typescript :
  map (fun b => (Dedupe.b_name b, Dedupe.b_start b, Dedupe.b_end b))
      (Dedupe.blocks_of "/r/a.ts"
         ["export function foo(a) {"; "}"; "const bar = (x) => x"; "const y = 3";
          "function baz () {}"; "export  default function q() {}"])
  = [("foo", 1, 2); ("bar", 3, 4); ("baz", 5, 6)].
Proof. vm_compute. reflexivity. Qed.

(** ** The walk: which directories are skipped *)

(** The names the comment of line 69 and the list of line 70 mean to skip. *)
Definition excluded_names : list string :=
  [".git"; "node_modules"; "venv"; "__pycache__"].

(** C6 fails on this tree: [tool.py] lies in [.github], no directory above
    it has an excluded name and its extension is supported, yet the test of
    line 70 looks for ["/.git"] anywhere in the directory path, finds it in
    ["/repo/.github"], and the file never reaches the extractor.  The same
    happens under [venv_tools]. *)
Theorem substring_test_skips_other_directories :
  let t := Dedupe.Dir [("a.py", ["def helper(): return 1"])]
             [(".github", Dedupe.Dir [("tool.py", ["def helper(): return 1"])] []);
              ("venv_tools", Dedupe.Dir [("run.py", ["def helper(): return 1"])] [])] in
  map fst (Dedupe.walk "/repo" t) = ["/repo"; "/repo/.github"; "/repo/venv_tools"]
  /\ Forall (fun name => ~ In name excluded_names)
            (Planner.split "/" "/repo/.github/tool.py"
             ++ Planner.split "/" "/repo/venv_tools/run.py")
  /\ Dedupe.supported "tool.py" = true
  /\ Dedupe.supported "run.py" = true
  /\ Dedupe.skipped "/repo/.github" = true
  /\ Dedupe.skipped "/repo/venv_tools" = true
  /\ map fst (Dedupe.scanned_files "/repo" t) = ["/repo/a.py"].
Proof.
  cbv zeta. split; [vm_compute; reflexivity|]. split.
  - vm_compute. repeat constructor; intros H;
      repeat (destruct H as [H|H]; [discriminate H|]); exact H.
  - repeat split; vm_compute; reflexivity.
Qed.

(** A directory named [.git], and everything below it, is skipped. *)
Example git_directory_is_skipped :
  map fst
    (Dedupe.scanned_files "/repo"
       (Dedupe.Dir [("a.py", [])]
          [(".git", Dedupe.Dir [("y.py", [])]
                      [("hooks", Dedupe.Dir [("z.py", [])] [])]);
           ("src", Dedupe.Dir [("b.ts", []); ("notes.txt", [])]
                     [("node_modules", Dedupe.Dir [("c.js", [])] [])])]))
  = ["/repo/a.py"; "/repo/src/b.ts"].
Proof. vm_compute. reflexivity. Qed.

(** ** Grouping by name and digest *)

Section Grouping.

Import Dedupe.

(** Every block found is recorded under its name and digest. *)
Lemma found_is_recorded root t r :
  In r (all_found root t) ->
  exists occs,
    In (key_of r, occs) (collect root t) /\ In (occurrence_of r) occs.
Proof.
  intros Hin.
  pose proof (collect_get root t (key_of r)) as Hget.
  set (l := map occurrence_of
              (List.filter (fun r' => bool_decide (key_of r' = key_of r))
                           (all_found root t))) in *.
  assert (In (occurrence_of r) l) as Hl.
  { apply in_map. apply filter_In. split; [exact Hin|].
    apply bool_decide_eq_true_2. reflexivity. }
  destruct l as [|o l]; [destruct Hl|].
  exists (o :: l). split; [|exact Hl].
  apply (dict_In_get _ _ _ (collect_keys_nodup root t)). exact Hget.
Qed.

(** Every occurrence of a group comes from a block found with the name and
    the digest of the group. *)
Lemma recorded_was_found root t k occs o :
  In (k, occs) (collect root t) -> In o occs ->
  exists r, In r (all_found root t) /\ key_of r = k /\ occurrence_of r = o.
Proof.
  intros Hin Ho.
  apply (dict_In_get _ _ _ (collect_keys_nodup root t)) in Hin.
  rewrite collect_get in Hin.
  destruct (map occurrence_of _) as [|o' l] eqn:Hl; [discriminate|].
  injection Hin as <-. rewrite <- Hl in Ho.
  apply in_map_iff in Ho as (r & Hr & Hf).
  apply filter_In in Hf as [Hf Hk]. apply bool_decide_eq_true_1 in Hk.
  exists r. repeat split; assumption.
Qed.

(** Blocks with the same declared name and the same raw lines have the same
    key. *)
Lemma same_lines_same_key (b1 b2 : block) p1 p2 :
  b_name b1 = b_name b2 -> b_lines b1 = b_lines b2 ->
  key_of (b_name b1, hash_block (b_lines b1), b_start b1, b_end b1, p1)
  = key_of (b_name b2, hash_block (b_lines b2), b_start b2, b_end b2, p2).
Proof. intros Hn Hl. cbn [key_of]. rewrite Hn, Hl. reflexivity. Qed.

End Grouping.

(** ** What a match says about the string *)

Section RepInversion.

Context (cls : ascii -> bool) (cap : bool) (k : string -> option (list string)).

(** A repetition that succeeds has consumed some characters of the class,
    and its continuation has succeeded on what is left. *)
Lemma rep_inv need s taken r :
  Re.rep cls cap k need s taken = Some r ->
  exists d rest gs,
    s = String.append d rest
    /\ Str.forallb cls d = true
    /\ (need = true -> d <> EmptyString)
    /\ k rest = Some gs
    /\ r = if cap then String.append taken d :: gs else gs.
Proof.
  assert (Hstop : forall (need : bool) (s taken : string) r,
             (if need then None
              else match k s with
                   | Some gs => Some (if cap then taken :: gs else gs)
                   | None => None
                   end) = Some r ->
             exists d rest gs,
               s = String.append d rest
               /\ Str.forallb cls d = true
               /\ (need = true -> d <> EmptyString)
               /\ k rest = Some gs
               /\ r = if cap then String.append taken d :: gs else gs).
  { intros [|] s0 taken0 r0 H; [discriminate|].
    destruct (k s0) as [gs|] eqn:Hk; [|discriminate]. injection H as <-.
    exists EmptyString, s0, gs. rewrite append_empty_r.
    repeat split; try assumption. discriminate. }
  revert need taken r. induction s as [|c s IH]; intros need taken r H;
    rewrite rep_unfold in H; cbv zeta in H.
  - apply Hstop. exact H.
  - destruct (cls c) eqn:Hc; [|apply Hstop; exact H].
    destruct (Re.rep cls cap k false s (String.append taken (String c EmptyString)))
      as [r'|] eqn:Hr; [|apply Hstop; exact H].
    injection H as <-.
    apply IH in Hr as (d & rest & gs & -> & Hd & _ & Hk & ->).
    exists (String c d), rest, gs. rewrite append_cons_assoc.
    repeat split; try assumption.
    + cbn [Str.forallb]. rewrite Hc, Hd. reflexivity.
    + discriminate.
Qed.

(** The search is complete: where some number of characters of the class
    can be followed by a success of the continuation, the repetition
    succeeds (perhaps on a longer run). *)
Lemma rep_complete need d rest taken gs :
  Str.forallb cls d = true ->
  (need = true -> d <> EmptyString) ->
  k rest = Some gs ->
  exists r, Re.rep cls cap k need (String.append d rest) taken = Some r.
Proof.
  revert need taken. induction d as [|c d IH]; intros need taken Hd Hneed Hk.
  - destruct need; [exfalso; apply Hneed; reflexivity|].
    change (String.append EmptyString rest) with rest.
    rewrite rep_unfold. cbv zeta. rewrite Hk.
    destruct rest as [|c s]; [eexists; reflexivity|].
    destruct (cls c); [|eexists; reflexivity].
    destruct (Re.rep cls cap k false s _); eexists; reflexivity.
  - cbn [Str.forallb] in Hd. apply andb_true_iff in Hd as [Hc Hd].
    rewrite append_String, rep_unfold. cbv zeta. rewrite Hc.
    destruct (IH false (String.append taken (String c EmptyString)) Hd) as [r Hr];
      [discriminate|exact Hk|].
    rewrite Hr. eexists; reflexivity.
Qed.

End RepInversion.

(** The strings a pattern stands for: [derives p s] when [p] can match a
    prefix of [s]. *)
Inductive derives : Re.pattern -> string -> Prop :=
  | derives_nil s : derives [] s
  | derives_lit c p s : derives p s -> derives (Re.Lit c :: p) (String c s)
  | derives_rep cls plus cap p d rest :
      Str.forallb cls d = true ->
      (plus = true -> d <> EmptyString) ->
      derives p rest ->
      derives (Re.Rep cls plus cap :: p) (String.append d rest).

(** [re.match] succeeds exactly on the strings the pattern stands for. *)
Lemma matches_derives p s : Re.matches p s = true <-> derives p s.
Proof.
  unfold Re.matches. revert s. induction p as [|it p IH]; intros s.
  - split; [constructor|reflexivity].
  - destruct it as [c|cls plus cap].
    + destruct s as [|c' s].
      * split; [discriminate|]. intros H. inversion H.
      * rewrite pmatch_lit. destruct (Ascii.eqb c c') eqn:Hc.
        -- apply Ascii.eqb_eq in Hc as <-. rewrite IH.
           split; [constructor; assumption|]. intros H. inversion H. assumption.
        -- split; [discriminate|]. intros H. inversion H; subst.
           rewrite Ascii.eqb_refl in Hc. discriminate.
    + rewrite pmatch_rep. split.
      * destruct (Re.rep cls cap (Re.pmatch p) plus s EmptyString) as [r|] eqn:Hr;
          [|discriminate].
        intros _. apply rep_inv in Hr as (d & rest & gs & -> & Hd & Hneed & Hk & _).
        constructor; try assumption. apply IH. rewrite Hk. reflexivity.
      * intros H. inversion H as [| |cls' plus' cap' p' d rest Hd Hneed Hrest]; subst.
        apply IH in Hrest.
        destruct (Re.pmatch p rest) as [gs|] eqn:Hk; [|discriminate].
        destruct (rep_complete cls cap (Re.pmatch p) plus d rest EmptyString gs Hd Hneed Hk)
          as [r ->].
        reflexivity.
Qed.

(** Literal text at the head of a pattern. *)
Lemma derives_lits w p s :
  derives (Re.lits w ++ p) s <-> exists rest, s = String.append w rest /\ derives p rest.
Proof.
  revert s. induction w as [|c w IH]; intros s; cbn [Re.lits app].
  - split; [intros H; exists s; split; [reflexivity|exact H]|].
    intros (rest & -> & H). exact H.
  - split.
    + intros H. inversion H as [|c' p' s' H'|]; subst.
      apply IH in H' as (rest & -> & H'). exists rest. split; [reflexivity|exact H'].
    + intros (rest & -> & H). rewrite append_String. constructor.
      apply IH. exists rest. split; [reflexivity|exact H].
Qed.

Lemma derives_rep_inv cls plus cap p s :
  derives (Re.Rep cls plus cap :: p) s ->
  exists d rest,
    s = String.append d rest /\ Str.forallb cls d = true
    /\ (plus = true -> d <> EmptyString) /\ derives p rest.
Proof.
  intros H. inversion H; subst. eexists _, _. repeat split; eassumption.
Qed.

Lemma derives_lit_inv c p s :
  derives (Re.Lit c :: p) s -> exists rest, s = String c rest /\ derives p rest.
Proof. intros H. inversion H; subst. eexists. split; [reflexivity|assumption]. Qed.

(** A capturing repetition that is reached before any other group gives the
    first group, which is made of characters of its class. *)
Fixpoint no_group (p : Re.pattern) : bool :=
  match p with
  | [] => true
  | Re.Lit _ :: p' => no_group p'
  | Re.Rep _ _ cap :: p' => negb cap && no_group p'
  end.

Lemma pmatch_first_group pre cls plus q s r :
  no_group pre = true ->
  Re.pmatch (pre ++ Re.Rep cls plus true :: q) s = Some r ->
  exists g gs,
    r = g :: gs /\ Str.forallb cls g = true /\ (plus = true -> g <> EmptyString).
Proof.
  revert s. induction pre as [|it pre IH]; intros s Hpre Hp; cbn [app] in Hp.
  - rewrite pmatch_rep in Hp.
    apply rep_inv in Hp as (d & rest & gs & _ & Hd & Hne & _ & ->).
    exists d, gs. repeat split; assumption.
  - cbn [no_group] in Hpre. destruct it as [c|cls' plus' cap'].
    + destruct s as [|c' s]; [discriminate|]. rewrite pmatch_lit in Hp.
      destruct (Ascii.eqb c c'); [|discriminate].
      exact (IH s Hpre Hp).
    + apply andb_true_iff in Hpre as [Hcap Hpre].
      destruct cap'; [discriminate|].
      rewrite pmatch_rep in Hp.
      apply rep_inv in Hp as (d & rest & gs & _ & _ & _ & Hk & ->).
      exact (IH rest Hpre Hk).
Qed.

Lemma first_group_class pre cls plus q s g :
  no_group pre = true ->
  Dedupe.group1 (pre ++ Re.Rep cls plus true :: q) s = Some g ->
  Str.forallb cls g = true /\ (plus = true -> g <> EmptyString)
  /\ derives (pre ++ Re.Rep cls plus true :: q) s.
Proof.
  intros Hpre Hg. unfold Dedupe.group1 in Hg.
  destruct (Re.pmatch (pre ++ Re.Rep cls plus true :: q) s) as [r|] eqn:Hp;
    [|discriminate].
  assert (Hm : derives (pre ++ Re.Rep cls plus true :: q) s).
  { apply matches_derives. unfold Re.matches. rewrite Hp. reflexivity. }
  destruct (pmatch_first_group pre cls plus q s r Hpre Hp) as (g' & gs & -> & Hg' & Hne).
  injection Hg as <-. repeat split; assumption.
Qed.

(** ** Headers and block boundaries *)

Lemma append_assoc3 a b c :
  String.append (String.append a b) c = String.append a (String.append b c).
Proof.
  induction a as [|x a IH]; [reflexivity|].
  rewrite !append_String. f_equal. exact IH.
Qed.

Lemma word_is_dot c : Chars.isword c = true -> Chars.isdot c = true.
Proof.
  destruct c as [[] [] [] [] [] [] [] []]; vm_compute; intros H;
    first [reflexivity | discriminate H].
Qed.

(** Every header pattern carries the declared name in its first group,
    which is a non-empty run of [[a-zA-Z0-9_]]. *)
Lemma header_name_word ext s n :
  Dedupe.header_name ext s = Some n ->
  Str.forallb Chars.isword n = true /\ n <> EmptyString.
Proof.
  unfold Dedupe.header_name, Dedupe.or_else.
  assert (Hpy : Dedupe.group1 Dedupe.python s = Some n ->
                Str.forallb Chars.isword n = true /\ n <> EmptyString).
  { intros H.
    apply (first_group_class (Re.lits "def" ++ [Dedupe.sp_plus]) Chars.isword true
             [Dedupe.sp_star; Re.Lit "("; Dedupe.any_star; Re.Lit ")"; Re.Lit ":"])
      in H as (Hw & Hne & _); [|reflexivity].
    split; [exact Hw|apply Hne; reflexivity]. }
  assert (Hts : Dedupe.group1 Dedupe.ts_fn s = Some n ->
                Str.forallb Chars.isword n = true /\ n <> EmptyString).
  { intros H.
    apply (first_group_class
             (Re.lits "export" ++ [Dedupe.sp_plus] ++ Re.lits "function" ++ [Dedupe.sp_plus])
             Chars.isword true [Dedupe.sp_star; Re.Lit "("])
      in H as (Hw & Hne & _); [|reflexivity].
    split; [exact Hw|apply Hne; reflexivity]. }
  assert (Hconst : Dedupe.group1 Dedupe.ts_const_fn s = Some n ->
                   Str.forallb Chars.isword n = true /\ n <> EmptyString).
  { intros H.
    apply (first_group_class (Re.lits "const" ++ [Dedupe.sp_plus]) Chars.isword true
             [Dedupe.sp_star; Re.Lit "="; Dedupe.sp_star; Re.Lit "("])
      in H as (Hw & Hne & _); [|reflexivity].
    split; [exact Hw|apply Hne; reflexivity]. }
  assert (Hjs : Dedupe.group1 Dedupe.js_fn s = Some n ->
                Str.forallb Chars.isword n = true /\ n <> EmptyString).
  { intros H.
    apply (first_group_class (Re.lits "function" ++ [Dedupe.sp_plus]) Chars.isword true
             [Dedupe.sp_star; Re.Lit "("])
      in H as (Hw & Hne & _); [|reflexivity].
    split; [exact Hw|apply Hne; reflexivity]. }
  destruct (String.eqb ext ".py"); [exact Hpy|].
  destruct (existsb (String.eqb ext) Dedupe.structured_exts); [|discriminate].
  destruct (Dedupe.group1 Dedupe.ts_fn s) eqn:H1; [intros H; apply Hts; exact H|].
  destruct (Dedupe.group1 Dedupe.ts_const_fn s) eqn:H2; [intros H; apply Hconst; exact H|].
  exact Hjs.
Qed.

Lemma group1_derives p s n : Dedupe.group1 p s = Some n -> derives p s.
Proof.
  unfold Dedupe.group1. intros H. apply matches_derives. unfold Re.matches.
  destruct (Re.pmatch p s); [reflexivity|discriminate].
Qed.

(** A header line is also a line that starts the next construct: each
    header pattern begins like one of the alternatives of the boundary
    pattern.  For [const name = (] the boundary pattern has [.*] where the
    header pattern has the name, so the line must hold no line feed. *)
Lemma header_is_next_construct ext s n :
  Str.forallb Chars.isdot s = true ->
  Dedupe.header_name ext s = Some n ->
  Dedupe.next_construct ext s = true.
Proof.
  intros Hdot. unfold Dedupe.header_name, Dedupe.next_construct, Dedupe.or_else.
  destruct (String.eqb ext ".py").
  - intros H. apply group1_derives in H.
    apply (derives_lits "def") in H as (r1 & -> & H).
    apply derives_rep_inv in H as (d1 & r2 & -> & Hd1 & Hne1 & _).
    apply orb_true_iff. left. apply matches_derives.
    apply (derives_lits "def"). eexists. split; [reflexivity|].
    constructor; [exact Hd1|exact Hne1|constructor].
  - destruct (existsb (String.eqb ext) Dedupe.structured_exts); [|discriminate].
    destruct (Dedupe.group1 Dedupe.ts_fn s) eqn:H1.
    { intros _. apply group1_derives in H1.
      apply (derives_lits "export") in H1 as (r1 & -> & H).
      apply derives_rep_inv in H as (d1 & r2 & -> & Hd1 & Hne1 & H).
      apply (derives_lits "function") in H as (r3 & -> & H).
      apply derives_rep_inv in H as (d2 & r4 & -> & Hd2 & Hne2 & _).
      apply orb_true_iff. left. apply orb_true_iff. left. apply orb_true_iff. left.
      apply matches_derives.
      apply (derives_lits "export"). eexists. split; [reflexivity|].
      constructor; [exact Hd1|exact Hne1|].
      apply (derives_lits "function" [Dedupe.sp_plus]). eexists. split; [reflexivity|].
      constructor; [exact Hd2|exact Hne2|constructor]. }
    destruct (Dedupe.group1 Dedupe.ts_const_fn s) eqn:H2.
    { intros _. apply group1_derives in H2.
      apply (derives_lits "const") in H2 as (r1 & -> & H).
      apply derives_rep_inv in H as (d1 & r2 & -> & Hd1 & Hne1 & H).
      apply derives_rep_inv in H as (w & r3 & -> & Hw & _ & H).
      apply derives_rep_inv in H as (d2 & r4 & -> & Hd2 & _ & H).
      apply derives_lit_inv in H as (r5 & -> & H).
      apply derives_rep_inv in H as (d3 & r6 & -> & Hd3 & _ & H).
      apply derives_lit_inv in H as (r7 & -> & _).
      apply orb_true_iff. left. apply orb_true_iff. right.
      apply matches_derives.
      apply (derives_lits "const"). eexists. split; [reflexivity|].
      constructor; [exact Hd1|exact Hne1|].
      rewrite <- append_assoc3.
      rewrite !forallb_append in Hdot.
      repeat (apply andb_true_iff in Hdot as [? Hdot] || idtac).
      constructor.
      - rewrite forallb_append. apply andb_true_iff. split.
        + apply (forallb_impl Chars.isword); [exact word_is_dot|exact Hw].
        + repeat match goal with
                 | H : (_ && _)%bool = true |- _ => apply andb_true_iff in H as [? ?]
                 end.
          assumption.
      - discriminate.
      - constructor. constructor; [exact Hd3|discriminate|].
        constructor. constructor. }
    intros H. apply group1_derives in H.
    apply (derives_lits "function") in H as (r1 & -> & H).
    apply derives_rep_inv in H as (d1 & r2 & -> & Hd1 & Hne1 & _).
    apply orb_true_iff. left. apply orb_true_iff. left. apply orb_true_iff. right.
    apply matches_derives.
    apply (derives_lits "function"). eexists. split; [reflexivity|].
    constructor; [exact Hd1|exact Hne1|constructor].
Qed.

Section ExtractorCoverage.

Import Dedupe.

Variable ext : string.
Variable lines : list string.

(** What holds of the block built at every header holds of every block. *)
Lemma extract_Forall (P : block -> Prop) fuel i0 :
  (forall i line name,
      nth_error lines i = Some line ->
      header_name ext (Str.strip line) = Some name ->
      P (Block name (line :: gather ext (skipn (i + 1) lines)) (i + 1)
               (i + length (line :: gather ext (skipn (i + 1) lines))))) ->
  Forall P (extract fuel ext lines i0).
Proof.
  intros HP. revert i0. induction fuel as [|fuel IH]; intros i0; cbn [extract].
  - constructor.
  - destruct (nth_error lines i0) as [line|] eqn:Hl; [|constructor].
    destruct (header_name ext (Str.strip line)) as [name|] eqn:Hh; [|apply IH].
    constructor; [apply HP; assumption|apply IH].
Qed.

(** The lines gathered after a header are the lines of the file that follow
    it. *)
Lemma gather_nth i m :
  m < length (gather ext (skipn (i + 1) lines)) ->
  nth_error (gather ext (skipn (i + 1) lines)) m = nth_error lines (i + 1 + m).
Proof.
  intros Hm. rewrite gather_prefix, List.nth_error_firstn.
  apply Nat.ltb_lt in Hm. rewrite Hm. apply List.nth_error_skipn.
Qed.

Hypothesis stripped_lines_hold_no_line_feed :
  Forall (fun l => Str.forallb Chars.isdot (Str.strip l) = true) lines.

Lemma extract_covers fuel i0 :
  length lines - i0 <= fuel ->
  forall i line name,
    i0 <= i ->
    nth_error lines i = Some line ->
    header_name ext (Str.strip line) = Some name ->
    exists b,
      In b (extract fuel ext lines i0)
      /\ b_start b = i + 1 /\ b_name b = name /\ hd_error (b_lines b) = Some line.
Proof.
  revert i0. induction fuel as [|fuel IH]; intros i0 Hfuel i line name Hi Hl Hh.
  - assert (i < length lines) by (apply List.nth_error_Some; congruence). lia.
  - cbn [extract].
    assert (Hlen : i < length lines) by (apply List.nth_error_Some; congruence).
    destruct (nth_error lines i0) as [l0|] eqn:Hl0.
    2:{ apply List.nth_error_None in Hl0. lia. }
    destruct (header_name ext (Str.strip l0)) as [n0|] eqn:Hh0.
    + destruct (Nat.eq_dec i i0) as [->|Hne].
      * rewrite Hl in Hl0. injection Hl0 as <-. rewrite Hh in Hh0. injection Hh0 as <-.
        eexists. split; [left; reflexivity|]. cbn. repeat split; reflexivity.
      * set (g := gather ext (skipn (i0 + 1) lines)).
        assert (Hj : i0 + length (l0 :: g) <= i).
        { cbn [length]. destruct (le_lt_dec (i0 + S (length g)) i) as [|Hin]; [assumption|].
          exfalso.
          assert (Hm : i - i0 - 1 < length g) by lia.
          pose proof (gather_nth i0 (i - i0 - 1) Hm) as Hnth.
          replace (i0 + 1 + (i - i0 - 1)) with i in Hnth by lia.
          rewrite Hl in Hnth. apply List.nth_error_In in Hnth.
          pose proof (gather_none_inside ext (skipn (i0 + 1) lines)) as Hnone.
          rewrite List.Forall_forall in Hnone. specialize (Hnone line Hnth).
          rewrite List.Forall_forall in stripped_lines_hold_no_line_feed.
          rewrite (header_is_next_construct ext (Str.strip line) name) in Hnone;
            [discriminate| |exact Hh].
          apply stripped_lines_hold_no_line_feed.
          apply (List.nth_error_In _ _ Hl). }
        destruct (IH (i0 + length (l0 :: g)) ltac:(cbn [length]; lia) i line name Hj Hl Hh)
          as (b & Hb & Hrest).
        exists b. split; [right; exact Hb|exact Hrest].
    + assert (i <> i0).
      { intros ->. rewrite Hl in Hl0. injection Hl0 as <-. congruence. }
      apply (IH (i0 + 1) ltac:(lia) i line name ltac:(lia) Hl Hh).
Qed.

End ExtractorCoverage.

(** X1: in a file whose stripped lines hold no line feed (as the lines that
    [readlines] returns do), every line that matches a header pattern of the
    language of the file is the first line of a block: no header is ever
    swallowed by the block before it. *)
Theorem every_header_starts_a_block
    (path : string) (lines : list string) (i : nat) (line name : string) :
  Forall (fun l => Str.forallb Chars.isdot (Str.strip l) = true) lines ->
  nth_error lines i = Some line ->
  Dedupe.header_name (Str.lower (Dedupe.splitext_ext path)) (Str.strip line)
  = Some name ->
  exists b,
    In b (Dedupe.blocks_of path lines)
    /\ Dedupe.b_start b = i + 1
    /\ Dedupe.b_name b = name
    /\ hd_error (Dedupe.b_lines b) = Some line.
Proof.
  intros Hlf Hl Hh. unfold Dedupe.blocks_of.
  apply (extract_covers _ lines Hlf (length lines) 0); [lia|lia|exact Hl|exact Hh].
Qed.

Lemma every_header_starts_a_block_witness :
  exists b,
    In b (Dedupe.blocks_of "/r/a.ts"
            ["export function foo(a) {"; "}"; "const bar = (x) => x"; "const y = 3"])
    /\ Dedupe.b_start b = 3 /\ Dedupe.b_name b = "bar"
    /\ hd_error (Dedupe.b_lines b) = Some "const bar = (x) => x".
Proof.
  apply (every_header_starts_a_block "/r/a.ts"
           ["export function foo(a) {"; "}"; "const bar = (x) => x"; "const y = 3"]
           2 "const bar = (x) => x" "bar").
  - repeat constructor.
  - reflexivity.
  - vm_compute. reflexivity.
Defined.

(** X2: a block runs up to the next construct: none of its lines after the
    header starts a construct (once stripped), and the line that follows the
    block, when there is one, does; otherwise the block ends with the
    file. *)
Theorem block_runs_to_next_construct (path : string) (lines : list string) :
  let ext := Str.lower (Dedupe.splitext_ext path) in
  Forall (fun b =>
            Forall (fun l => Dedupe.next_construct ext (Str.strip l) = false)
                   (tl (Dedupe.b_lines b))
            /\ match nth_error lines (Dedupe.b_end b) with
               | Some nxt => Dedupe.next_construct ext (Str.strip nxt) = true
               | None => Dedupe.b_end b = length lines
               end)
         (Dedupe.blocks_of path lines).
Proof.
  cbv zeta. unfold Dedupe.blocks_of. apply extract_Forall.
  intros i line name Hl _. cbn [Dedupe.b_lines Dedupe.b_end tl length]. split.
  - apply gather_none_inside.
  - set (ext := Str.lower (Dedupe.splitext_ext path)).
    pose proof (gather_stops_at_next ext (skipn (i + 1) lines)) as Hstop.
    pose proof (gather_length ext (skipn (i + 1) lines)) as Hlen.
    rewrite List.length_skipn in Hlen.
    assert (i < length lines) by (apply List.nth_error_Some; congruence).
    rewrite List.skipn_skipn in Hstop.
    replace (length (Dedupe.gather ext (skipn (i + 1) lines)) + (i + 1))
      with (i + S (length (Dedupe.gather ext (skipn (i + 1) lines)))) in Hstop by lia.
    rewrite <- List.hd_error_skipn.
    destruct (skipn _ lines) as [|nxt rest] eqn:Hs; cbn [hd_error].
    + apply List.skipn_all_iff in Hs. lia.
    + exact Hstop.
Qed.

(** ** Strings: reversal, suffixes, substrings *)

Lemma rev_acc_append s acc :
  Str.rev_acc s acc = String.append (Str.rev_acc s EmptyString) acc.
Proof.
  revert acc. induction s as [|c s IH]; intros acc; cbn [Str.rev_acc].
  - reflexivity.
  - rewrite (IH (String c acc)), (IH (String c EmptyString)).
    rewrite append_assoc3. reflexivity.
Qed.

Lemma rev_String c s :
  Str.rev (String c s) = String.append (Str.rev s) (String c EmptyString).
Proof. unfold Str.rev. cbn [Str.rev_acc]. apply rev_acc_append. Qed.

Lemma rev_append a b :
  Str.rev (String.append a b) = String.append (Str.rev b) (Str.rev a).
Proof.
  induction a as [|c a IH].
  - change (String.append EmptyString b) with b.
    change (Str.rev EmptyString) with EmptyString. rewrite append_empty_r. reflexivity.
  - rewrite append_String, !rev_String, IH, append_assoc3. reflexivity.
Qed.

Lemma rev_involutive s : Str.rev (Str.rev s) = s.
Proof.
  induction s as [|c s IH]; [reflexivity|].
  rewrite rev_String, rev_append, IH. reflexivity.
Qed.

Lemma length_append a b :
  String.length (String.append a b) = String.length a + String.length b.
Proof.
  induction a as [|c a IH]; [reflexivity|].
  rewrite append_String. cbn [String.length]. rewrite IH. reflexivity.
Qed.

Lemma startswith_append p s : Str.startswith p (String.append p s) = true.
Proof.
  induction p as [|c p IH]; [reflexivity|].
  rewrite append_String. cbn [Str.startswith]. rewrite Ascii.eqb_refl. exact IH.
Qed.

Lemma startswith_inv p s :
  Str.startswith p s = true -> exists rest, s = String.append p rest.
Proof.
  revert s. induction p as [|c p IH]; intros s H.
  - exists s. reflexivity.
  - destruct s as [|c' s]; [discriminate|]. cbn [Str.startswith] in H.
    apply andb_true_iff in H as [Hc H]. apply Ascii.eqb_eq in Hc as <-.
    apply IH in H as [rest ->]. exists rest. reflexivity.
Qed.

Lemma startswith_weaken p s t :
  Str.startswith p s = true -> Str.startswith p (String.append s t) = true.
Proof.
  intros H. apply startswith_inv in H as [rest ->].
  rewrite append_assoc3. apply startswith_append.
Qed.

(** [s.endswith(p)] says that [s] is something followed by [p]. *)
Lemma endswith_inv p s :
  Str.endswith p s = true -> exists before, s = String.append before p.
Proof.
  unfold Str.endswith. intros H. apply startswith_inv in H as [rest H].
  exists (Str.rev rest).
  rewrite <- (rev_involutive s), H, rev_append, rev_involutive. reflexivity.
Qed.

Lemma endswith_append a p : Str.endswith p (String.append a p) = true.
Proof. unfold Str.endswith. rewrite rev_append. apply startswith_append. Qed.

Lemma contains_here p s : Str.startswith p s = true -> Str.contains p s = true.
Proof. intros H. destruct s; cbn [Str.contains]; rewrite H; reflexivity. Qed.

Lemma contains_String p c s : Str.contains p s = true -> Str.contains p (String c s) = true.
Proof. intros H. cbn [Str.contains]. rewrite H. apply orb_true_r. Qed.

Lemma contains_prepend p a s :
  Str.contains p s = true -> Str.contains p (String.append a s) = true.
Proof.
  intros H. induction a as [|c a IH]; [exact H|].
  rewrite append_String. apply contains_String. exact IH.
Qed.

Lemma contains_extend p s t :
  Str.contains p s = true -> Str.contains p (String.append s t) = true.
Proof.
  induction s as [|c s IH]; cbn [Str.contains]; intros H.
  - rewrite orb_false_r in H. destruct p; [|discriminate].
    apply contains_here. reflexivity.
  - apply orb_true_iff in H as [H|H].
    + apply contains_here. apply startswith_weaken. exact H.
    + rewrite append_String. apply contains_String. apply IH. exact H.
Qed.

Lemma contains_middle p a b :
  Str.contains p (String.append a (String.append p b)) = true.
Proof. apply contains_prepend, contains_here, startswith_append. Qed.

(** [s.rfind(c)] in a concatenation: the last occurrence in the second part
    if there is one, else the last one in the first part. *)
Lemma rfind_append c a b :
  Planner.rfind c (String.append a b) =
  match Planner.rfind c b with
  | Some i => Some (String.length a + i)
  | None => Planner.rfind c a
  end.
Proof.
  induction a as [|x a IH].
  - change (String.append EmptyString b) with b. destruct (Planner.rfind c b); reflexivity.
  - rewrite append_String. cbn [Planner.rfind String.length]. rewrite IH.
    destruct (Planner.rfind c b); [reflexivity|].
    destruct (Planner.rfind c a); reflexivity.
Qed.

(** ** [os.path.join] *)

(** Joining a name that does not start with a slash puts it after the
    directory, which then is empty or ends with a slash. *)
Lemma join_relative a b :
  Str.startswith "/" b = false ->
  exists pre,
    Dedupe.join a b = String.append pre b
    /\ (pre = EmptyString /\ a = EmptyString
        \/ exists a0, pre = String.append a0 "/"
                      /\ (a = pre \/ a = a0 /\ a <> EmptyString)).
Proof.
  intros Hb. unfold Dedupe.join. rewrite Hb.
  destruct (String.eqb a "") eqn:Ha.
  - apply String.eqb_eq in Ha as ->. exists EmptyString.
    split; [reflexivity|left; split; reflexivity].
  - apply String.eqb_neq in Ha. cbn [orb].
    destruct (Str.endswith "/" a) eqn:He.
    + exists a. split; [reflexivity|]. right.
      apply endswith_inv in He as [a0 ->]. exists a0. split; [reflexivity|left; reflexivity].
    + exists (String.append a "/"). split; [rewrite append_assoc3; reflexivity|].
      right. exists a. split; [reflexivity|right; split; [reflexivity|exact Ha]].
Qed.

(** ** Extensions *)

Lemma extract_without_patterns ext lines fuel i :
  (forall s, Dedupe.header_name ext s = None) ->
  Dedupe.extract fuel ext lines i = [].
Proof.
  intros Hnone. revert i. induction fuel as [|fuel IH]; intros i; cbn [Dedupe.extract].
  - reflexivity.
  - destruct (nth_error lines i); [|reflexivity]. rewrite Hnone. apply IH.
Qed.

(** X3: the extractor has header patterns for [.py] and for [.ts], [.js],
    [.tsx], [.jsx] only (compared in lower case): a file with any other
    extension gives no block, whatever its lines are. *)
Theorem other_extensions_yield_nothing (path : string) (lines : list string) :
  let ext := Str.lower (Dedupe.splitext_ext path) in
  String.eqb ext ".py" = false ->
  existsb (String.eqb ext) Dedupe.structured_exts = false ->
  Dedupe.scan_file path lines = [].
Proof.
  cbv zeta. intros Hpy Hts. unfold Dedupe.scan_file, Dedupe.blocks_of.
  rewrite extract_without_patterns; [reflexivity|].
  intros s. unfold Dedupe.header_name. rewrite Hpy, Hts. reflexivity.
Qed.

Lemma other_extensions_yield_nothing_witness :
  Dedupe.scan_file "/repo/docs/setup.py.txt" ["def helper(): return 1"] = [].
Proof.
  apply other_extensions_yield_nothing; vm_compute; reflexivity.
Defined.

Lemma no_extension_no_blocks path lines :
  Dedupe.splitext_ext path = "" -> Dedupe.scan_file path lines = [].
Proof.
  intros Hext. unfold Dedupe.scan_file, Dedupe.blocks_of. rewrite Hext.
  rewrite extract_without_patterns; reflexivity.
Qed.

(** X4: a file whose whole name is one of the five extensions passes the
    test of line 73, but [os.path.splitext] gives it no extension (a leading
    dot does not start one), so it is read and gives no block. *)
Theorem extension_only_names_yield_nothing
    (dirpath fn : string) (lines : list string) :
  In fn [".py"; ".ts"; ".js"; ".tsx"; ".jsx"] ->
  Dedupe.supported fn = true
  /\ Dedupe.splitext_ext (Dedupe.join dirpath fn) = ""
  /\ Dedupe.scan_file (Dedupe.join dirpath fn) lines = [].
Proof.
  intros Hfn.
  assert (Hext : Dedupe.splitext_ext (Dedupe.join dirpath fn) = "").
  { assert (Hrel : Str.startswith "/" fn = false
                   /\ Planner.rfind "." fn = Some 0 /\ Planner.rfind "/" fn = None).
    { cbn [In] in Hfn.
      repeat (destruct Hfn as [<-|Hfn]; [repeat split; reflexivity|]).
      destruct Hfn. }
    destruct Hrel as (Hrel & Hdot & Hsep).
    destruct (join_relative dirpath fn Hrel) as (pre & -> & Hpre).
    unfold Dedupe.splitext_ext. rewrite !rfind_append, Hdot, Hsep.
    destruct Hpre as [[-> _]|(a0 & -> & _)].
    - reflexivity.
    - rewrite (rfind_append "/" a0 "/").
      change (Planner.rfind "/" "/") with (Some 0).
      rewrite length_append. cbn [String.length].
      replace (String.length a0 + 1 + 0 - S (String.length a0 + 0)) with 0 by lia.
      cbn [seq existsb]. rewrite andb_false_r. reflexivity. }
  split; [|split; [exact Hext|]].
  - cbn [In] in Hfn.
    repeat (destruct Hfn as [<-|Hfn]; [vm_compute; reflexivity|]). destruct Hfn.
  - apply no_extension_no_blocks. exact Hext.
Qed.

Lemma extension_only_names_yield_nothing_witness :
  Dedupe.supported ".py" = true
  /\ Dedupe.splitext_ext (Dedupe.join "/repo" ".py") = ""
  /\ Dedupe.scan_file (Dedupe.join "/repo" ".py") ["def helper(): return 1"] = [].
Proof.
  apply (extension_only_names_yield_nothing "/repo" ".py" ["def helper(): return 1"]).
  left. reflexivity.
Defined.

(** ** The walk *)

(** Induction on a tree, with the property for every subdirectory. *)
Fixpoint tree_induction (P : Dedupe.tree -> Prop)
    (step : forall files subdirs,
        Forall (fun sub => P (snd sub)) subdirs -> P (Dedupe.Dir files subdirs))
    (t : Dedupe.tree) : P t :=
  match t with
  | Dedupe.Dir files subdirs =>
      step files subdirs
        ((fix each (l : list (string * Dedupe.tree)) : Forall (fun sub => P (snd sub)) l :=
            match l with
            | [] => List.Forall_nil _
            | sub :: l' => List.Forall_cons _ sub l' (tree_induction P step (snd sub)) (each l')
            end) subdirs)
  end.

(** [reaches t names files]: going down from [t] through the
    subdirectories called [names], one after the other, leads to a
    directory that holds [files]. *)
Inductive reaches : Dedupe.tree -> list string -> list (string * list string) -> Prop :=
  | reaches_here files subdirs : reaches (Dedupe.Dir files subdirs) [] files
  | reaches_down files subdirs name sub names fs :
      In (name, sub) subdirs -> reaches sub names fs ->
      reaches (Dedupe.Dir files subdirs) (name :: names) fs.

(** The walk yields every directory of the tree, under the path made by
    joining the names that lead to it. *)
Lemma walk_reaches t : forall root dirpath fs,
  In (dirpath, fs) (Dedupe.walk root t) <->
  exists names, reaches t names fs /\ dirpath = fold_left Dedupe.join names root.
Proof.
  induction t as [files subdirs IH] using tree_induction. intros root dirpath fs.
  cbn [Dedupe.walk]. split.
  - intros [Heq|Hin].
    + injection Heq as <- <-. exists []. split; [constructor|reflexivity].
    + apply in_flat_map in Hin as ([name sub] & Hsub & Hin).
      rewrite List.Forall_forall in IH. cbn [fst snd] in Hin.
      apply (IH _ Hsub) in Hin as (names & Hr & ->).
      exists (name :: names). split; [|reflexivity].
      apply (reaches_down _ _ _ sub); assumption.
  - intros (names & Hr & ->). inversion Hr as [|? ? name sub names' ? Hsub Hr']; subst.
    + left. reflexivity.
    + right. apply in_flat_map. exists (name, sub). split; [exact Hsub|].
      rewrite List.Forall_forall in IH. cbn [fst snd].
      apply (IH _ Hsub). exists names'. split; [exact Hr'|reflexivity].
Qed.

(** X5: the files that reach the extractor are exactly the files with a
    supported extension in the directories of the tree whose path holds none
    of the four texts [/.git], [/node_modules], [/venv], [/__pycache__]; each
    is passed under its directory path joined with its name. *)
Theorem scanned_files_characterised
    (root : string) (t : Dedupe.tree) (p : string) (lines : list string) :
  In (p, lines) (Dedupe.scanned_files root t) <->
  exists names fs fn,
    reaches t names fs
    /\ In (fn, lines) fs
    /\ Dedupe.supported fn = true
    /\ Dedupe.skipped (fold_left Dedupe.join names root) = false
    /\ p = Dedupe.join (fold_left Dedupe.join names root) fn.
Proof.
  unfold Dedupe.scanned_files. rewrite in_flat_map. split.
  - intros ([dirpath fs] & Hw & Hin).
    destruct (Dedupe.skipped dirpath) eqn:Hs; [destruct Hin|].
    apply in_flat_map in Hin as ([fn ls] & Hf & Hin).
    destruct (Dedupe.supported fn) eqn:Hsup; [|destruct Hin].
    destruct Hin as [Heq|[]]. injection Heq as <- <-.
    apply walk_reaches in Hw as (names & Hr & ->).
    exists names, fs, fn. repeat split; assumption.
  - intros (names & fs & fn & Hr & Hf & Hsup & Hs & ->).
    exists (fold_left Dedupe.join names root, fs). split.
    + apply walk_reaches. exists names. split; [exact Hr|reflexivity].
    + rewrite Hs. apply in_flat_map. exists (fn, lines). split; [exact Hf|].
      rewrite Hsup. left. reflexivity.
Qed.

(** Directory entries have names without a slash. *)
Definition entry_name (name : string) : bool :=
  Str.forallb (fun c => negb (Ascii.eqb c "/")) name.

Lemma entry_name_relative name :
  entry_name name = true -> Str.startswith "/" name = false.
Proof.
  destruct name as [|c name]; [reflexivity|].
  unfold entry_name. cbn [Str.forallb Str.startswith]. intros H.
  apply andb_true_iff in H as [H _]. apply negb_true_iff in H.
  rewrite Ascii.eqb_sym, H. reflexivity.
Qed.

Lemma join_nonempty a b :
  a <> EmptyString -> Str.startswith "/" b = false -> Dedupe.join a b <> EmptyString.
Proof.
  intros Ha Hb. destruct (join_relative a b Hb) as (pre & -> & [[_ ->]|(a0 & -> & _)]).
  - congruence.
  - destruct a0; discriminate.
Qed.

Lemma join_keeps p a b :
  Str.startswith "/" b = false ->
  Str.contains p a = true -> Str.contains p (Dedupe.join a b) = true.
Proof.
  intros Hb Hp. unfold Dedupe.join. rewrite Hb.
  destruct (String.eqb a "" || Str.endswith "/" a); apply contains_extend; exact Hp.
Qed.

Lemma join_puts_slash a b :
  a <> EmptyString -> Str.startswith "/" b = false ->
  Str.contains (String "/" b) (Dedupe.join a b) = true.
Proof.
  intros Ha Hb. destruct (join_relative a b Hb) as (pre & -> & [[_ ->]|(a0 & -> & _)]).
  - congruence.
  - rewrite append_assoc3. change (String.append "/" b) with (String "/" b).
    rewrite <- (append_empty_r (String "/" b)) at 2. apply contains_middle.
Qed.

Lemma fold_join_keeps p names a :
  Forall (fun n => entry_name n = true) names ->
  Str.contains p a = true ->
  Str.contains p (fold_left Dedupe.join names a) = true.
Proof.
  revert a. induction names as [|n names IH]; intros a Hn Hp; [exact Hp|].
  inversion Hn; subst. cbn [fold_left]. apply IH; [assumption|].
  apply join_keeps; [apply entry_name_relative; assumption|exact Hp].
Qed.

Lemma fold_join_nonempty names a :
  Forall (fun n => entry_name n = true) names ->
  a <> EmptyString -> fold_left Dedupe.join names a <> EmptyString.
Proof.
  revert a. induction names as [|n names IH]; intros a Hn Ha; [exact Ha|].
  inversion Hn; subst. cbn [fold_left]. apply IH; [assumption|].
  apply join_nonempty; [exact Ha|apply entry_name_relative; assumption].
Qed.

(** Below a non-empty root, the path of a directory holds a slash followed
    by the name of each directory on the way. *)
Lemma fold_join_contains names a n :
  Forall (fun n => entry_name n = true) names ->
  a <> EmptyString -> In n names ->
  Str.contains (String "/" n) (fold_left Dedupe.join names a) = true.
Proof.
  revert a. induction names as [|m names IH]; intros a Hn Ha Hin; [destruct Hin|].
  inversion Hn as [|? ? Hm Hrest]; subst. cbn [fold_left].
  pose proof (entry_name_relative m Hm) as Hrel.
  destruct Hin as [->|Hin].
  - apply fold_join_keeps; [exact Hrest|]. apply join_puts_slash; assumption.
  - apply IH; [exact Hrest| |exact Hin]. apply join_nonempty; assumption.
Qed.

(** Every directory name of the tree is an entry name. *)
Fixpoint entry_names (t : Dedupe.tree) : bool :=
  match t with
  | Dedupe.Dir _ subdirs =>
      forallb (fun sub => entry_name (fst sub) && entry_names (snd sub)) subdirs
  end.

Lemma reaches_entry_names t names fs :
  reaches t names fs -> entry_names t = true ->
  Forall (fun n => entry_name n = true) names.
Proof.
  induction 1 as [|files subdirs name sub names fs Hsub Hr IH]; intros Hn.
  - constructor.
  - cbn [entry_names] in Hn. rewrite forallb_forall in Hn.
    specialize (Hn _ Hsub). cbn [fst snd] in Hn.
    apply andb_true_iff in Hn as [Hname Hsubn].
    constructor; [exact Hname|apply IH; exact Hsubn].
Qed.

(** X6: when the scan starts from a non-empty root, no file that reaches the
    extractor lies below a directory called [.git], [node_modules], [venv] or
    [__pycache__], at any depth. *)
Theorem excluded_directories_are_skipped
    (root : string) (t : Dedupe.tree) (p : string) (lines : list string) :
  root <> EmptyString ->
  entry_names t = true ->
  In (p, lines) (Dedupe.scanned_files root t) ->
  exists names fs fn,
    reaches t names fs
    /\ In (fn, lines) fs
    /\ p = Dedupe.join (fold_left Dedupe.join names root) fn
    /\ Forall (fun name => ~ In name excluded_names) names.
Proof.
  intros Hroot Hnames Hin. unfold Dedupe.scanned_files in Hin.
  apply in_flat_map in Hin as ([dirpath fs] & Hw & Hin).
  destruct (Dedupe.skipped dirpath) eqn:Hs; [destruct Hin|].
  apply in_flat_map in Hin as ([fn ls] & Hf & Hin).
  destruct (Dedupe.supported fn); [|destruct Hin].
  destruct Hin as [Heq|[]]. injection Heq as <- <-.
  apply walk_reaches in Hw as (names & Hr & ->).
  exists names, fs, fn. repeat split; try assumption.
  pose proof (reaches_entry_names t names fs Hr Hnames) as Hok.
  apply List.Forall_forall. intros name Hname Hex.
  pose proof (fold_join_contains names root name Hok Hroot Hname) as Hc.
  unfold Dedupe.skipped, Dedupe.skip_names in Hs.
  cbn [existsb] in Hs. cbn [excluded_names In] in Hex.
  repeat (destruct Hex as [<-|Hex]; [rewrite Hc in Hs; cbn in Hs;
                                     rewrite ?orb_true_r in Hs; discriminate|]).
  destruct Hex.
Qed.

Lemma excluded_directories_are_skipped_witness :
  exists names fs fn,
    reaches (Dedupe.Dir [("a.py", [])]
               [(".git", Dedupe.Dir [("y.py", [])] []);
                ("src", Dedupe.Dir [("b.ts", ["const f = () => 1"])] [])])
            names fs
    /\ In (fn, ["const f = () => 1"]) fs
    /\ "/repo/src/b.ts" = Dedupe.join (fold_left Dedupe.join names "/repo") fn
    /\ Forall (fun name => ~ In name excluded_names) names.
Proof.
  apply (excluded_directories_are_skipped "/repo"
           (Dedupe.Dir [("a.py", [])]
              [(".git", Dedupe.Dir [("y.py", [])] []);
               ("src", Dedupe.Dir [("b.ts", ["const f = () => 1"])] [])])
           "/repo/src/b.ts" ["const f = () => 1"]).
  - discriminate.
  - reflexivity.
  - vm_compute. right. left. reflexivity.
Defined.

(** ** The plan accounts for every record *)

Section DictCount.

Context {K V : Type} `{EqDecision K}.

Definition dict_size (d : list (K * list V)) : nat :=
  list_sum (map (fun g => length (snd g)) d).

Lemma dict_size_cons (g : K * list V) (d : list (K * list V)) :
  dict_size (g :: d) = length (snd g) + dict_size d.
Proof. reflexivity. Qed.

Lemma dict_size_append k v (d : list (K * list V)) :
  dict_size (Py.dict_append k v d) = S (dict_size d).
Proof.
  induction d as [|[k' vs] d IH]; cbn [Py.dict_append].
  - reflexivity.
  - destruct (decide (k' = k)); rewrite !dict_size_cons; cbn [snd].
    + rewrite length_app. cbn [length]. lia.
    + rewrite IH. lia.
Qed.

Lemma dict_size_pairs (d : list (K * list V)) :
  list_sum (map (fun '(_, v) => length v) d) = dict_size d.
Proof.
  unfold dict_size. f_equal. apply map_ext. intros [k v]. reflexivity.
Qed.

Lemma dict_append_In k v (d : list (K * list V)) k' vs x :
  In (k', vs) (Py.dict_append k v d) -> In x vs ->
  (exists vs0, In (k', vs0) d /\ In x vs0) \/ (k' = k /\ x = v).
Proof.
  induction d as [|[k0 vs0] d IH]; cbn [Py.dict_append].
  - intros [Heq|[]] Hx. injection Heq as <- <-. destruct Hx as [<-|[]].
    right. split; reflexivity.
  - destruct (decide (k0 = k)) as [->|Hne].
    + intros [Heq|Hin] Hx.
      * injection Heq as <- <-. apply in_app_or in Hx as [Hx|[<-|[]]].
        -- left. exists vs0. split; [left; reflexivity|exact Hx].
        -- right. split; reflexivity.
      * left. exists vs. split; [right; exact Hin|exact Hx].
    + intros [Heq|Hin] Hx.
      * injection Heq as <- <-. left. exists vs0. split; [left; reflexivity|exact Hx].
      * destruct (IH Hin Hx) as [(vs1 & Hin1 & Hx1)|Hnew].
        -- left. exists vs1. split; [right; exact Hin1|exact Hx1].
        -- right. exact Hnew.
Qed.

End DictCount.

Section PlanAccounting.

Import Planner.

(** The occurrence strings named by the warnings of an output. *)
Definition warnings (out : list line) : list string :=
  flat_map (fun l => match l with Warning c => [c] | _ => [] end) out.

(** The records the loop passes over without a word. *)
Definition too_few (c : candidate) : bool := (length (occurrences c) <? 2)%nat.

Lemma warnings_app a b : warnings (a ++ b) = warnings a ++ warnings b.
Proof. unfold warnings. apply flat_map_app. Qed.

Lemma warnings_print_plan pl : warnings (print_plan pl) = [].
Proof.
  assert (H : Forall (fun l => forall c, l <> Warning c) (print_plan pl)).
  { apply List.Forall_forall. intros l Hin c. unfold print_plan in Hin.
    apply in_flat_map in Hin as ([pkg funcs] & _ & [<-|Hin]); [discriminate|].
    apply in_flat_map in Hin as (f & _ & [<-|[<-|[]]]); discriminate. }
  induction H as [|l out Hl _ IH]; [reflexivity|].
  unfold warnings in *. cbn [flat_map]. rewrite IH.
  destruct l; try reflexivity. exfalso. exact (Hl _ eq_refl).
Qed.

Lemma target_pkg_of_cases filepath :
  In (target_pkg_of filepath) ["shared-ui"; "shared-utils"; "shared-python"].
Proof.
  unfold target_pkg_of.
  destruct (existsb _ [".ts"; ".tsx"; ".js"; ".jsx"]).
  - destruct (Str.contains "component" (Str.lower filepath));
      [left; reflexivity|right; left; reflexivity].
  - destruct (existsb _ [".py"]); [right; right; left; reflexivity|right; left; reflexivity].
Qed.

Lemma canonical_in_occurrences occs c :
  determine_canonical_path occs = Some c -> In c occs.
Proof.
  unfold determine_canonical_path. intros H.
  apply (Permutation_in c (Permutation_sym (sorted_perm (Str.count "/") occs))).
  destruct (Py.sorted (Str.count "/") occs) as [|x l]; [discriminate|].
  injection H as ->. left. reflexivity.
Qed.

Lemma canonical_exists occs :
  2 <= length occs -> exists c, determine_canonical_path occs = Some c.
Proof.
  destruct occs as [|x l]; cbn [length]; [lia|]. intros _.
  apply hd_sorted_some.
Qed.

(** Where an entry of the plan comes from. *)
Definition entry_from (cs : list candidate) (pkg : string) (e : entry) : Prop :=
  exists c filepath start end_,
    In c cs
    /\ e = Entry (function c) (e_canonical e) (occurrences c)
    /\ 2 <= length (occurrences c)
    /\ determine_canonical_path (occurrences c) = Some (e_canonical e)
    /\ In (e_canonical e) (occurrences c)
    /\ parse_occurrence (e_canonical e) = Some (filepath, start, end_)
    /\ pkg = target_pkg_of filepath.

Definition plan_from (cs : list candidate) (pl : plan) : Prop :=
  forall pkg es e, In (pkg, es) pl -> In e es -> entry_from cs pkg e.

Definition plan_shape (pl : plan) : Prop :=
  List.NoDup (map fst pl)
  /\ Forall (fun g => In (fst g) ["shared-ui"; "shared-utils"; "shared-python"]
                      /\ snd g <> []) pl.

Lemma step_accounts cs0 st c :
  In c cs0 ->
  plan_from cs0 (fst st) -> plan_shape (fst st) ->
  plan_from cs0 (fst (step st c))
  /\ plan_shape (fst (step st c))
  /\ (if too_few c then 1 else 0)
     + length (warnings (snd (step st c))) + dict_size (fst (step st c))
     = 1 + length (warnings (snd st)) + dict_size (fst st).
Proof.
  intros Hc Hfrom [Hnodup Hshape]. destruct st as [pl out]. unfold step, too_few.
  cbn [fst snd] in *.
  destruct (length (occurrences c) <? 2)%nat eqn:Hlen.
  - cbn [fst snd]. repeat split; try assumption.
  - apply Nat.ltb_ge in Hlen.
    destruct (canonical_exists (occurrences c) Hlen) as [canonical Hcan].
    rewrite Hcan.
    destruct (parse_occurrence canonical) as [[[filepath start] end_]|] eqn:Hparse;
      cbn [fst snd].
    + repeat split.
      * intros pkg es e Hin He.
        destruct (dict_append_In _ _ _ _ _ _ Hin He) as [(es0 & Hin0 & He0)|[-> ->]].
        -- exact (Hfrom pkg es0 e Hin0 He0).
        -- exists c, filepath, start, end_. cbn [e_canonical].
           repeat split; try assumption.
           apply canonical_in_occurrences. exact Hcan.
      * apply dict_append_nodup. exact Hnodup.
      * clear Hfrom Hnodup. induction pl as [|[k vs] pl IH]; cbn [Py.dict_append].
        -- constructor; [|constructor]. cbn [fst snd].
           split; [apply target_pkg_of_cases|discriminate].
        -- inversion Hshape as [|? ? [Hk Hvs] Hrest]; subst. cbn [fst snd] in *.
           destruct (decide (k = target_pkg_of filepath)).
           ++ constructor; [|exact Hrest]. cbn [fst snd]. split; [exact Hk|].
              destruct vs; discriminate.
           ++ constructor; [split; assumption|apply IH; exact Hrest].
      * rewrite dict_size_append. lia.
    + repeat split; try assumption.
      rewrite warnings_app, length_app. cbn. lia.
Qed.

Lemma loop_accounts cs0 cs st :
  (forall c, In c cs -> In c cs0) ->
  plan_from cs0 (fst st) -> plan_shape (fst st) ->
  plan_from cs0 (fst (fold_left step cs st))
  /\ plan_shape (fst (fold_left step cs st))
  /\ length (List.filter too_few cs)
     + length (warnings (snd (fold_left step cs st)))
     + dict_size (fst (fold_left step cs st))
     = length cs + length (warnings (snd st)) + dict_size (fst st).
Proof.
  revert st. induction cs as [|c cs IH]; intros st Hsub Hfrom Hshape; cbn [fold_left].
  - split; [exact Hfrom|split; [exact Hshape|reflexivity]].
  - destruct (step_accounts cs0 st c (Hsub c (or_introl eq_refl)) Hfrom Hshape)
      as (Hfrom' & Hshape' & Hcount).
    destruct (IH (step st c) (fun c' H => Hsub c' (or_intror H)) Hfrom' Hshape')
      as (Hfrom'' & Hshape'' & Hcount').
    split; [exact Hfrom''|split; [exact Hshape''|]].
    cbn [List.filter length]. destruct (too_few c); cbn [length]; lia.
Qed.

End PlanAccounting.

(** The count of the loop, and the warnings of the whole output. *)
Lemma planner_counts (report_path : string) (candidates : list Planner.candidate) :
  let st0 := ([], [Planner.Reading report_path;
                   Planner.FoundGroups (length candidates)])
             : Planner.plan * list Planner.line in
  length (List.filter too_few candidates)
  + length (warnings (snd (fst (Planner.main report_path candidates))))
  + dict_size (fst (fst (Planner.main report_path candidates)))
  = length candidates
  /\ warnings (snd (fst (Planner.main report_path candidates)))
     = warnings (snd (fold_left Planner.step candidates st0)).
Proof.
  cbv zeta. rewrite main_unfold. cbv zeta. cbn [fst snd].
  set (st0 := ([], [Planner.Reading report_path;
                    Planner.FoundGroups (length candidates)])
              : Planner.plan * list Planner.line).
  destruct (loop_accounts candidates candidates st0 (fun c H => H))
    as (_ & _ & Hcount).
  { intros pkg es e []. }
  { split; constructor. }
  assert (Hw : warnings (snd (fold_left Planner.step candidates st0)
                         ++ [Planner.PlanTitle]
                         ++ Planner.print_plan (fst (fold_left Planner.step candidates st0))
                         ++ [Planner.Complete
                               (list_sum (map (fun '(_, v) => length v)
                                            (fst (fold_left Planner.step candidates st0))));
                             Planner.CreatesPlan; Planner.ManualRecommended])
               = warnings (snd (fold_left Planner.step candidates st0))).
  { rewrite !warnings_app, warnings_print_plan.
    change (warnings [Planner.PlanTitle]) with (@nil string).
    change (warnings [Planner.Complete _; Planner.CreatesPlan; Planner.ManualRecommended])
      with (@nil string).
    cbn [app]. apply app_nil_r. }
  rewrite Hw. split; [|reflexivity].
  cbn [st0 fst snd] in Hcount. change (dict_size []) with 0 in Hcount.
  change (warnings [Planner.Reading report_path;
                    Planner.FoundGroups (length candidates)]) with (@nil string) in Hcount.
  cbn [length] in Hcount. fold st0 in Hcount. lia.
Qed.

(** X7: the Planner accounts for every record of the report exactly once: a
    record is passed over without a word (fewer than two occurrences), or
    named by one warning, or put in the plan once; the number printed at the
    end is the number of entries of the plan.  The plan has at most the three
    packages [shared-ui], [shared-utils] and [shared-python], each listed
    once and none empty, and every entry carries the function and the
    occurrences of its record, with the canonical occurrence chosen among
    them and the package decided by the file path parsed from it. *)
Theorem planner_accounts_for_every_record
    (report_path : string) (candidates : list Planner.candidate) :
  let pl := fst (fst (Planner.main report_path candidates)) in
  let out := snd (fst (Planner.main report_path candidates)) in
  length (List.filter too_few candidates) + length (warnings out) + dict_size pl
  = length candidates
  /\ In (Planner.Complete (dict_size pl)) out
  /\ List.NoDup (map fst pl)
  /\ Forall (fun g => In (fst g) ["shared-ui"; "shared-utils"; "shared-python"]
                      /\ snd g <> []) pl
  /\ forall pkg es e, In (pkg, es) pl -> In e es -> entry_from candidates pkg e.
Proof.
  cbv zeta. rewrite main_unfold. cbv zeta. cbn [fst snd]. rewrite dict_size_pairs.
  set (st0 := ([], [Planner.Reading report_path;
                    Planner.FoundGroups (length candidates)])
              : Planner.plan * list Planner.line).
  destruct (loop_accounts candidates candidates st0 (fun c H => H))
    as (Hfrom & [Hnodup Hshape] & Hcount).
  { intros pkg es e []. }
  { split; constructor. }
  repeat split; try assumption.
  - rewrite !warnings_app, !length_app. cbn [st0 fst snd] in Hcount.
    change (dict_size []) with 0 in Hcount.
    change (warnings [Planner.Reading report_path;
                      Planner.FoundGroups (length candidates)]) with (@nil string) in Hcount.
    set (pl := fst (fold_left Planner.step candidates st0)) in *.
    assert (Hw : length (warnings (Planner.print_plan pl)) = 0)
      by (rewrite warnings_print_plan; reflexivity).
    cbn [length] in Hcount. unfold warnings at 2 3 4. cbn [flat_map app length].
    fold (warnings (Planner.print_plan pl)). rewrite Hw. lia.
  - apply in_or_app. right. apply in_or_app. right. apply in_or_app. right.
    left. reflexivity.
Qed.

(** ** Identifiers, declared names and stubs *)

Lemma word_is_safe c : Chars.isword c = true -> Stubs.safe c = true.
Proof.
  destruct c as [[] [] [] [] [] [] [] []]; vm_compute; intros H;
    first [reflexivity | discriminate H].
Qed.

Lemma safe_char_fixed c : Stubs.safe c = true -> Stubs.safe_char c = c.
Proof. unfold Stubs.safe, Stubs.safe_char. intros ->. reflexivity. Qed.

Lemma map_safe_char_fixed s :
  Str.forallb Stubs.safe s = true -> Stubs.map_chars Stubs.safe_char s = s.
Proof.
  induction s as [|c s IH]; cbn [Str.forallb Stubs.map_chars]; [reflexivity|].
  intros H. apply andb_true_iff in H as [Hc Hs].
  rewrite (safe_char_fixed c Hc), (IH Hs). reflexivity.
Qed.

Lemma safe_name_fixed name :
  name <> EmptyString -> Str.forallb Stubs.safe name = true ->
  Stubs.safe_name name = name.
Proof.
  intros Hne Hsafe. rewrite safe_name_unfold.
  destruct (String.eqb name "") eqn:He; [apply String.eqb_eq in He; contradiction|].
  apply map_safe_char_fixed. exact Hsafe.
Qed.

Lemma safe_name_is_safe name :
  Stubs.safe_name name <> EmptyString
  /\ Str.forallb Stubs.safe (Stubs.safe_name name) = true.
Proof.
  rewrite safe_name_unfold. destruct (String.eqb name "") eqn:He.
  - split; [discriminate|reflexivity].
  - split; [|apply map_safe_char_safe].
    apply String.eqb_neq in He. destruct name; [contradiction|discriminate].
Qed.

(** X8: the names that sanitization leaves as they are are exactly the
    non-empty names made of alphanumeric characters and underscores; the
    result of a sanitization is such a name, so sanitizing twice is
    sanitizing once. *)
Theorem safe_name_fixed_points (name : string) :
  (Stubs.safe_name name = name <->
   name <> EmptyString /\ Str.forallb Stubs.safe name = true)
  /\ Stubs.safe_name (Stubs.safe_name name) = Stubs.safe_name name.
Proof.
  destruct (safe_name_is_safe name) as [Hne Hsafe]. split.
  - split.
    + intros H. rewrite H in Hne, Hsafe. split; assumption.
    + intros [H1 H2]. apply safe_name_fixed; assumption.
  - apply safe_name_fixed; assumption.
Qed.

(** X9: the name the extractor gives a block is a non-empty run of ASCII
    letters, digits and underscores (the group of the header pattern), so
    the stub generator uses it unchanged as the identifier of the stub. *)
Theorem block_names_are_identifiers (path : string) (lines : list string) :
  Forall (fun b =>
            Dedupe.b_name b <> EmptyString
            /\ Str.forallb Chars.isword (Dedupe.b_name b) = true
            /\ Stubs.safe_name (Dedupe.b_name b) = Dedupe.b_name b
            /\ Stubs.stub_file (Dedupe.b_name b)
               = String.append (Dedupe.b_name b) ".py")
         (Dedupe.blocks_of path lines).
Proof.
  unfold Dedupe.blocks_of. apply extract_Forall.
  intros i line name _ Hh. cbn [Dedupe.b_name].
  apply header_name_word in Hh as [Hw Hne].
  assert (Hfix : Stubs.safe_name name = name).
  { apply safe_name_fixed; [exact Hne|].
    apply (forallb_impl Chars.isword); [exact word_is_safe|exact Hw]. }
  repeat split; try assumption.
  unfold Stubs.stub_file. rewrite Hfix. reflexivity.
Qed.

Section FirstRecord.

Import Stubs.

Lemma create_stub_other st c f :
  stub_file (Planner.function c) <> f ->
  fst (create_stub st c) !! f = fst st !! f.
Proof.
  intros Hne. destruct st as [dir created]. rewrite create_stub_dir. cbn [fst].
  destruct (dir !! stub_file (Planner.function c)); [reflexivity|].
  apply lookup_insert_ne. exact Hne.
Qed.

Lemma loop_other cs st f :
  Forall (fun c => stub_file (Planner.function c) <> f) cs ->
  fst (fold_left create_stub cs st) !! f = fst st !! f.
Proof.
  revert st. induction cs as [|c cs IH]; intros st Hall; [reflexivity|].
  inversion Hall; subst. cbn [fold_left]. rewrite IH; [|assumption].
  apply create_stub_other. assumption.
Qed.

Lemma create_stub_reports st c :
  fst st !! stub_file (Planner.function c) = None ->
  create_stub st c
  = (<[stub_file (Planner.function c) :=
         stub_text (Planner.function c) (Planner.occurrences c)]> (fst st),
     snd st ++ [stub_file (Planner.function c)]).
Proof. destruct st as [dir created]. cbn [fst snd create_stub]. intros ->. reflexivity. Qed.

Lemma create_stub_keeps_reported st c f :
  In f (snd st) -> In f (snd (create_stub st c)).
Proof.
  destruct st as [dir created]. cbn [snd create_stub].
  destruct (dir !! stub_file (Planner.function c)); cbn [snd]; [tauto|].
  intros H. apply in_or_app. left. exact H.
Qed.

Lemma loop_keeps_reported cs st f :
  In f (snd st) -> In f (snd (fold_left create_stub cs st)).
Proof.
  revert st. induction cs as [|c cs IH]; intros st H; [exact H|].
  cbn [fold_left]. apply IH, create_stub_keeps_reported, H.
Qed.

Lemma first_with_file (cs : list Planner.candidate) c :
  In c cs ->
  exists before c0 after,
    cs = before ++ c0 :: after
    /\ Forall (fun c' => stub_file (Planner.function c')
                         <> stub_file (Planner.function c)) before
    /\ stub_file (Planner.function c0) = stub_file (Planner.function c).
Proof.
  induction cs as [|c1 cs IH]; intros Hin; [destruct Hin|].
  destruct (decide (stub_file (Planner.function c1) = stub_file (Planner.function c)))
    as [Heq|Hne].
  - exists [], c1, cs. repeat split; [constructor|exact Heq].
  - destruct Hin as [->|Hin]; [contradiction|].
    destruct (IH Hin) as (before & c0 & after & -> & Hall & Heq).
    exists (c1 :: before), c0, after. repeat split; [constructor; assumption|exact Heq].
Qed.

End FirstRecord.

(** X10: when several records of a run have the same sanitized identifier
    and no stub of that name exists yet, the stub is written for the first
    of them: it names the declared name and the occurrences of that record,
    the later ones leave it as it is, and the file is reported as created. *)
Theorem first_record_writes_the_stub
    (candidates : list Planner.candidate) (dir : gmap string string)
    (c : Planner.candidate) :
  In c candidates ->
  dir !! Stubs.stub_file (Planner.function c) = None ->
  exists before c0 after,
    candidates = before ++ c0 :: after
    /\ Forall (fun c' => Stubs.stub_file (Planner.function c')
                         <> Stubs.stub_file (Planner.function c)) before
    /\ Stubs.stub_file (Planner.function c0) = Stubs.stub_file (Planner.function c)
    /\ fst (Stubs.create_stubs candidates dir) !! Stubs.stub_file (Planner.function c)
       = Some (Stubs.stub_text (Planner.function c0) (Planner.occurrences c0))
    /\ In (Stubs.stub_file (Planner.function c))
          (snd (Stubs.create_stubs candidates dir)).
Proof.
  intros Hin Hnone.
  destruct (first_with_file candidates c Hin) as (before & c0 & after & -> & Hall & Heq).
  exists before, c0, after. repeat split; try assumption.
  - unfold Stubs.create_stubs. rewrite fold_left_app. cbn [fold_left].
    apply loop_keeps.
    set (st := fold_left Stubs.create_stub before (dir, [])).
    assert (Hst : fst st !! Stubs.stub_file (Planner.function c0) = None).
    { rewrite Heq. unfold st. rewrite loop_other; [exact Hnone|exact Hall]. }
    rewrite (create_stub_reports st c0 Hst). cbn [fst]. rewrite <- Heq.
    apply lookup_insert_eq.
  - unfold Stubs.create_stubs. rewrite fold_left_app. cbn [fold_left].
    apply loop_keeps_reported.
    set (st := fold_left Stubs.create_stub before (dir, [])).
    assert (Hst : fst st !! Stubs.stub_file (Planner.function c0) = None).
    { rewrite Heq. unfold st. rewrite loop_other; [exact Hnone|exact Hall]. }
    rewrite (create_stub_reports st c0 Hst). cbn [snd]. rewrite <- Heq.
    apply in_or_app. right. left. reflexivity.
Qed.

Lemma first_record_writes_the_stub_witness :
  exists before c0 after,
    [Planner.Candidate "a+b" ["x.py:1-2"]; Planner.Candidate "a-b" ["y.py:3-4"]]
    = before ++ c0 :: after
    /\ Forall (fun c' => Stubs.stub_file (Planner.function c')
                         <> Stubs.stub_file "a-b") before
    /\ Stubs.stub_file (Planner.function c0) = Stubs.stub_file "a-b"
    /\ fst (Stubs.create_stubs
              [Planner.Candidate "a+b" ["x.py:1-2"]; Planner.Candidate "a-b" ["y.py:3-4"]]
              ∅) !! Stubs.stub_file "a-b"
       = Some (Stubs.stub_text (Planner.function c0) (Planner.occurrences c0))
    /\ In (Stubs.stub_file "a-b")
          (snd (Stubs.create_stubs
                  [Planner.Candidate "a+b" ["x.py:1-2"];
                   Planner.Candidate "a-b" ["y.py:3-4"]] ∅)).
Proof.
  apply (first_record_writes_the_stub
           [Planner.Candidate "a+b" ["x.py:1-2"]; Planner.Candidate "a-b" ["y.py:3-4"]]
           ∅ (Planner.Candidate "a-b" ["y.py:3-4"])).
  - right. left. reflexivity.
  - reflexivity.
Defined.

(** ** The table of the scan *)

Section TableProps.

Import Dedupe.

Lemma collect_size_from rs (tbl : table) :
  dict_size (fold_left record_found rs tbl) = length rs + dict_size tbl.
Proof.
  revert tbl. induction rs as [|r rs IH]; intros tbl; cbn [fold_left length].
  - reflexivity.
  - rewrite IH, record_found_unfold, dict_size_append. lia.
Qed.

Lemma collect_nonempty_from rs (tbl : table) :
  Forall (fun g => snd g <> []) tbl ->
  Forall (fun g => snd g <> []) (fold_left record_found rs tbl).
Proof.
  revert tbl. induction rs as [|r rs IH]; intros tbl H; cbn [fold_left].
  - exact H.
  - apply IH. rewrite record_found_unfold. apply dict_append_nonempty. exact H.
Qed.

End TableProps.

(** X11: the table that the scan builds partitions the blocks found by name
    and digest.  No key is listed twice and no group is empty; the group of
    a key holds the occurrences of exactly the blocks found with that name
    and that digest, in the order of discovery; every block found is in the
    group of its name and digest; and the groups together hold as many
    occurrences as there are blocks found. *)
Theorem groups_partition_found_blocks (root : string) (t : Dedupe.tree) :
  let tbl := Dedupe.collect root t in
  let rs := Dedupe.all_found root t in
  List.NoDup (map fst tbl)
  /\ Forall (fun g => snd g <> []) tbl
  /\ (forall k occs,
         In (k, occs) tbl <->
         occs <> []
         /\ occs = map occurrence_of
                       (List.filter (fun r => bool_decide (key_of r = k)) rs))
  /\ (forall r, In r rs ->
                exists occs, In (key_of r, occs) tbl /\ In (occurrence_of r) occs)
  /\ dict_size tbl = length rs.
Proof.
  cbv zeta. split; [apply collect_keys_nodup|]. split; [|split; [|split]].
  - apply collect_nonempty_from. constructor.
  - intros k occs.
    rewrite (dict_In_get k occs _ (collect_keys_nodup root t)), collect_get.
    destruct (map occurrence_of _) as [|o l]; split.
    + discriminate.
    + intros [Hne ->]. contradiction.
    + intros H. injection H as <-. split; [discriminate|reflexivity].
    + intros [_ ->]. reflexivity.
  - intros r Hr. apply found_is_recorded. exact Hr.
  - unfold Dedupe.collect. rewrite collect_size_from.
    change (dict_size []) with 0. lia.
Qed.

(** ** Digests and the text of a block *)

Lemma encode_utf8_append a b :
  encode_utf8 (String.append a b) = encode_utf8 a ++ encode_utf8 b.
Proof.
  induction a as [|c a IH]; [reflexivity|].
  rewrite append_String. cbn [encode_utf8]. rewrite IH.
  destruct (Chars.code c <? 128)%N; reflexivity.
Qed.

Lemma encode_utf8_concat ls :
  flat_map encode_utf8 ls = encode_utf8 (Str.concat ls).
Proof.
  induction ls as [|l ls IH]; [reflexivity|].
  cbn [flat_map Str.concat]. rewrite encode_utf8_append, IH. reflexivity.
Qed.

(** The sixteen digits of [hexdigest]. *)
Definition ishex (c : ascii) : bool := Chars.isdigit c || Chars.between 97 102 c.

Lemma hex_digit_hex z : ishex (Sha256.hex_digit (N.land z 0xf)) = true.
Proof.
  assert (H : (N.land z 0xf < 16)%N).
  { change 0xf%N with (N.ones 4). rewrite N.land_ones. apply N.mod_lt. discriminate. }
  set (y := N.land z 0xf) in *.
  assert (Hy : (y = 0 \/ y = 1 \/ y = 2 \/ y = 3 \/ y = 4 \/ y = 5 \/ y = 6 \/ y = 7
                \/ y = 8 \/ y = 9 \/ y = 10 \/ y = 11 \/ y = 12 \/ y = 13 \/ y = 14
                \/ y = 15)%N) by lia.
  repeat (destruct Hy as [->|Hy]; [vm_compute; reflexivity|]).
  rewrite Hy. vm_compute. reflexivity.
Qed.

Lemma hex_word_hex x :
  String.length (Sha256.hex_word x) = 8
  /\ Str.forallb ishex (Sha256.hex_word x) = true.
Proof.
  unfold Sha256.hex_word. change (rev (seq 0 8)) with [7; 6; 5; 4; 3; 2; 1; 0].
  cbn [fold_right String.length Str.forallb]. split; [reflexivity|].
  rewrite !hex_digit_hex. reflexivity.
Qed.

Lemma hex_words_hex ws :
  String.length (Str.concat (map Sha256.hex_word ws)) = 8 * length ws
  /\ Str.forallb ishex (Str.concat (map Sha256.hex_word ws)) = true.
Proof.
  induction ws as [|w ws [IHl IHh]]; [split; reflexivity|].
  cbn [map Str.concat length]. destruct (hex_word_hex w) as [Hl Hh].
  rewrite length_append, forallb_append, Hl, IHl, Hh, IHh. split; [lia|reflexivity].
Qed.

Lemma digest_words_length msg : length (Sha256.digest_words msg) = 8.
Proof. reflexivity. Qed.

(** X12: the digest of a block is the SHA-256 digest of the text made by
    putting its raw lines end to end, written as 64 digits among [0-9a-f]:
    how the text is cut into lines plays no part. *)
Theorem digest_of_concatenated_lines (lines : list string) :
  Dedupe.hash_block lines = Sha256.hexdigest (encode_utf8 (Str.concat lines))
  /\ Dedupe.hash_block lines = Dedupe.hash_block [Str.concat lines]
  /\ String.length (Dedupe.hash_block lines) = 64
  /\ Str.forallb ishex (Dedupe.hash_block lines) = true.
Proof.
  unfold Dedupe.hash_block. rewrite !encode_utf8_concat.
  cbn [Str.concat]. rewrite append_empty_r.
  split; [reflexivity|split; [reflexivity|]].
  unfold Sha256.hexdigest.
  destruct (hex_words_hex (Sha256.digest_words (encode_utf8 (Str.concat lines))))
    as [Hl Hh].
  rewrite Hl, Hh, digest_words_length. split; reflexivity.
Qed.

(** ** Reading an occurrence back *)



(** ** What a parsed occurrence says about the string *)

(** X14: [parse_occurrence] succeeds only on a string that starts with a
    non-empty path without line feed, a colon, decimal digits, a dash and
    decimal digits; the numbers returned are the values of the two runs of
    digits.  What follows the second number is not looked at. *)
Theorem parse_occurrence_sound (s path : string) (start end_ : nat) :
  parse_occurrence s = Some (path, start, end_) ->
  exists ds de rest,
    s = String.append path
          (String ":" (String.append ds (String "-" (String.append de rest))))
    /\ path <> EmptyString
    /\ Str.forallb Chars.isdot path = true
    /\ Str.forallb Chars.isdigit ds = true
    /\ Str.forallb Chars.isdigit de = true
    /\ Str.to_nat ds = Some start
    /\ Str.to_nat de = Some end_.
Proof.
  unfold parse_occurrence, occurrence_re. intros H.
  destruct (Re.pmatch _ s) as [[|fp [|g2 [|g3 [|? ?]]]]|] eqn:Hm; try discriminate.
  destruct (Str.to_nat g2) as [a|] eqn:Ha; [|discriminate].
  destruct (Str.to_nat g3) as [b|] eqn:Hb; [|discriminate].
  injection H as -> -> ->.
  rewrite pmatch_rep in Hm.
  apply rep_inv in Hm as (d & r1 & gs1 & -> & Hd & Hdne & Hk1 & Heq1).
  injection Heq1 as Hfp <-. change (String.append EmptyString d) with d in Hfp.
  subst path.
  destruct r1 as [|c r1]; [discriminate|]. rewrite pmatch_lit in Hk1.
  destruct (Ascii.eqb ":" c) eqn:Hc; [|discriminate]. apply Ascii.eqb_eq in Hc as <-.
  rewrite pmatch_rep in Hk1.
  apply rep_inv in Hk1 as (ds & r2 & gs2 & -> & Hds & _ & Hk2 & Heq2).
  injection Heq2 as Hg2 <-. change (String.append EmptyString ds) with ds in Hg2.
  subst g2.
  destruct r2 as [|c r2]; [discriminate|]. rewrite pmatch_lit in Hk2.
  destruct (Ascii.eqb "-" c) eqn:Hc; [|discriminate]. apply Ascii.eqb_eq in Hc as <-.
  rewrite pmatch_rep in Hk2.
  apply rep_inv in Hk2 as (de & r3 & gs3 & -> & Hde & _ & Hk3 & Heq3).
  injection Heq3 as Hg3 _. change (String.append EmptyString de) with de in Hg3.
  subst g3.
  exists ds, de, r3. repeat split; try assumption.
  apply Hdne. reflexivity.
Qed.

Lemma parse_occurrence_sound_witness :
  exists ds de rest,
    "C:/x.py:03-7, as above"
    = String.append "C:/x.py"
        (String ":" (String.append ds (String "-" (String.append de rest))))
    /\ "C:/x.py" <> EmptyString
    /\ Str.forallb Chars.isdot "C:/x.py" = true
    /\ Str.forallb Chars.isdigit ds = true
    /\ Str.forallb Chars.isdigit de = true
    /\ Str.to_nat ds = Some 3
    /\ Str.to_nat de = Some 7.
Proof.
  apply (parse_occurrence_sound "C:/x.py:03-7, as above" "C:/x.py" 3 7).
  vm_compute. reflexivity.
Defined.

(** ** The text of the scan, read by [parse_dedupe_output] *)

Definition no_linebreak (s : string) : bool :=
  Str.forallb (fun c => negb (Chars.islinebreak c)) s.

Definition lf : ascii := ascii_of_N 10.

Lemma splitlines_line cur l rest :
  no_linebreak l = true ->
  Str.splitlines_from false cur (String.append l (String lf rest))
  = String.append cur l :: Str.splitlines_from false EmptyString rest.
Proof.
  unfold no_linebreak. revert cur. induction l as [|c l IH]; intros cur Hl.
  - rewrite append_empty_r. reflexivity.
  - cbn [Str.forallb] in Hl. apply andb_true_iff in Hl as [Hc Hl].
    apply negb_true_iff in Hc.
    rewrite append_String. cbn [Str.splitlines_from andb]. rewrite Hc.
    rewrite (IH _ Hl), append_cons_assoc. reflexivity.
Qed.

(** Printing lines that hold no line boundary and splitting the text gives
    the lines back. *)
Lemma splitlines_stdout_text out :
  Forall (fun l => no_linebreak l = true) out ->
  Str.splitlines (Consolidate.stdout_text out) = out.
Proof.
  unfold Str.splitlines, Consolidate.stdout_text.
  induction 1 as [|l out Hl _ IH]; [reflexivity|].
  cbn [map Str.concat]. unfold nl at 1. fold lf.
  rewrite append_assoc3, append_String.
  change (String.append EmptyString ?x) with x.
  rewrite (splitlines_line EmptyString l _ Hl), IH. reflexivity.
Qed.

(** *** [strip] *)

Lemma lstrip_spaces sp s :
  Str.forallb Chars.isspace sp = true ->
  Str.lstrip (String.append sp s) = Str.lstrip s.
Proof.
  induction sp as [|c sp IH]; [reflexivity|].
  cbn [Str.forallb]. intros H. apply andb_true_iff in H as [Hc Hsp].
  rewrite append_String. cbn [Str.lstrip]. rewrite Hc. apply IH. exact Hsp.
Qed.

(** A string that starts with a character that is not white space. *)
Definition starts_black (s : string) : bool :=
  match s with
  | EmptyString => false
  | String c _ => negb (Chars.isspace c)
  end.

Lemma lstrip_black s : starts_black s = true -> Str.lstrip s = s.
Proof.
  destruct s as [|c s]; [discriminate|]. cbn [starts_black Str.lstrip].
  intros H. apply negb_true_iff in H. rewrite H. reflexivity.
Qed.

Lemma starts_black_append a b :
  starts_black a = true -> starts_black (String.append a b) = true.
Proof. destruct a; [discriminate|]. rewrite append_String. exact (fun H => H). Qed.

(** A string with something that is not white space at both ends is left
    alone by [strip], and white space around it is removed. *)
Lemma strip_around sp1 s sp2 :
  Str.forallb Chars.isspace sp1 = true ->
  Str.forallb Chars.isspace sp2 = true ->
  starts_black s = true -> starts_black (Str.rev s) = true ->
  Str.strip (String.append sp1 (String.append s sp2)) = s.
Proof.
  intros H1 H2 Hs Hr. unfold Str.strip.
  rewrite (lstrip_spaces sp1 _ H1).
  rewrite (lstrip_black (String.append s sp2)) by (apply starts_black_append; exact Hs).
  rewrite rev_append, lstrip_spaces.
  - rewrite (lstrip_black _ Hr). apply rev_involutive.
  - clear -H2. induction sp2 as [|c sp IH]; [reflexivity|].
    cbn [Str.forallb] in H2. apply andb_true_iff in H2 as [Hc Hsp].
    rewrite rev_String, forallb_append, (IH Hsp). cbn [Str.forallb]. rewrite Hc.
    reflexivity.
Qed.

Lemma strip_black s :
  starts_black s = true -> starts_black (Str.rev s) = true -> Str.strip s = s.
Proof.
  intros Hs Hr.
  rewrite <- (strip_around EmptyString s EmptyString eq_refl eq_refl Hs Hr) at 2.
  rewrite append_empty_r. reflexivity.
Qed.

Lemma forallb_rev p s : Str.forallb p (Str.rev s) = Str.forallb p s.
Proof.
  induction s as [|c s IH]; [reflexivity|].
  rewrite rev_String, forallb_append, IH. cbn [Str.forallb].
  rewrite andb_true_r. apply andb_comm.
Qed.

Lemma rev_nonempty s : s <> EmptyString -> Str.rev s <> EmptyString.
Proof.
  intros Hne Hrev. apply Hne. rewrite <- (rev_involutive s), Hrev. reflexivity.
Qed.

(** A non-empty string of characters none of which is white space has
    something that is not white space at both ends. *)
Lemma black_ends s :
  s <> EmptyString ->
  Str.forallb (fun c => negb (Chars.isspace c)) s = true ->
  starts_black s = true /\ starts_black (Str.rev s) = true.
Proof.
  intros Hne Hall. split.
  - destruct s as [|c s]; [contradiction|]. cbn [Str.forallb] in Hall.
    apply andb_true_iff in Hall as [Hc _]. exact Hc.
  - pose proof (rev_nonempty s Hne) as Hr. rewrite <- forallb_rev in Hall.
    destruct (Str.rev s) as [|c r]; [contradiction|]. cbn [Str.forallb] in Hall.
    apply andb_true_iff in Hall as [Hc _]. exact Hc.
Qed.

Lemma starts_black_rev_append a b :
  starts_black (Str.rev b) = true -> starts_black (Str.rev (String.append a b)) = true.
Proof. intros H. rewrite rev_append. apply starts_black_append. exact H. Qed.

(** *** Characters of names, digests and numbers *)

Lemma word_facts c :
  Chars.isword c = true ->
  Chars.isspace c = false /\ Ascii.eqb c "(" = false /\ Chars.islinebreak c = false.
Proof.
  destruct c as [[] [] [] [] [] [] [] []]; vm_compute; intros H;
    first [discriminate H | repeat split].
Qed.

Lemma hex_facts c : ishex c = true -> Chars.islinebreak c = false.
Proof.
  destruct c as [[] [] [] [] [] [] [] []]; vm_compute; intros H;
    first [discriminate H | reflexivity].
Qed.

Lemma digit_facts c :
  Chars.isdigit c = true -> Chars.isspace c = false /\ Chars.islinebreak c = false.
Proof.
  destruct c as [[] [] [] [] [] [] [] []]; vm_compute; intros H;
    first [discriminate H | repeat split].
Qed.

Lemma no_linebreak_append a b :
  no_linebreak (String.append a b) = no_linebreak a && no_linebreak b.
Proof. apply forallb_append. Qed.

Lemma digits_no_linebreak n : no_linebreak (Str.of_nat n) = true.
Proof.
  apply (forallb_impl Chars.isdigit); [|apply of_nat_digits].
  intros c Hc. apply negb_true_iff. apply (digit_facts c Hc).
Qed.

Lemma digits_black_end n : starts_black (Str.rev (Str.of_nat n)) = true.
Proof.
  apply black_ends; [apply of_nat_nonempty|].
  apply (forallb_impl Chars.isdigit); [|apply of_nat_digits].
  intros c Hc. apply negb_true_iff. apply (digit_facts c Hc).
Qed.

(** *** The lines of the report, one by one *)

Lemma split_nonempty sep s : Planner.split sep s <> [].
Proof.
  induction s as [|c s IH]; cbn [Planner.split]; [discriminate|].
  destruct (Planner.split sep s); [contradiction|].
  destruct (Ascii.eqb c sep); discriminate.
Qed.

(** [s.split(sep)[0]] is what comes before the first separator. *)
Lemma split_hd_append sep a b :
  Str.forallb (fun c => negb (Ascii.eqb c sep)) a = true ->
  hd EmptyString (Planner.split sep (String.append a b))
  = String.append a (hd EmptyString (Planner.split sep b)).
Proof.
  induction a as [|c a IH]; [reflexivity|].
  cbn [Str.forallb]. intros H. apply andb_true_iff in H as [Hc Ha].
  apply negb_true_iff in Hc. rewrite !append_String. cbn [Planner.split].
  specialize (IH Ha).
  pose proof (split_nonempty sep (String.append a b)) as Hne.
  destruct (Planner.split sep (String.append a b)) as [|part parts]; [contradiction|].
  rewrite Hc. cbn [hd] in *. rewrite IH. reflexivity.
Qed.

Lemma split_hd_sep sep b :
  hd EmptyString (Planner.split sep (String sep b)) = EmptyString.
Proof.
  cbn [Planner.split]. pose proof (split_nonempty sep b) as Hne.
  destruct (Planner.split sep b); [contradiction|].
  rewrite Ascii.eqb_refl. reflexivity.
Qed.

Definition header_text (name h : string) : string :=
  Dedupe.render (Dedupe.DuplicateCandidate name h).

Lemma header_line name h :
  name <> EmptyString -> Str.forallb Chars.isword name = true ->
  Str.strip (header_text name h) = header_text name h
  /\ Str.startswith "Duplicate candidate:" (header_text name h) = true
  /\ Consolidate.function_name (header_text name h) = name.
Proof.
  intros Hne Hw. split; [|split].
  - apply strip_black; [reflexivity|].
    unfold header_text, Dedupe.render. cbn [Str.concat].
    do 4 apply starts_black_rev_append. reflexivity.
  - reflexivity.
  - unfold Consolidate.function_name, header_text, Dedupe.render. cbn [Str.concat].
    change (Str.split_once ":"
              (String.append "Duplicate candidate: "
                 (String.append name
                    (String.append " (hash "
                       (String.append h (String.append ") found in:" ""))))))
      with ["Duplicate candidate";
            String.append " "
              (String.append name
                 (String.append " "
                    (String "("
                       (String.append "hash "
                          (String.append h (String.append ") found in:" ""))))))].
    cbv beta iota.
    rewrite (split_hd_append "(" " ") by reflexivity.
    rewrite (split_hd_append "(" name).
    2:{ apply (forallb_impl Chars.isword); [|exact Hw].
        intros c Hc. apply negb_true_iff. apply (word_facts c Hc). }
    rewrite (split_hd_append "(" " ") by reflexivity.
    rewrite split_hd_sep.
    assert (Hblack : Str.forallb (fun c => negb (Chars.isspace c)) name = true).
    { apply (forallb_impl Chars.isword); [|exact Hw].
      intros c Hc. apply negb_true_iff. apply (word_facts c Hc). }
    destruct (black_ends name Hne Hblack) as [Hs Hr].
    apply (strip_around " " name (String.append " " "")); try assumption; reflexivity.
Qed.

(** The first character of a path is neither white space nor a dash. *)
Definition clean_start (p : string) : bool :=
  match p with
  | EmptyString => true
  | String c _ => negb (Chars.isspace c) && negb (Ascii.eqb c "-")
  end.

Definition occurrence_line (path : string) (start end_ : nat) : string :=
  Dedupe.render (Dedupe.FoundAt path start end_).

Lemma format_black_end path start end_ :
  starts_black (Str.rev (format_occurrence path start end_)) = true.
Proof.
  unfold format_occurrence. do 4 apply starts_black_rev_append.
  apply digits_black_end.
Qed.

Lemma format_black_start path start end_ :
  clean_start path = true ->
  starts_black (format_occurrence path start end_) = true
  /\ Str.lstrip_chars "- " (format_occurrence path start end_)
     = format_occurrence path start end_.
Proof.
  unfold format_occurrence. destruct path as [|c path]; intros Hc.
  - split; reflexivity.
  - cbn [clean_start] in Hc. apply andb_true_iff in Hc as [Hsp Hdash].
    rewrite append_String. split; [exact Hsp|].
    cbn [Str.lstrip_chars Str.contains Str.startswith].
    apply negb_true_iff in Hdash. rewrite Hdash.
    destruct (Ascii.eqb c " ") eqn:Hspace; [|reflexivity].
    apply Ascii.eqb_eq in Hspace. subst c. discriminate Hsp.
Qed.

Lemma occurrence_line_parts path start end_ :
  clean_start path = true ->
  Str.startswith "-" (Str.strip (occurrence_line path start end_)) = true
  /\ Consolidate.occurrence_text (occurrence_line path start end_)
     = format_occurrence path start end_.
Proof.
  intros Hc. unfold Consolidate.occurrence_text, occurrence_line, Dedupe.render.
  destruct (format_black_start path start end_ Hc) as [Hs Hl].
  pose proof (format_black_end path start end_) as Hr.
  set (occ := format_occurrence path start end_) in *.
  assert (Hstrip : Str.strip (String.append "  - " occ) = String.append "- " occ).
  { change (String.append "  - " occ)
      with (String.append "  " (String.append "- " occ)).
    rewrite <- (append_empty_r (String.append "- " occ)) at 1.
    apply strip_around; try reflexivity.
    apply starts_black_rev_append. exact Hr. }
  rewrite Hstrip. split; [reflexivity|].
  change (Str.lstrip_chars "- " (String.append "- " occ))
    with (Str.lstrip_chars "- " occ).
  rewrite Hl. apply strip_black; assumption.
Qed.

Lemma files_after_run occs rest :
  Forall (fun o => clean_start (fst (fst o)) = true) occs ->
  Consolidate.files_after
    (map (fun '(path, start, end_) => occurrence_line path start end_) occs
     ++ EmptyString :: rest)
  = map (fun '(path, start, end_) => occurrence_line path start end_) occs.
Proof.
  induction 1 as [|[[path start] end_] occs Hc _ IH]; cbn [map app Consolidate.files_after].
  - reflexivity.
  - cbn [fst] in Hc.
    rewrite (proj1 (occurrence_line_parts path start end_ Hc)), IH. reflexivity.
Qed.

(** *** Groups *)

(** The record that the report holds for a group of the table. *)
Definition to_candidate (g : Dedupe.key * list Dedupe.occurrence) : Planner.candidate :=
  Planner.Candidate (fst (fst g))
    (map (fun '(path, start, end_) => format_occurrence path start end_) (snd g)).

Definition clean_group (g : Dedupe.key * list Dedupe.occurrence) : Prop :=
  fst (fst g) <> EmptyString
  /\ Str.forallb Chars.isword (fst (fst g)) = true
  /\ Forall (fun o => clean_start (fst (fst o)) = true) (snd g).

Lemma render_group g :
  map Dedupe.render (group_lines g)
  = header_text (fst (fst g)) (snd (fst g))
    :: map (fun '(path, start, end_) => occurrence_line path start end_) (snd g)
    ++ [EmptyString].
Proof.
  unfold group_lines. cbn [map]. rewrite map_app, map_map. cbn [map].
  f_equal. f_equal. apply map_ext. intros [[path start] end_]. reflexivity.
Qed.

Lemma parse_group fuel g rest :
  clean_group g ->
  Consolidate.parse_lines (S (S fuel)) (map Dedupe.render (group_lines g) ++ rest)
  = to_candidate g :: Consolidate.parse_lines fuel rest.
Proof.
  intros (Hne & Hw & Hocc). rewrite render_group.
  destruct (header_line (fst (fst g)) (snd (fst g)) Hne Hw) as (Hstrip & Hstart & Hname).
  cbn [app Consolidate.parse_lines]. rewrite Hstrip, Hstart, Hname.
  rewrite <- app_assoc. cbn [app].
  rewrite (files_after_run (snd g) rest Hocc).
  rewrite List.skipn_app, List.skipn_all, Nat.sub_diag. cbn [app skipn].
  change (Str.startswith "Duplicate candidate:" (Str.strip EmptyString)) with false.
  cbv beta iota. unfold to_candidate. f_equal. f_equal.
  rewrite map_map. apply map_ext_in. intros [[path start] end_] Hin.
  rewrite List.Forall_forall in Hocc. specialize (Hocc _ Hin). cbn [fst] in Hocc.
  apply (occurrence_line_parts path start end_ Hocc).
Qed.

Lemma parse_groups fuel gs final :
  Forall clean_group gs ->
  2 * length gs <= fuel ->
  Str.startswith "Duplicate candidate:" (Str.strip final) = false ->
  Consolidate.parse_lines fuel
    (flat_map (fun g => map Dedupe.render (group_lines g)) gs ++ [final])
  = map to_candidate gs.
Proof.
  intros Hgs. revert fuel. induction Hgs as [|g gs Hg _ IH]; intros fuel Hfuel Hfinal.
  - cbn [flat_map app map]. destruct fuel as [|fuel]; [reflexivity|].
    cbn [Consolidate.parse_lines]. rewrite Hfinal. destruct fuel; reflexivity.
  - cbn [length] in Hfuel. destruct fuel as [|[|fuel]]; [lia|lia|].
    cbn [flat_map map]. rewrite <- app_assoc, (parse_group fuel g _ Hg).
    rewrite IH; [reflexivity|lia|exact Hfinal].
Qed.

Lemma final_line_is_no_header n :
  Str.startswith "Duplicate candidate:"
    (Str.strip (Dedupe.render (if (n =? 0)%nat then Dedupe.NoDuplicates
                               else Dedupe.FoundCount n))) = false.
Proof.
  destruct (n =? 0)%nat; [vm_compute; reflexivity|].
  rewrite strip_black; [reflexivity|reflexivity|].
  unfold Dedupe.render. cbn [Str.concat]. do 2 apply starts_black_rev_append.
  reflexivity.
Qed.

Lemma final_line_no_linebreak n :
  no_linebreak (Dedupe.render (if (n =? 0)%nat then Dedupe.NoDuplicates
                               else Dedupe.FoundCount n)) = true.
Proof.
  destruct (n =? 0)%nat; [vm_compute; reflexivity|].
  unfold Dedupe.render. cbn [Str.concat].
  rewrite !no_linebreak_append, digits_no_linebreak. reflexivity.
Qed.

Lemma group_no_linebreak g :
  Str.forallb Chars.isword (fst (fst g)) = true ->
  no_linebreak (snd (fst g)) = true ->
  Forall (fun o => no_linebreak (fst (fst o)) = true) (snd g) ->
  Forall (fun l => no_linebreak l = true) (map Dedupe.render (group_lines g)).
Proof.
  intros Hw Hh Hocc. rewrite render_group.
  destruct g as [[name h] occs]. cbn [fst snd] in *. constructor.
  - unfold header_text, Dedupe.render. cbn [Str.concat].
    assert (Hname : no_linebreak name = true).
    { apply (forallb_impl Chars.isword); [|exact Hw].
      intros c Hc. apply negb_true_iff. apply (word_facts c Hc). }
    rewrite !no_linebreak_append, Hh, Hname. reflexivity.
  - apply List.Forall_app. split; [|constructor; [reflexivity|constructor]].
    apply List.Forall_map. apply (List.Forall_impl _ (P := fun o => no_linebreak (fst (fst o)) = true));
      [|exact Hocc].
    intros [[path start] end_] Hp. cbn [fst] in Hp.
    unfold occurrence_line, Dedupe.render, format_occurrence.
    rewrite !no_linebreak_append, Hp, !digits_no_linebreak. reflexivity.
Qed.

Lemma map_flat_map {A B C : Type} (f : B -> C) (g : A -> list B) l :
  map f (flat_map g l) = flat_map (fun a => map f (g a)) l.
Proof.
  induction l as [|a l IH]; [reflexivity|].
  cbn [flat_map]. rewrite map_app, IH. reflexivity.
Qed.

(** The text printed for a table is read back as the records of its
    duplicated groups. *)
Lemma table_parses_back (tbl : Dedupe.table) :
  Forall (fun g => clean_group g
                   /\ no_linebreak (snd (fst g)) = true
                   /\ Forall (fun o => no_linebreak (fst (fst o)) = true) (snd g))
         (List.filter duplicated tbl) ->
  Consolidate.parse_dedupe_output
    (Consolidate.stdout_text (map Dedupe.render (snd (Dedupe.print_duplicates tbl))))
  = map to_candidate (List.filter duplicated tbl).
Proof.
  intros Hclean. rewrite print_duplicates_unfold. cbn [snd].
  set (gs := List.filter duplicated tbl) in *.
  set (final := Dedupe.render (if (length gs =? 0)%nat then Dedupe.NoDuplicates
                               else Dedupe.FoundCount (length gs))).
  unfold Consolidate.parse_dedupe_output.
  rewrite map_app, map_flat_map. cbn [map]. fold final.
  rewrite splitlines_stdout_text.
  - apply parse_groups.
    + apply (List.Forall_impl _ (P := fun g => clean_group g
                   /\ no_linebreak (snd (fst g)) = true
                   /\ Forall (fun o => no_linebreak (fst (fst o)) = true) (snd g)));
        [|exact Hclean].
      intros g Hg. apply Hg.
    + rewrite length_app. cbn [length].
      assert (2 * length gs
              <= length (flat_map (fun g => map Dedupe.render (group_lines g)) gs)).
      { clear. induction gs as [|g gs IH]; [cbn; lia|].
        cbn [flat_map length]. rewrite length_app, render_group. cbn [length].
        rewrite length_app. cbn [length]. lia. }
      lia.
    + apply final_line_is_no_header.
  - apply List.Forall_app. split; [|constructor; [apply final_line_no_linebreak|constructor]].
    apply List.Forall_flat_map.
    apply (List.Forall_impl _ (P := fun g => clean_group g
                   /\ no_linebreak (snd (fst g)) = true
                   /\ Forall (fun o => no_linebreak (fst (fst o)) = true) (snd g)));
      [|exact Hclean].
    intros g ((_ & Hw & _) & Hh & Hocc). apply group_no_linebreak; assumption.
Qed.

(** ** From the scan to the report, the plan and the stubs *)

Section FromTheScan.

Import Dedupe.

Lemma found_origin root t r :
  In r (all_found root t) ->
  exists p lines b,
    In (p, lines) (scanned_files root t)
    /\ In b (blocks_of p lines)
    /\ r = (b_name b, hash_block (b_lines b), b_start b, b_end b, p).
Proof.
  unfold all_found. intros H. apply in_flat_map in H as ([p lines] & Hf & Hr).
  unfold scan_file in Hr. apply in_map_iff in Hr as (b & <- & Hb).
  exists p, lines, b. repeat split; assumption.
Qed.

Lemma blocks_named_by_words path lines :
  Forall (fun b => b_name b <> EmptyString
                   /\ Str.forallb Chars.isword (b_name b) = true)
         (blocks_of path lines).
Proof.
  unfold blocks_of. apply extract_Forall. intros i line name _ Hh.
  cbn [b_name]. apply header_name_word in Hh as [Hw Hne]. split; assumption.
Qed.

Lemma hash_block_no_linebreak ls : no_linebreak (hash_block ls) = true.
Proof.
  unfold hash_block, Sha256.hexdigest.
  apply (forallb_impl ishex); [|apply hex_words_hex].
  intros c Hc. apply negb_true_iff. apply (hex_facts c Hc).
Qed.

Lemma scanned_path_nonempty root t p lines :
  In (p, lines) (scanned_files root t) -> p <> EmptyString.
Proof.
  unfold scanned_files. intros H.
  apply in_flat_map in H as ([dirpath fs] & _ & H).
  destruct (skipped dirpath); [destruct H|].
  apply in_flat_map in H as ([fn ls] & _ & H).
  destruct (supported fn) eqn:Hs; [|destruct H].
  destruct H as [Heq|[]]. injection Heq as <- _.
  destruct fn as [|c fn]; [discriminate Hs|].
  unfold join. destruct (Str.startswith "/" (String c fn)); [discriminate|].
  destruct (String.eqb dirpath "" || Str.endswith "/" dirpath).
  - destruct dirpath; discriminate.
  - destruct dirpath; discriminate.
Qed.

(** The paths of the files that reach the extractor hold no line boundary
    and start with neither white space nor a dash. *)
Definition clean_paths (root : string) (t : tree) : Prop :=
  Forall (fun f => no_linebreak (fst f) = true /\ clean_start (fst f) = true)
         (scanned_files root t).

Lemma collect_groups_clean root t :
  clean_paths root t ->
  Forall (fun g => clean_group g
                   /\ no_linebreak (snd (fst g)) = true
                   /\ Forall (fun o => no_linebreak (fst (fst o)) = true
                                       /\ fst (fst o) <> EmptyString) (snd g))
         (collect root t).
Proof.
  intros Hclean. unfold clean_paths in Hclean. rewrite List.Forall_forall in Hclean.
  apply List.Forall_forall. intros [k occs] Hg.
  assert (Hocc : forall o, In o occs ->
             exists b p lines,
               In (p, lines) (scanned_files root t) /\ In b (blocks_of p lines)
               /\ k = (b_name b, hash_block (b_lines b))
               /\ o = (p, b_start b, b_end b)).
  { intros o Ho.
    destruct (recorded_was_found root t k occs o Hg Ho) as (r & Hr & Hk & Hoc).
    apply found_origin in Hr as (p & lines & b & Hf & Hb & ->).
    exists b, p, lines. repeat split; try assumption; symmetry; assumption. }
  assert (Hne : occs <> []).
  { pose proof (collect_nonempty_from (all_found root t) [] (List.Forall_nil _)) as H.
    rewrite List.Forall_forall in H. exact (H _ Hg). }
  destruct occs as [|o0 occs0]; [contradiction|].
  destruct (Hocc o0 (or_introl eq_refl)) as (b & p & lines & Hf & Hb & -> & _).
  pose proof (blocks_named_by_words p lines) as Hnames.
  rewrite List.Forall_forall in Hnames. destruct (Hnames b Hb) as [Hbne Hbw].
  cbn [fst snd]. unfold clean_group. cbn [fst snd].
  repeat split; try assumption.
  - apply List.Forall_forall. intros o Ho.
    destruct (Hocc o Ho) as (b' & p' & lines' & Hf' & _ & _ & ->). cbn [fst].
    apply (Hclean _ Hf').
  - apply hash_block_no_linebreak.
  - apply List.Forall_forall. intros o Ho.
    destruct (Hocc o Ho) as (b' & p' & lines' & Hf' & _ & _ & ->). cbn [fst].
    split; [apply (Hclean _ Hf')|apply (scanned_path_nonempty root t p' lines' Hf')].
Qed.

Lemma filter_Forall {A : Type} (P : A -> Prop) f (l : list A) :
  Forall P l -> Forall P (List.filter f l).
Proof.
  intros H. apply List.Forall_forall. intros x Hx. apply filter_In in Hx as [Hx _].
  rewrite List.Forall_forall in H. exact (H x Hx).
Qed.

Lemma scan_parses_back root t :
  clean_paths root t ->
  Consolidate.parse_dedupe_output (Consolidate.run_dedupe root t)
  = map to_candidate (List.filter duplicated (collect root t)).
Proof.
  intros Hclean. unfold Consolidate.run_dedupe, main. cbn [fst].
  apply table_parses_back. apply filter_Forall.
  eapply List.Forall_impl; [|exact (collect_groups_clean root t Hclean)].
  intros g (Hg & Hh & Hocc). split; [exact Hg|split; [exact Hh|]].
  eapply List.Forall_impl; [|exact Hocc]. intros o [Ho _]. exact Ho.
Qed.

End FromTheScan.

(** X15: the report that [auto_consolidate.py] reads from the text printed
    by the scan holds, in the order of the scan, one record for each group
    of the table with at least two occurrences and nothing else: the record
    carries the name of the group and its occurrences written as
    [<path>:<start>-<end>]; so every record of the report has at least two
    occurrences.  This holds when the paths of the scanned files hold no
    line boundary and start with neither white space nor a dash (an absolute
    root gives paths that start with a slash). *)
Theorem scan_output_parses_back (root : string) (t : Dedupe.tree) :
  Forall (fun f => no_linebreak (fst f) = true /\ clean_start (fst f) = true)
         (Dedupe.scanned_files root t) ->
  Consolidate.parse_dedupe_output (Consolidate.run_dedupe root t)
  = map (fun g =>
           Planner.Candidate (fst (fst g))
             (map (fun '(path, start, end_) => format_occurrence path start end_)
                  (snd g)))
        (List.filter (fun g => (1 <? length (snd g))%nat) (Dedupe.collect root t))
  /\ Forall (fun c => 2 <= length (Planner.occurrences c))
            (Consolidate.parse_dedupe_output (Consolidate.run_dedupe root t)).
Proof.
  intros Hclean. pose proof (scan_parses_back root t Hclean) as Heq.
  split; [exact Heq|]. rewrite Heq. apply List.Forall_map.
  apply List.Forall_forall. intros g Hg. apply filter_In in Hg as [_ Hd].
  unfold duplicated in Hd. apply Nat.ltb_lt in Hd.
  unfold to_candidate. cbn [Planner.occurrences]. rewrite length_map. exact Hd.
Qed.

Lemma scan_output_parses_back_witness :
  Consolidate.parse_dedupe_output
    (Consolidate.run_dedupe "/repo"
       (Dedupe.Dir [("a.py", ["def helper(): return 1"]);
                    ("b.py", ["def helper(): return 1"]);
                    ("c.py", ["def other(): return 2"])] []))
  = [Planner.Candidate "helper" ["/repo/a.py:1-1"; "/repo/b.py:1-1"]].
Proof.
  destruct (scan_output_parses_back "/repo"
              (Dedupe.Dir [("a.py", ["def helper(): return 1"]);
                           ("b.py", ["def helper(): return 1"]);
                           ("c.py", ["def other(): return 2"])] []))
    as [Heq _].
  - vm_compute. repeat constructor.
  - rewrite Heq. vm_compute. reflexivity.
Defined.

Section PlannedInFull.

Import Planner.

Lemma linebreak_free_is_dot path :
  no_linebreak path = true -> Str.forallb Chars.isdot path = true.
Proof.
  apply forallb_impl. intros c.
  destruct c as [[] [] [] [] [] [] [] []]; vm_compute; intros H;
    first [reflexivity | discriminate H].
Qed.

Lemma formatted_occurrence_parses path start end_ :
  path <> EmptyString -> no_linebreak path = true ->
  parse_occurrence (format_occurrence path start end_) <> None.
Proof.
  intros Hne Hlb. unfold parse_occurrence, format_occurrence.
  change (String.append ":" ?x) with (String ":" x).
  change (String.append "-" ?x) with (String "-" x).
  rewrite (occurrence_groups path (Str.of_nat start) (Str.of_nat end_) Hne
             (linebreak_free_is_dot path Hlb)
             (of_nat_digits start) (of_nat_nonempty start)
             (of_nat_digits end_) (of_nat_nonempty end_)).
  rewrite !to_nat_of_nat. discriminate.
Qed.

(** A record the loop plans: at least two occurrences, all of which the
    occurrence parser accepts. *)
Definition plannable (c : candidate) : Prop :=
  2 <= length (occurrences c)
  /\ forall o, In o (occurrences c) -> parse_occurrence o <> None.

Lemma step_plannable st c : plannable c -> snd (step st c) = snd st.
Proof.
  intros [Hlen Hparse]. destruct st as [pl out]. unfold step.
  destruct (length (occurrences c) <? 2)%nat eqn:Hlt;
    [apply Nat.ltb_lt in Hlt; lia|].
  destruct (canonical_exists (occurrences c) Hlen) as [canonical Hcan].
  rewrite Hcan.
  pose proof (Hparse canonical (canonical_in_occurrences _ _ Hcan)) as Hok.
  destruct (parse_occurrence canonical) as [[[filepath start] end_]|];
    [reflexivity|contradiction].
Qed.

Lemma loop_plannable cs st :
  Forall plannable cs -> snd (fold_left step cs st) = snd st.
Proof.
  intros H. revert st. induction H as [|c cs Hc _ IH]; intros st; [reflexivity|].
  cbn [fold_left]. rewrite IH. apply step_plannable. exact Hc.
Qed.

Lemma plannable_not_too_few cs :
  Forall plannable cs -> List.filter too_few cs = [].
Proof.
  induction 1 as [|c cs [Hlen _] _ IH]; [reflexivity|].
  cbn [List.filter]. unfold too_few at 1.
  destruct (length (occurrences c) <? 2)%nat eqn:Hlt;
    [apply Nat.ltb_lt in Hlt; lia|exact IH].
Qed.

Lemma scanned_records_plannable root t :
  clean_paths root t ->
  Forall plannable (map to_candidate (List.filter duplicated (Dedupe.collect root t))).
Proof.
  intros Hclean. apply List.Forall_map. apply List.Forall_forall. intros g Hg.
  apply filter_In in Hg as [Hg Hd].
  pose proof (collect_groups_clean root t Hclean) as Hall.
  rewrite List.Forall_forall in Hall. destruct (Hall g Hg) as (_ & _ & Hocc).
  unfold duplicated in Hd. apply Nat.ltb_lt in Hd.
  unfold plannable, to_candidate. cbn [occurrences]. split.
  - rewrite length_map. exact Hd.
  - intros o Ho. apply in_map_iff in Ho as ([[path start] end_] & <- & Hin).
    rewrite List.Forall_forall in Hocc. destruct (Hocc _ Hin) as [Hlb Hne].
    cbn [fst] in *. apply formatted_occurrence_parses; assumption.
Qed.

End PlannedInFull.

(** X16: when the Planner is given the report that [auto_consolidate.py]
    reads from the text of a scan (paths as for X15), it plans every record:
    it prints no warning, passes over no record, and the number of entries of
    its plan is the number of groups of the scan with at least two
    occurrences. *)
Theorem scanned_report_is_planned_in_full
    (root : string) (t : Dedupe.tree) (report_path : string) :
  Forall (fun f => no_linebreak (fst f) = true /\ clean_start (fst f) = true)
         (Dedupe.scanned_files root t) ->
  let candidates := Consolidate.parse_dedupe_output (Consolidate.run_dedupe root t) in
  let pl := fst (fst (Planner.main report_path candidates)) in
  let out := snd (fst (Planner.main report_path candidates)) in
  warnings out = []
  /\ List.filter too_few candidates = []
  /\ dict_size pl = length candidates
  /\ length candidates
     = length (List.filter (fun g => (1 <? length (snd g))%nat)
                           (Dedupe.collect root t)).
Proof.
  intros Hclean. cbv zeta.
  rewrite (scan_parses_back root t Hclean).
  pose proof (scanned_records_plannable root t Hclean) as Hplan.
  set (cs := map to_candidate (List.filter duplicated (Dedupe.collect root t))) in *.
  pose proof (plannable_not_too_few cs Hplan) as Hfew.
  destruct (planner_counts report_path cs) as [Hcount Hw].
  assert (Hnow : warnings (snd (fst (Planner.main report_path cs))) = []).
  { rewrite Hw, loop_plannable by exact Hplan. reflexivity. }
  repeat split.
  - exact Hnow.
  - exact Hfew.
  - rewrite Hfew, Hnow in Hcount. cbn [length] in Hcount. lia.
  - unfold cs. rewrite length_map. reflexivity.
Qed.

Lemma scanned_report_is_planned_in_full_witness :
  warnings
    (snd (fst (Planner.main "report.json"
                 (Consolidate.parse_dedupe_output
                    (Consolidate.run_dedupe "/repo"
                       (Dedupe.Dir [("a.py", ["def helper(): return 1"]);
                                    ("b.py", ["def helper(): return 1"])] [])))))) = []
  /\ dict_size
       (fst (fst (Planner.main "report.json"
                    (Consolidate.parse_dedupe_output
                       (Consolidate.run_dedupe "/repo"
                          (Dedupe.Dir [("a.py", ["def helper(): return 1"]);
                                       ("b.py", ["def helper(): return 1"])] []))))))
     = 1.
Proof.
  destruct (scanned_report_is_planned_in_full "/repo"
              (Dedupe.Dir [("a.py", ["def helper(): return 1"]);
                           ("b.py", ["def helper(): return 1"])] [])
              "report.json")
    as (Hw & _ & Hsize & Hlen).
  - vm_compute. repeat constructor.
  - split; [exact Hw|]. rewrite Hsize, Hlen. vm_compute. reflexivity.
Defined.

(** X17: [auto_consolidate.py], run on the text of a scan (paths as for
    X15), leaves in the staging directory the files that were there and one
    stub per name of a group with at least two occurrences, called after
    that name: [<name>.py]. *)
Theorem stubs_named_after_duplicated_functions
    (root : string) (t : Dedupe.tree) (dir : gmap string string) :
  Forall (fun f => no_linebreak (fst f) = true /\ clean_start (fst f) = true)
         (Dedupe.scanned_files root t) ->
  dom (fst (snd (Consolidate.main root t dir)))
  = dom dir
    ∪ list_to_set
        (map (fun g => String.append (fst (fst g)) ".py")
             (List.filter (fun g => (1 <? length (snd g))%nat)
                          (Dedupe.collect root t))).
Proof.
  intros Hclean. unfold Consolidate.main. cbn [snd].
  rewrite (scan_parses_back root t Hclean).
  unfold Stubs.create_stubs. rewrite loop_dom. cbn [fst]. f_equal. f_equal.
  rewrite map_map. apply map_ext_in. intros g Hg.
  apply filter_In in Hg as [Hg _].
  pose proof (collect_groups_clean root t Hclean) as Hall.
  rewrite List.Forall_forall in Hall.
  destruct (Hall g Hg) as ((Hne & Hw & _) & _ & _).
  unfold to_candidate, Stubs.stub_file. cbn [Planner.function].
  rewrite safe_name_fixed; [reflexivity|exact Hne|].
  apply (forallb_impl Chars.isword); [exact word_is_safe|exact Hw].
Qed.

Lemma stubs_named_after_duplicated_functions_witness :
  dom (fst (snd (Consolidate.main "/repo"
                   (Dedupe.Dir [("a.py", ["def helper(): return 1"]);
                                ("b.py", ["def helper(): return 1"]);
                                ("c.py", ["def other(): return 2"])] [])
                   ∅)))
  = ({["helper.py"]} : gset string).
Proof.
  rewrite (stubs_named_after_duplicated_functions "/repo"
             (Dedupe.Dir [("a.py", ["def helper(): return 1"]);
                          ("b.py", ["def helper(): return 1"]);
                          ("c.py", ["def other(): return 2"])] []) ∅).
  - vm_compute. reflexivity.
  - vm_compute. repeat constructor.
Defined.

(** ** [parse_dedupe_output] on any text *)

Definition is_header (l : string) : bool :=
  Str.startswith "Duplicate candidate:" (Str.strip l).

(** The records of a list of lines, read in one pass: every header line
    gives a record with the dash lines that follow it. *)
Fixpoint records_of (lines : list string) : list Planner.candidate :=
  match lines with
  | [] => []
  | l :: rest =>
      if is_header l then
        Planner.Candidate (Consolidate.function_name (Str.strip l))
          (map Consolidate.occurrence_text (Consolidate.files_after rest))
        :: records_of rest
      else records_of rest
  end.

Lemma dash_is_no_header s :
  Str.startswith "-" s = true -> Str.startswith "Duplicate candidate:" s = false.
Proof.
  destruct s as [|c s]; [discriminate|]. cbn [Str.startswith].
  intros H. apply andb_true_iff in H as [Hc _]. apply Ascii.eqb_eq in Hc as <-.
  reflexivity.
Qed.

Lemma records_skip_files rest :
  records_of (skipn (length (Consolidate.files_after rest)) rest) = records_of rest.
Proof.
  induction rest as [|l rest IH]; [reflexivity|].
  cbn [Consolidate.files_after].
  destruct (Str.startswith "-" (Str.strip l)) eqn:Hd; [|reflexivity].
  cbn [length skipn records_of]. unfold is_header.
  rewrite (dash_is_no_header _ Hd). exact IH.
Qed.

Lemma files_after_length rest :
  length (Consolidate.files_after rest) <= length rest.
Proof.
  induction rest as [|l rest IH]; cbn [Consolidate.files_after length]; [lia|].
  destruct (Str.startswith "-" (Str.strip l)); cbn [length]; lia.
Qed.

Lemma parse_lines_records fuel lines :
  length lines <= fuel -> Consolidate.parse_lines fuel lines = records_of lines.
Proof.
  revert lines. induction fuel as [|fuel IH]; intros lines Hlen.
  - destruct lines; [reflexivity|cbn [length] in Hlen; lia].
  - destruct lines as [|l rest]; [reflexivity|].
    cbn [Consolidate.parse_lines records_of length] in *. unfold is_header.
    destruct (Str.startswith "Duplicate candidate:" (Str.strip l)).
    + f_equal. rewrite IH.
      * apply records_skip_files.
      * rewrite List.length_skipn. lia.
    + apply IH. lia.
Qed.

(** X18: on any text, the parser of [auto_consolidate.py] gives one record
    per line that starts, once stripped, with [Duplicate candidate:], in
    order, with the dash lines that follow that line as occurrences; jumping
    over those lines loses nothing, since a dash line is never a header, and
    the loop ends within as many iterations as the text has lines.  The
    name of a record is what stands between the first colon and the first
    opening parenthesis after it, stripped, so the fallback name [unknown]
    is never used. *)
Theorem parser_reads_every_header (text : string) :
  Consolidate.parse_dedupe_output text = records_of (Str.splitlines text)
  /\ (forall fuel, length (Str.splitlines text) <= fuel ->
                   Consolidate.parse_lines fuel (Str.splitlines text)
                   = Consolidate.parse_dedupe_output text)
  /\ map Planner.function (Consolidate.parse_dedupe_output text)
     = map (fun l => Consolidate.function_name (Str.strip l))
           (List.filter is_header (Str.splitlines text))
  /\ forall l, is_header l = true ->
               exists rest,
                 Str.strip l = String.append "Duplicate candidate:" rest
                 /\ Consolidate.function_name (Str.strip l)
                    = Str.strip (hd EmptyString (Planner.split "(" rest)).
Proof.
  assert (Hp : Consolidate.parse_dedupe_output text = records_of (Str.splitlines text)).
  { unfold Consolidate.parse_dedupe_output. apply parse_lines_records. lia. }
  split; [exact Hp|]. split; [|split].
  - intros fuel Hfuel. rewrite Hp. apply parse_lines_records. exact Hfuel.
  - rewrite Hp. clear Hp.
    induction (Str.splitlines text) as [|l rest IH]; [reflexivity|].
    cbn [records_of List.filter]. destruct (is_header l); cbn [map]; rewrite IH;
      reflexivity.
  - intros l Hl. unfold is_header in Hl. apply startswith_inv in Hl as [rest Hrest].
    exists rest. split; [exact Hrest|]. rewrite Hrest. reflexivity.
Qed.

Example parser_on_odd_text :
  Consolidate.parse_dedupe_output
    (Str.concat ["note"; nl; "  Duplicate candidate:  f (x"; nl; " - a.py:1-2"; nl;
                 "-- b.py:3-4 "; nl; "Duplicate candidate:"; nl; "- c.py:5-6"])
  = [Planner.Candidate "f" ["a.py:1-2"; "b.py:3-4"];
     Planner.Candidate "" ["c.py:5-6"]].
Proof. vm_compute. reflexivity. Qed.

(** ** The extension of an ordinary file name *)

Lemma substring_whole s : substring 0 (String.length s) s = s.
Proof.
  induction s as [|c s IH]; [reflexivity|].
  cbn [String.length substring]. rewrite IH. reflexivity.
Qed.

Lemma substring_after a b :
  substring (String.length a) (String.length b) (String.append a b) = b.
Proof.
  induction a as [|c a IH]; [apply substring_whole|].
  rewrite append_String. cbn [String.length substring]. exact IH.
Qed.

Lemma rfind_absent c s :
  Str.forallb (fun a => negb (Ascii.eqb a c)) s = true -> Planner.rfind c s = None.
Proof.
  induction s as [|a s IH]; [reflexivity|].
  cbn [Str.forallb Planner.rfind]. intros H. apply andb_true_iff in H as [Ha Hs].
  rewrite (IH Hs). apply negb_true_iff in Ha. rewrite Ha. reflexivity.
Qed.

Lemma forallb_false_inv p s :
  Str.forallb p s = false ->
  exists s1 c s2, s = String.append s1 (String c s2) /\ p c = false.
Proof.
  induction s as [|c s IH]; [discriminate|].
  cbn [Str.forallb]. destruct (p c) eqn:Hc.
  - cbn [andb]. intros H. destruct (IH H) as (s1 & c' & s2 & -> & Hc').
    exists (String c s1), c', s2. split; [reflexivity|exact Hc'].
  - intros _. exists EmptyString, c, s. split; [reflexivity|exact Hc].
Qed.

Lemma get_after s c rest :
  String.get (String.length s) (String.append s (String c rest)) = Some c.
Proof.
  induction s as [|a s IH]; [reflexivity|].
  rewrite append_String. cbn [String.length String.get]. exact IH.
Qed.

(** [splitext] on a path whose last component is a stem with something else
    than dots in it, followed by an extension. *)
Lemma splitext_ext_ordinary pre stem e :
  pre = EmptyString \/ (exists a0, pre = String.append a0 "/") ->
  Str.forallb (fun c => negb (Ascii.eqb c "/")) stem = true ->
  Str.forallb (fun c => Ascii.eqb c ".") stem = false ->
  Planner.rfind "." e = Some 0 -> Planner.rfind "/" e = None ->
  Dedupe.splitext_ext (String.append pre (String.append stem e)) = e.
Proof.
  intros Hpre Hslash Hdots Hdot Hsep. unfold Dedupe.splitext_ext.
  rewrite !rfind_append, Hdot, Hsep, (rfind_absent "/" stem Hslash).
  assert (Hfile : match Planner.rfind "/" pre with
                  | Some sepIndex => S sepIndex
                  | None => 0
                  end = String.length pre).
  { destruct Hpre as [->|[a0 ->]]; [reflexivity|].
    rewrite rfind_append, length_append.
    change (Planner.rfind "/" "/") with (Some 0). cbn [String.length]. lia. }
  rewrite Hfile, Nat.add_0_r.
  replace (String.length pre + String.length stem - String.length pre)
    with (String.length stem) by lia.
  assert (Hle : (String.length pre <=? String.length pre + String.length stem)%nat = true)
    by (apply Nat.leb_le; lia).
  rewrite Hle. cbn [andb].
  assert (Hex : existsb
                  (fun i => match String.get i (String.append pre (String.append stem e)) with
                            | Some c => negb (Ascii.eqb c ".")
                            | None => false
                            end)
                  (seq (String.length pre) (String.length stem)) = true).
  { apply forallb_false_inv in Hdots as (s1 & c & s2 & -> & Hc).
    apply existsb_exists. exists (String.length s1 + String.length pre). split.
    - apply in_seq. rewrite length_append. cbn [String.length]. lia.
    - rewrite <- append_correct2, append_assoc3, append_String, get_after.
      rewrite Hc. reflexivity. }
  rewrite Hex.
  rewrite <- append_assoc3, !length_append.
  replace (String.length pre + String.length stem + String.length e
           - (String.length pre + String.length stem))
    with (String.length e) by lia.
  rewrite <- length_append. apply substring_after.
Qed.

(** X19: a file whose name is a stem that is not made of dots only,
    followed by one of the five extensions, passes the test of line 73 and is
    scanned with the header patterns of that extension, wherever it lies:
    [os.path.splitext] gives back the extension.  (With X4: the test of line
    73 and the extractor disagree only on names that are dots followed by
    the letters of an extension.) *)
Theorem ordinary_names_keep_their_extension
    (dirpath stem e : string) (lines : list string) :
  In e [".py"; ".ts"; ".js"; ".tsx"; ".jsx"] ->
  Str.forallb (fun c => negb (Ascii.eqb c "/")) stem = true ->
  Str.forallb (fun c => Ascii.eqb c ".") stem = false ->
  Dedupe.supported (String.append stem e) = true
  /\ Dedupe.splitext_ext (Dedupe.join dirpath (String.append stem e)) = e
  /\ Dedupe.blocks_of (Dedupe.join dirpath (String.append stem e)) lines
     = Dedupe.extract (length lines) e lines 0.
Proof.
  intros He Hslash Hdots.
  assert (Hrel : Str.startswith "/" (String.append stem e) = false).
  { destruct stem as [|c stem]; [discriminate Hdots|].
    cbn [Str.forallb] in Hslash. apply andb_true_iff in Hslash as [Hc _].
    apply negb_true_iff in Hc. rewrite append_String. cbn [Str.startswith].
    rewrite Ascii.eqb_sym, Hc. reflexivity. }
  assert (Hfacts : Planner.rfind "." e = Some 0 /\ Planner.rfind "/" e = None
                   /\ Str.lower e = e
                   /\ Dedupe.supported (String.append stem e) = true).
  { unfold Dedupe.supported. cbn [In] in He. cbn [existsb].
    repeat (destruct He as [<-|He];
            [repeat split; try reflexivity;
             rewrite endswith_append; rewrite ?orb_true_r; reflexivity|]).
    destruct He. }
  destruct Hfacts as (Hdot & Hsep & Hlow & Hsup).
  assert (Hext : Dedupe.splitext_ext (Dedupe.join dirpath (String.append stem e)) = e).
  { destruct (join_relative dirpath _ Hrel) as (pre & -> & Hpre).
    apply splitext_ext_ordinary; try assumption.
    destruct Hpre as [[-> _]|(a0 & -> & _)]; [left; reflexivity|right; eauto]. }
  split; [exact Hsup|]. split; [exact Hext|].
  unfold Dedupe.blocks_of. rewrite Hext, Hlow. reflexivity.
Qed.

Lemma ordinary_names_keep_their_extension_witness :
  Dedupe.supported (String.append "my.file" ".tsx") = true
  /\ Dedupe.splitext_ext (Dedupe.join "/repo/src" (String.append "my.file" ".tsx"))
     = ".tsx"
  /\ Dedupe.blocks_of (Dedupe.join "/repo/src" (String.append "my.file" ".tsx"))
       ["function f() {}"]
     = Dedupe.extract 1 ".tsx" ["function f() {}"] 0.
Proof.
  apply (ordinary_names_keep_their_extension "/repo/src" "my.file" ".tsx"
           ["function f() {}"]).
  - right. right. right. left. reflexivity.
  - reflexivity.
  - reflexivity.
Defined.

(** ** The output of the scan, line by line *)

(** X20: the scan prints, for each group with at least two occurrences and
    in the order in which the keys were first met, a header with the name
    and the digest, one line per occurrence in the order of discovery, and
    an empty line; then one last line, which says that nothing was found when
    no header was printed and gives the number of headers otherwise. *)
Theorem report_lists_groups_in_order (root : string) (t : Dedupe.tree) :
  let gs := List.filter (fun g => (1 <? length (snd g))%nat) (Dedupe.collect root t) in
  fst (Dedupe.main root t)
  = flat_map (fun g =>
                Dedupe.DuplicateCandidate (fst (fst g)) (snd (fst g))
                :: map (fun '(path, start, end_) => Dedupe.FoundAt path start end_)
                       (snd g)
                ++ [Dedupe.Blank]) gs
    ++ [if (length gs =? 0)%nat then Dedupe.NoDuplicates
        else Dedupe.FoundCount (length gs)].
Proof.
  cbv zeta. unfold Dedupe.main. cbn [fst]. rewrite print_duplicates_unfold.
  reflexivity.
Qed.
